(** * TurboLog: the rolling file logger of react-native-turbo-log (HarmonyOS)

    A shallow embedding of [harmony/turbo_log/src/main/ets/TurboLog.ts] and
    the properties of its rotation and retention engine.

    Modelling conventions.
    - A JavaScript [number] is a [Z].  Every counter of the logger is an
      integer, and below 2^53 the arithmetic of doubles on integers is the
      arithmetic of [Z]; fractional values, NaN and magnitudes beyond 2^53
      are outside the model.
    - A JavaScript string is a Rocq [string]; a character stands for one
      UTF-16 code unit in the range 0..255.  [String.length] is the
      [.length] of the source, [Str.TextEncoder_encodeInto] gives the UTF-8
      bytes that reach the file.
    - [new Date()] is an input: a method takes the dates it reads as
      arguments.
    - [@ohos.file.fs] is an external collaborator.  It is modelled as a
      store of regular files keyed by path, in enumeration order, and a set
      of directories.  A path belongs to the directory before its last
      slash; a listing gives the names of the regular files of a directory.
      [stat], [unlink] and [rename] throw on a path that is no file, a
      listing throws on a path that is no directory, and opening a file
      for appending creates it when its directory exists.  A rename keeps
      the modification time and replaces a file that has the new name; a
      write stamps the time that the environment gives.  Besides, the
      environment decides, call by call, that a call throws; a call that
      throws changes nothing.  Every call is recorded in a trace.
    - The static fields of the class [TurboLog] and the file store form the
      state that every method threads; a method either returns, throws, or
      runs forever.
    - [hilog] output (the diagnostic sink) has no effect on the state and is
      left out. *)

From Stdlib Require Import String Ascii List ZArith Lia Bool Arith ZifyBool.
From Stdlib Require Import DecimalString DecimalZ DecimalN DecimalPos.
From Stdlib Require Import Sorting.Sorted Sorting.Permutation.
From Stdlib Require Strings.Byte.
Import ListNotations.

Local Open Scope string_scope.
Local Open Scope Z_scope.

(** ** Strings *)

Module Str.

(** [s.startsWith(p)] *)
Fixpoint startsWith (s p : string) : bool :=
  match p with
  | EmptyString => true
  | String c p' =>
      match s with
      | EmptyString => false
      | String d s' => Ascii.eqb c d && startsWith s' p'
      end
  end.

(** [s.endsWith(x)]: some suffix of [s] is [x]. *)
Fixpoint endsWith (s x : string) : bool :=
  String.eqb s x ||
  match s with
  | EmptyString => false
  | String _ s' => endsWith s' x
  end.

(** [\d] *)
Definition is_digit (c : ascii) : bool :=
  let n := N_of_ascii c in (48 <=? n)%N && (n <=? 57)%N.

(** The longest run of digits at the head of [s], and what follows it. *)
Fixpoint span_digits (s : string) : string * string :=
  match s with
  | EmptyString => (EmptyString, EmptyString)
  | String c s' =>
      if is_digit c
      then let (ds, tl) := span_digits s' in (String c ds, tl)
      else (EmptyString, s)
  end.

Fixpoint all_digits (s : string) : bool :=
  match s with
  | EmptyString => true
  | String c s' => is_digit c && all_digits s'
  end.

Fixpoint no_slash (s : string) : bool :=
  match s with
  | EmptyString => true
  | String c s' => negb (Ascii.eqb c "/") && no_slash s'
  end.

(** [String(n)] for an integer [n]. *)
Definition of_number (n : Z) : string := NilZero.string_of_int (Z.to_int n).

(** [s.padStart(n, c)] for a one-character filler. *)
Fixpoint replicate (n : nat) (c : ascii) : string :=
  match n with
  | O => EmptyString
  | S n' => String c (replicate n' c)
  end.

Definition padStart (s : string) (n : nat) (c : ascii) : string :=
  replicate (n - String.length s) c ++ s.

(** [parseInt(s, 10)] on the capture of [(\d+)]; [None] is NaN. *)
Definition parseInt (s : string) : option Z :=
  match s with
  | EmptyString => None
  | _ => option_map Z.of_uint (NilEmpty.uint_of_string s)
  end.

(** [new util.TextEncoder().encodeInto(s)]: the UTF-8 bytes of [s]. *)
Definition utf8_of_unit (c : ascii) : list Byte.byte :=
  let n := N_of_ascii c in
  if (n <? 128)%N then [byte_of_ascii c]
  else [byte_of_ascii (ascii_of_N (192 + n / 64));
        byte_of_ascii (ascii_of_N (128 + n mod 64))].

Fixpoint TextEncoder_encodeInto (s : string) : list Byte.byte :=
  match s with
  | EmptyString => []
  | String c s' => (utf8_of_unit c ++ TextEncoder_encodeInto s')%list
  end.

(** Every code unit is below 128: the string is as long as its UTF-8
    encoding. *)
Fixpoint is_ascii (s : string) : bool :=
  match s with
  | EmptyString => true
  | String c s' => (N_of_ascii c <? 128)%N && is_ascii s'
  end.

(** A regular expression [S(\d+)\.log$] for a separator character [S]:
    the attempt at one start position.  The greedy [\d+] takes the whole
    run of digits; giving digits back never helps, because the character
    after a shorter run is a digit and not the dot of [\.log]. *)
Definition match_here (sep : ascii) (s : string) : option string :=
  match s with
  | EmptyString => None
  | String c rest =>
      if Ascii.eqb c sep then
        let (ds, tl) := span_digits rest in
        match ds with
        | EmptyString => None
        | _ => if String.eqb tl ".log" then Some ds else None
        end
      else None
  end.

(** [s.match(/S(\d+)\.log$/)]: the leftmost start position that matches;
    the result is the capture group. *)
Fixpoint regex_index (sep : ascii) (s : string) : option string :=
  match match_here sep s with
  | Some ds => Some ds
  | None =>
      match s with
      | EmptyString => None
      | String _ s' => regex_index sep s'
      end
  end.

End Str.

(** ** Dates and the entry format *)

(** What the getters of a [Date] return. *)
Record Date := mkDate {
  getFullYear : Z;
  getMonth : Z;
  getDate : Z;
  getHours : Z;
  getMinutes : Z;
  getSeconds : Z;
  getMilliseconds : Z
}.

Definition formatDate (date : Date) : string :=
  let year := Str.of_number (getFullYear date) in
  let month := Str.padStart (Str.of_number (getMonth date + 1)) 2 "0" in
  let day := Str.padStart (Str.of_number (getDate date)) 2 "0" in
  year ++ "-" ++ month ++ "-" ++ day.

Definition formatTimestamp (date : Date) : string :=
  let year := Str.of_number (getFullYear date) in
  let month := Str.padStart (Str.of_number (getMonth date + 1)) 2 "0" in
  let day := Str.padStart (Str.of_number (getDate date)) 2 "0" in
  let hours := Str.padStart (Str.of_number (getHours date)) 2 "0" in
  let minutes := Str.padStart (Str.of_number (getMinutes date)) 2 "0" in
  let seconds := Str.padStart (Str.of_number (getSeconds date)) 2 "0" in
  let ms := Str.padStart (Str.of_number (getMilliseconds date)) 3 "0" in
  year ++ "/" ++ month ++ "/" ++ day ++ " " ++
  hours ++ ":" ++ minutes ++ ":" ++ seconds ++ "." ++ ms.

(** [LogLevel] is a numeric enum; the bridge casts any number to it. *)
Definition LogLevel := Z.
Definition Debug : LogLevel := 0.
Definition Info : LogLevel := 1.
Definition Warning : LogLevel := 2.
Definition Error : LogLevel := 3.

Definition getLevelString (level : LogLevel) : string :=
  match level with
  | 0 => "DEBUG"
  | 1 => "INFO "
  | 2 => "WARN "
  | 3 => "ERROR"
  | _ => "INFO "
  end.

(** ** Configuration and the static fields of [TurboLog] *)

Record ConfigureOptions := mkOptions {
  opt_dailyRolling : option bool;
  opt_logsDirectory : option string;
  opt_maximumFileSize : option Z;
  opt_maximumNumberOfFiles : option Z;
  opt_logPrefix : option string
}.

Record InternalConfig := mkConfig {
  dailyRolling : bool;
  logsDirectory : string;
  maximumFileSize : Z;
  maximumNumberOfFiles : Z;
  logPrefix : string
}.

Record TurboLog := mkTurboLog {
  config : option InternalConfig;
  currentLogFile : string;
  currentDate : string;
  currentFileSize : Z;
  currentFileIndex : Z
}.

(** The fields before the first [configure]. *)
Definition TurboLog_initial : TurboLog :=
  mkTurboLog None "" "" 0 0.

(** [x ?? d] *)
Definition nullish {A} (x : option A) (d : A) : A :=
  match x with Some v => v | None => d end.

(** ** The file store *)

Record File := mkFile {
  f_data : list Byte.byte;
  f_mtime : Z
}.

Definition f_size (f : File) : Z := Z.of_nat (length (f_data f)).

Inductive FsCall :=
| AccessSync (path : string)
| StatSync (path : string)
| MkdirSync (path : string)
| ListFileSync (path : string)
| OpenSync (path : string)
| WriteSync (path : string) (data : list Byte.byte)
| CloseSync (path : string)
| RenameSync (oldPath newPath : string)
| UnlinkSync (path : string).

(** [files] is in enumeration order.  [faults t c] says that call [c],
    issued as the [t]-th call, throws; [mclock t] is the modification time
    that a write at that moment stamps on the file.  [trace] lists the calls
    made so far, oldest first, each with [true] when it returned and
    [false] when it threw. *)
Record FileStore := mkStore {
  dirs : list string;
  files : list (string * File);
  ticks : nat;
  faults : nat -> FsCall -> bool;
  mclock : nat -> Z;
  trace : list (FsCall * bool)
}.

Module Fs.

Definition lookup (p : string) (fl : list (string * File)) : option File :=
  option_map snd (find (fun e => String.eqb (fst e) p) fl).

Definition is_file (p : string) (fl : list (string * File)) : bool :=
  existsb (fun e => String.eqb (fst e) p) fl.

Definition is_dir (p : string) (ds : list string) : bool :=
  existsb (String.eqb p) ds.

Definition remove (p : string) (fl : list (string * File))
  : list (string * File) :=
  filter (fun e => negb (String.eqb (fst e) p)) fl.

(** A path splits at its last slash into directory and entry name. *)
Fixpoint split_path (p : string) : option (string * string) :=
  match p with
  | EmptyString => None
  | String c rest =>
      match split_path rest with
      | Some (d, b) => Some (String c d, b)
      | None => if Ascii.eqb c "/" then Some (EmptyString, rest) else None
      end
  end.

Definition parent_exists (p : string) (ds : list string) : bool :=
  match split_path p with
  | Some (d, _) => is_dir d ds
  | None => false
  end.

(** The names of the regular files directly in directory [d]. *)
Fixpoint names_in (d : string) (fl : list (string * File)) : list string :=
  match fl with
  | [] => []
  | (p, _) :: fl' =>
      match split_path p with
      | Some (d', n) =>
          if String.eqb d' d then n :: names_in d fl' else names_in d fl'
      | None => names_in d fl'
      end
  end.

(** Appending to a file; the entry keeps its place in the enumeration. *)
Fixpoint append_to (p : string) (data : list Byte.byte) (mt : Z)
  (fl : list (string * File)) : list (string * File) :=
  match fl with
  | [] => []
  | (q, f) :: fl' =>
      if String.eqb q p
      then (q, mkFile (f_data f ++ data)%list mt) :: fl'
      else (q, f) :: append_to p data mt fl'
  end.

(** Renaming [a] to [b]: an existing [b] is replaced; the entry keeps its
    place and its modification time. *)
Fixpoint rename_in (a b : string) (fl : list (string * File))
  : list (string * File) :=
  match fl with
  | [] => []
  | (q, f) :: fl' =>
      if String.eqb q a then (b, f) :: fl'
      else (q, f) :: rename_in a b fl'
  end.

Definition record (c : FsCall) (ok : bool) (st : FileStore) : FileStore :=
  mkStore (dirs st) (files st) (S (ticks st)) (faults st) (mclock st)
          (trace st ++ [(c, ok)])%list.

Definition commit (c : FsCall) (ds : list string)
  (fl : list (string * File)) (st : FileStore) : FileStore :=
  mkStore ds fl (S (ticks st)) (faults st) (mclock st)
          (trace st ++ [(c, true)])%list.

End Fs.

(** ** Methods as state transformers *)

Record State := mkState {
  logger : TurboLog;
  store : FileStore
}.

Inductive Outcome (A : Type) :=
| Returns (a : A) (s : State)
| Throws (s : State)
| Diverges.

Arguments Returns {A} a s.
Arguments Throws {A} s.
Arguments Diverges {A}.

Definition M (A : Type) := State -> Outcome A.

Definition ret {A} (a : A) : M A := fun s => Returns a s.

Definition bind {A B} (m : M A) (k : A -> M B) : M B :=
  fun s =>
    match m s with
    | Returns a s' => k a s'
    | Throws s' => Throws s'
    | Diverges => Diverges
    end.

(** [try { m } catch (err) { h }] *)
Definition try_catch {A} (m : M A) (h : M A) : M A :=
  fun s =>
    match m s with
    | Returns a s' => Returns a s'
    | Throws s' => h s'
    | Diverges => Diverges
    end.

(** A loop whose condition stays true and whose body changes nothing. *)
Definition loops_forever {A} : M A := fun _ => Diverges.

Declare Scope monad_scope.
Delimit Scope monad_scope with monad.
Notation "x <- m ;; k" := (bind m (fun x => k))
  (at level 61, m at next level, right associativity) : monad_scope.
Notation "m ;; k" := (bind m (fun _ => k))
  (at level 61, right associativity) : monad_scope.
Local Open Scope monad_scope.

(** A call of [fs]: it throws when the environment says so or when the
    store cannot serve it (then [eff] is [None]); a call that throws leaves
    directories and files as they were. *)
Definition fs_call {A} (c : FsCall)
  (eff : FileStore -> option (A * list string * list (string * File)))
  : M A :=
  fun s =>
    let st := store s in
    if faults st (ticks st) c
    then Throws (mkState (logger s) (Fs.record c false st))
    else match eff st with
         | Some (a, ds, fl) =>
             Returns a (mkState (logger s) (Fs.commit c ds fl st))
         | None => Throws (mkState (logger s) (Fs.record c false st))
         end.

Definition accessSync (p : string) : M bool :=
  fs_call (AccessSync p) (fun st =>
    Some (Fs.is_file p (files st) || Fs.is_dir p (dirs st),
          dirs st, files st)).

(** [statSync(p)] as the pair of [size] and [mtime]. *)
Definition statSync (p : string) : M (Z * Z) :=
  fs_call (StatSync p) (fun st =>
    match Fs.lookup p (files st) with
    | Some f => Some ((f_size f, f_mtime f), dirs st, files st)
    | None => None
    end).

Definition mkdirSync (p : string) : M unit :=
  fs_call (MkdirSync p) (fun st =>
    if Fs.is_file p (files st) || Fs.is_dir p (dirs st) then None
    else Some (tt, (dirs st ++ [p])%list, files st)).

Definition listFileSync (p : string) : M (list string) :=
  fs_call (ListFileSync p) (fun st =>
    if Fs.is_dir p (dirs st)
    then Some (Fs.names_in p (files st), dirs st, files st)
    else None).

(** [openSync(p, CREATE | READ_WRITE | APPEND)]; the handle is the path. *)
Definition openSync (p : string) : M string :=
  fs_call (OpenSync p) (fun st =>
    if Fs.is_file p (files st) then Some (p, dirs st, files st)
    else if Fs.is_dir p (dirs st) then None
    else if Fs.parent_exists p (dirs st)
         then Some (p, dirs st,
                    (files st ++ [(p, mkFile [] (mclock st (ticks st)))])%list)
         else None).

Definition writeSync (fd : string) (data : list Byte.byte) : M unit :=
  fs_call (WriteSync fd data) (fun st =>
    if Fs.is_file fd (files st)
    then Some (tt, dirs st,
               Fs.append_to fd data (mclock st (ticks st)) (files st))
    else None).

Definition closeSync (fd : string) : M unit :=
  fs_call (CloseSync fd) (fun st => Some (tt, dirs st, files st)).

Definition renameSync (a b : string) : M unit :=
  fs_call (RenameSync a b) (fun st =>
    if Fs.is_file a (files st) && negb (Fs.is_dir b (dirs st))
       && Fs.parent_exists b (dirs st)
    then Some (tt, dirs st,
               if String.eqb a b then files st
               else Fs.rename_in a b (Fs.remove b (files st)))
    else None).

Definition unlinkSync (p : string) : M unit :=
  fs_call (UnlinkSync p) (fun st =>
    if Fs.is_file p (files st)
    then Some (tt, dirs st, Fs.remove p (files st))
    else None).

(** Reading and assigning the static fields. *)
Definition get {A} (f : TurboLog -> A) : M A :=
  fun s => Returns (f (logger s)) s.

Definition modify (f : TurboLog -> TurboLog) : M unit :=
  fun s => Returns tt (mkState (f (logger s)) (store s)).

Definition with_config (c : option InternalConfig) (t : TurboLog) :=
  mkTurboLog c (currentLogFile t) (currentDate t)
             (currentFileSize t) (currentFileIndex t).
Definition with_currentLogFile (p : string) (t : TurboLog) :=
  mkTurboLog (config t) p (currentDate t)
             (currentFileSize t) (currentFileIndex t).
Definition with_currentDate (d : string) (t : TurboLog) :=
  mkTurboLog (config t) (currentLogFile t) d
             (currentFileSize t) (currentFileIndex t).
Definition with_currentFileSize (n : Z) (t : TurboLog) :=
  mkTurboLog (config t) (currentLogFile t) (currentDate t)
             n (currentFileIndex t).
Definition with_currentFileIndex (n : Z) (t : TurboLog) :=
  mkTurboLog (config t) (currentLogFile t) (currentDate t)
             (currentFileSize t) n.

Definition set_config c : M unit := modify (with_config c).
Definition set_currentLogFile p : M unit := modify (with_currentLogFile p).
Definition set_currentDate d : M unit := modify (with_currentDate d).
Definition set_currentFileSize n : M unit := modify (with_currentFileSize n).
Definition set_currentFileIndex n : M unit := modify (with_currentFileIndex n).

(** ** The class [TurboLog] *)

Definition ensureLogsDirectory : M unit :=
  cfg <- get config ;;
  match cfg with
  | None => ret tt
  | Some c =>
      if String.eqb (logsDirectory c) "" then ret tt
      else
        try_catch
          (ex <- accessSync (logsDirectory c) ;;
           if negb ex then mkdirSync (logsDirectory c) else ret tt)
          (ret tt)
  end.

(** [file.match(/\.(\d+)\.log$/) || file.match(/-(\d+)\.log$/)], the
    capture group [match[1]]. *)
Definition match_index (file : string) : option string :=
  match Str.regex_index "." file with
  | Some m => Some m
  | None => Str.regex_index "-" file
  end.

(** The loop of [findCurrentFileIndex] over the listing, with the running
    [maxIndex]. *)
Fixpoint scan_indices (prefix : string) (fl : list string) (maxIndex : Z)
  : Z :=
  match fl with
  | [] => maxIndex
  | file :: rest =>
      scan_indices prefix rest
        (if Str.startsWith file prefix && Str.endsWith file ".log"
            && negb (String.eqb file (prefix ++ "-latest.log"))
         then match match_index file with
              | Some m =>
                  match Str.parseInt m with
                  | Some index =>
                      if index >? maxIndex then index else maxIndex
                  | None => maxIndex
                  end
              | None => maxIndex
              end
         else maxIndex)
  end.

Definition findCurrentFileIndex : M unit :=
  cfg <- get config ;;
  match cfg with
  | None => ret tt
  | Some c =>
      maxIndex <-
        try_catch
          (fl <- listFileSync (logsDirectory c) ;;
           ret (scan_indices (logPrefix c) fl 0))
          (ret 0) ;;
      set_currentFileIndex maxIndex
  end.

Definition initCurrentLogFile : M unit :=
  cfg <- get config ;;
  match cfg with
  | None => ret tt
  | Some c =>
      set_currentLogFile
        (logsDirectory c ++ "/" ++ logPrefix c ++ "-latest.log") ;;
      cur <- get currentLogFile ;;
      try_catch
        (ex <- accessSync cur ;;
         if ex then
           st <- statSync cur ;;
           set_currentFileSize (fst st)
         else set_currentFileSize 0)
        (set_currentFileSize 0) ;;
      findCurrentFileIndex
  end.

(** The [config] object that [configure] builds: the options with the
    defaults filled in. *)
Definition resolve (options : ConfigureOptions) : InternalConfig := {|
  dailyRolling := nullish (opt_dailyRolling options) false;
  logsDirectory := nullish (opt_logsDirectory options) "";
  maximumFileSize := nullish (opt_maximumFileSize options) (1024 * 1024);
  maximumNumberOfFiles := nullish (opt_maximumNumberOfFiles options) 5;
  logPrefix := nullish (opt_logPrefix options) "app"
|}.

(** [now] is what [new Date()] gives inside the call. *)
Definition configure (options : ConfigureOptions) (now : Date) : M unit :=
  set_config (Some (resolve options)) ;;
  set_currentDate (formatDate now) ;;
  set_currentFileIndex 0 ;;
  set_currentFileSize 0 ;;
  ensureLogsDirectory ;;
  initCurrentLogFile.

(** An [InternalConfig] passed where [ConfigureOptions] is expected. *)
Definition as_options (c : InternalConfig) : ConfigureOptions :=
  mkOptions (Some (dailyRolling c)) (Some (logsDirectory c))
            (Some (maximumFileSize c)) (Some (maximumNumberOfFiles c))
            (Some (logPrefix c)).

Definition reconfigure (now : Date) : M unit :=
  cfg <- get config ;;
  match cfg with
  | Some c => configure (as_options c) now
  | None => ret tt
  end.

(** The loop of [getLogFiles] over the listing. *)
Fixpoint push_log_files (dir : string) (fl : list string) : list string :=
  match fl with
  | [] => []
  | file :: rest =>
      if Str.endsWith file ".log"
      then (dir ++ "/" ++ file) :: push_log_files dir rest
      else push_log_files dir rest
  end.

Definition getLogFiles : M (list string) :=
  cfg <- get config ;;
  match cfg with
  | None => ret []
  | Some c =>
      let dir := logsDirectory c in
      try_catch
        (ex <- accessSync dir ;;
         if negb ex then ret []
         else
           fl <- listFileSync dir ;;
           ret (push_log_files dir fl))
        (ret [])
  end.

(** [for (const file of files) fs.unlinkSync(file)] *)
Fixpoint unlink_each (fl : list string) : M unit :=
  match fl with
  | [] => ret tt
  | file :: rest => unlinkSync file ;; unlink_each rest
  end.

Definition deleteLogFiles (now : Date) : M bool :=
  fl <- getLogFiles ;;
  try_catch
    (unlink_each fl ;;
     reconfigure now ;;
     ret true)
    (ret false).

Definition writeToFile (content : string) : M unit :=
  cfg <- get config ;;
  cur <- get currentLogFile ;;
  match cfg with
  | None => ret tt
  | Some _ =>
      if String.eqb cur "" then ret tt
      else
        try_catch
          (fd <- openSync cur ;;
           writeSync fd (Str.TextEncoder_encodeInto content) ;;
           closeSync fd ;;
           size <- get currentFileSize ;;
           set_currentFileSize (size + Z.of_nat (String.length content)))
          (ret tt)
  end.

(** The first loop of [cleanupOldLogFiles]: the modification time of every
    path that does not end in [-latest.log]. *)
Fixpoint collect_stats (fl : list string) (fileStats : list (string * Z))
  : M (list (string * Z)) :=
  match fl with
  | [] => ret fileStats
  | file :: rest =>
      if negb (Str.endsWith file "-latest.log") then
        fileStats' <-
          try_catch
            (st <- statSync file ;;
             ret (fileStats ++ [(file, snd st)])%list)
            (ret fileStats) ;;
        collect_stats rest fileStats'
      else collect_stats rest fileStats
  end.

(** [fileStats.sort((a, b) => a.mtime - b.mtime)]: a stable sort,
    ascending by [mtime]. *)
Fixpoint insert_by_mtime (x : string * Z) (l : list (string * Z))
  : list (string * Z) :=
  match l with
  | [] => [x]
  | y :: l' =>
      if snd x <=? snd y then x :: y :: l' else y :: insert_by_mtime x l'
  end.

Fixpoint sort_by_mtime (l : list (string * Z)) : list (string * Z) :=
  match l with
  | [] => []
  | x :: l' => insert_by_mtime x (sort_by_mtime l')
  end.

(** [while (fileStats.length >= max) { oldest = fileStats.shift(); ... }].
    On an empty array [shift()] gives [undefined], the body does nothing,
    and with [max <= 0] the condition holds again: the loop never ends. *)
Fixpoint delete_oldest (maxFiles : Z) (fileStats : list (string * Z))
  : M unit :=
  match fileStats with
  | [] => if 0 >=? maxFiles then loops_forever else ret tt
  | oldest :: rest =>
      if Z.of_nat (length fileStats) >=? maxFiles then
        try_catch (unlinkSync (fst oldest)) (ret tt) ;;
        delete_oldest maxFiles rest
      else ret tt
  end.

Definition cleanupOldLogFiles : M unit :=
  cfg <- get config ;;
  match cfg with
  | None => ret tt
  | Some c =>
      fl <- getLogFiles ;;
      fileStats <- collect_stats fl [] ;;
      delete_oldest (maximumNumberOfFiles c) (sort_by_mtime fileStats)
  end.

Definition rotateLogFile : M unit :=
  cfg <- get config ;;
  match cfg with
  | None => ret tt
  | Some c =>
      let dir := logsDirectory c in
      let prefix := logPrefix c in
      try_catch
        (index <- get currentFileIndex ;;
         set_currentFileIndex (index + 1) ;;
         date <- get currentDate ;;
         index <- get currentFileIndex ;;
         let newFileName :=
           if dailyRolling c
           then dir ++ "/" ++ prefix ++ "-" ++ date ++ "."
                    ++ Str.of_number index ++ ".log"
           else dir ++ "/" ++ prefix ++ "-" ++ Str.of_number index ++ ".log" in
         cur <- get currentLogFile ;;
         ex <- accessSync cur ;;
         (if ex then renameSync cur newFileName else ret tt) ;;
         set_currentFileSize 0 ;;
         cleanupOldLogFiles)
        (ret tt)
  end.

Definition checkAndRotate (now : Date) : M unit :=
  cfg <- get config ;;
  match cfg with
  | None => ret tt
  | Some c =>
      let today := formatDate now in
      date <- get currentDate ;;
      let daily := dailyRolling c && negb (String.eqb today date) in
      (if daily then set_currentDate today else ret tt) ;;
      size <- get currentFileSize ;;
      let needsRotation :=
        daily || ((maximumFileSize c >? 0) && (size >=? maximumFileSize c)) in
      if needsRotation then rotateLogFile else ret tt
  end.

(** [write(level, message)]; [now] is the clock read by [checkAndRotate],
    [stamp] the one read for the time stamp of the entry. *)
Definition logEntry (level : LogLevel) (message : string) (stamp : Date)
  : string :=
  formatTimestamp stamp ++ " " ++ getLevelString level ++ " " ++ message
    ++ String (ascii_of_nat 10) "".

Definition write (level : LogLevel) (message : string) (now stamp : Date)
  : M unit :=
  cfg <- get config ;;
  match cfg with
  | None => ret tt
  | Some _ =>
      checkAndRotate now ;;
      writeToFile (logEntry level message stamp)
  end.

(** [d], [i], [w], [e]: the message is prefixed with the tag; the copy that
    goes to [hilog] is left out. *)
Module Tagged.

Definition d (tag message : string) (now stamp : Date) : M unit :=
  write Debug (tag ++ ": " ++ message) now stamp.
Definition i (tag message : string) (now stamp : Date) : M unit :=
  write Info (tag ++ ": " ++ message) now stamp.
Definition w (tag message : string) (now stamp : Date) : M unit :=
  write Warning (tag ++ ": " ++ message) now stamp.
Definition e (tag message : string) (now stamp : Date) : M unit :=
  write Error (tag ++ ": " ++ message) now stamp.

End Tagged.

Definition isConfigured : M bool :=
  cfg <- get config ;;
  ret (match cfg with Some _ => true | None => false end).

Definition getConfig : M (option InternalConfig) := get config.

(** * Specification

    ** Definitions that follow the words of the specification

    The theorems compare them with the methods above. *)

(** The rotation decision: daily rolling is on and the date has changed, or
    a positive size limit has been reached. *)
Definition rotation_needed (c : InternalConfig) (t : TurboLog)
  (today : string) : bool :=
  (dailyRolling c && negb (String.eqb today (currentDate t)))
  || ((0 <? maximumFileSize c) && (maximumFileSize c <=? currentFileSize t)).

(** The name of the live file and of a rotated file. *)
Definition liveFileName (prefix : string) : string := prefix ++ "-latest.log".

Definition rotatedFileName (prefix : string) (index : Z) (dateStamp : string)
  (daily : bool) : string :=
  if daily
  then prefix ++ "-" ++ dateStamp ++ "." ++ Str.of_number index ++ ".log"
  else prefix ++ "-" ++ Str.of_number index ++ ".log".

(** The index read back from a directory entry: defined for an entry that
    starts with the prefix, ends in [.log], is not the live file, and ends
    in [.digits.log] or [-digits.log]. *)
Definition parseIndex (prefix filename : string) : option Z :=
  if Str.startsWith filename prefix && Str.endsWith filename ".log"
     && negb (String.eqb filename (liveFileName prefix))
  then match match_index filename with
       | Some m => Str.parseInt m
       | None => None
       end
  else None.

(** The largest index found among the entries, 0 when there is none. *)
Fixpoint max_parsed_index (prefix : string) (names : list string) : Z :=
  match names with
  | [] => 0
  | n :: rest =>
      match parseIndex prefix n with
      | Some i => Z.max i (max_parsed_index prefix rest)
      | None => max_parsed_index prefix rest
      end
  end.

(** The path of the live file, and a logger that [configure] has set up for
    the configuration [c]. *)
Definition live_path (c : InternalConfig) : string :=
  logsDirectory c ++ "/" ++ liveFileName (logPrefix c).

Definition configured (c : InternalConfig) (s : State) : Prop :=
  config (logger s) = Some c /\ currentLogFile (logger s) = live_path c.

(** The static fields once the date check of a write has run. *)
Definition dated (today : string) (c : InternalConfig) (t : TurboLog)
  : TurboLog :=
  if dailyRolling c && negb (String.eqb today (currentDate t))
  then with_currentDate today t else t.

(** The path that the next rotation renames the live file to. *)
Definition rotated_path (c : InternalConfig) (t : TurboLog) : string :=
  logsDirectory c ++ "/" ++
  rotatedFileName (logPrefix c) (currentFileIndex t + 1) (currentDate t)
                  (dailyRolling c).

(** How many entries the retention loop takes from the front of a sorted
    list of [n]: all but [maxFiles - 1]. *)
Definition victim_count (maxFiles : Z) (n : nat) : nat :=
  Z.to_nat (Z.of_nat n - maxFiles + 1).


(** The files that are left when every path of [ps] is unlinked. *)
Definition remove_all (ps : list string) (fl : list (string * File))
  : list (string * File) :=
  fold_left (fun acc p => Fs.remove p acc) ps fl.

(** ** Observing a run *)

(** The events that a run from [s] to [s'] adds to the trace. *)
Definition events (s s' : State) (evs : list (FsCall * bool)) : Prop :=
  trace (store s') = (trace (store s) ++ evs)%list.

(** The environment of the file store never changes. *)
Definition same_env (s s' : State) : Prop :=
  faults (store s') = faults (store s) /\ mclock (store s') = mclock (store s).

Definition same_disk (s s' : State) : Prop :=
  dirs (store s') = dirs (store s) /\ files (store s') = files (store s).

(** A run that leaves the static fields alone. *)
Definition frame (s s' : State) (evs : list (FsCall * bool)) : Prop :=
  logger s' = logger s /\ same_env s s' /\ events s s' evs.

Definition paths_of (s : State) : list string := map fst (files (store s)).

Definition is_rename (e : FsCall * bool) : bool :=
  match fst e with RenameSync _ _ => true | _ => false end.

(** Calls that only look at the store. *)
Definition is_query (e : FsCall * bool) : bool :=
  match fst e with
  | AccessSync _ | ListFileSync _ | StatSync _ => true
  | _ => false
  end.

Definition collects_only (evs : list (FsCall * bool)) : Prop :=
  forall e, In e evs -> is_query e = true.

(** The calls of one append to [p]. *)
Definition is_append_call (p : string) (e : FsCall * bool) : bool :=
  match fst e with
  | OpenSync q | WriteSync q _ | CloseSync q => String.eqb q p
  | _ => false
  end.

Definition unlinked (ps : list string) : list (FsCall * bool) :=
  map (fun p => (UnlinkSync p, true)) ps.

(** Faults that do not depend on the moment of the call. *)
Definition steady (s : State) : Prop :=
  forall t t' c, faults (store s) t c = faults (store s) t' c.

(** ** What the methods establish *)

(** [cleanupOldLogFiles]: the calls [evs0] that collect [stats], then the
    calls [evs1] that unlink the oldest entries. *)
Definition cleanup_post (c : InternalConfig) (s s' : State) : Prop :=
  exists evs0 stats evs1,
    frame s s' (evs0 ++ evs1)
    /\ dirs (store s') = dirs (store s)
    /\ collects_only evs0
    /\ (forall p m, In (p, m) stats ->
          exists name f,
            p = logsDirectory c ++ "/" ++ name
            /\ In name (Fs.names_in (logsDirectory c) (files (store s)))
            /\ Str.endsWith name ".log" = true
            /\ Str.endsWith p "-latest.log" = false
            /\ In (StatSync p, true) evs0
            /\ Fs.lookup p (files (store s)) = Some f /\ m = f_mtime f)
    /\ (forall name,
          In name (Fs.names_in (logsDirectory c) (files (store s))) ->
          Str.endsWith name ".log" = true ->
          Str.endsWith (logsDirectory c ++ "/" ++ name) "-latest.log"
            = false ->
          In (ListFileSync (logsDirectory c), true) evs0 ->
          In (StatSync (logsDirectory c ++ "/" ++ name), true) evs0 ->
          In (logsDirectory c ++ "/" ++ name) (map fst stats))
    /\ map fst evs1 =
       map (fun x => UnlinkSync (fst x))
           (firstn (victim_count (maximumNumberOfFiles c) (length stats))
                   (sort_by_mtime stats))
    /\ (forall p, In p (paths_of s') <->
                  In p (paths_of s) /\ ~ In (UnlinkSync p, true) evs1)
    /\ incl (files (store s')) (files (store s))
    /\ 1 <= maximumNumberOfFiles c.

Definition bumped (t : TurboLog) : TurboLog :=
  with_currentFileIndex (currentFileIndex t + 1) t.

(** The files after a rename that did not throw. *)
Definition renamed (a b : string) (fl : list (string * File)) :=
  if String.eqb a b then fl else Fs.rename_in a b (Fs.remove b fl).

(** [rotateLogFile]: either the [catch] block ran, after the access check or
    the rename threw, or the [try] block ran to its end. *)
Definition rotate_post (c : InternalConfig) (s s' : State) : Prop :=
  let cur := currentLogFile (logger s) in
  let new := rotated_path c (logger s) in
  (logger s' = bumped (logger s) /\ same_disk s s' /\ same_env s s'
   /\ (events s s' [(AccessSync cur, false)]
       \/ events s s' [(AccessSync cur, true); (RenameSync cur new, false)]))
  \/
  (exists s1 pre,
      logger s1 = with_currentFileSize 0 (bumped (logger s))
      /\ same_env s s1 /\ dirs (store s1) = dirs (store s)
      /\ events s s1 pre
      /\ ((pre = [(AccessSync cur, true)]
           /\ files (store s1) = files (store s))
          \/ (pre = [(AccessSync cur, true); (RenameSync cur new, true)]
              /\ Fs.is_file cur (files (store s)) = true
              /\ files (store s1) = renamed cur new (files (store s))))
      /\ cleanup_post c s1 s').

(** What the events of a rotation look like. *)
Definition rotation_events (cur new : string) (evs : list (FsCall * bool))
  : Prop :=
  exists pre rest,
    evs = (pre ++ rest)%list
    /\ (pre = [(AccessSync cur, false)]
        \/ pre = [(AccessSync cur, true)]
        \/ exists ok, pre = [(AccessSync cur, true); (RenameSync cur new, ok)])
    /\ (forall e, In e rest ->
          is_query e = true \/ exists p, fst e = UnlinkSync p).

(** [writeToFile]: the three calls of the append all returned and the size
    counter grew, or one of them threw and the static fields are as
    before. *)
Definition append_post (content : string) (s s' : State) : Prop :=
  let cur := currentLogFile (logger s) in
  let bytes := Str.TextEncoder_encodeInto content in
  same_env s s' /\ dirs (store s') = dirs (store s)
  /\ (forall p, In p (paths_of s') -> In p (paths_of s) \/ p = cur)
  /\ (forall p, In p (paths_of s) -> In p (paths_of s'))
  /\ ((events s s' [(OpenSync cur, true); (WriteSync cur bytes, true);
                    (CloseSync cur, true)]
       /\ logger s' =
          with_currentFileSize
            (currentFileSize (logger s) + Z.of_nat (String.length content))
            (logger s))
      \/ (logger s' = logger s
          /\ (events s s' [(OpenSync cur, false)]
              \/ events s s' [(OpenSync cur, true); (WriteSync cur bytes, false)]
              \/ events s s' [(OpenSync cur, true); (WriteSync cur bytes, true);
                              (CloseSync cur, false)]))).

(** The calls that recovery makes: for the directory, for the size of the
    live file, for the listing. *)
Definition ensure_events (dir : string) (evs : list (FsCall * bool)) : Prop :=
  evs = [] \/ (exists ok, evs = [(AccessSync dir, ok)])
  \/ (exists ok, evs = [(AccessSync dir, true); (MkdirSync dir, ok)]).

Definition size_events (live : string) (fl : list (string * File)) (size : Z)
  (evs : list (FsCall * bool)) : Prop :=
  (exists f, evs = [(AccessSync live, true); (StatSync live, true)]
             /\ Fs.lookup live fl = Some f /\ size = f_size f)
  \/ (size = 0
      /\ ((exists ok, evs = [(AccessSync live, ok)])
          \/ evs = [(AccessSync live, true); (StatSync live, false)])).

Definition index_events (dir prefix : string) (fl : list (string * File))
  (index : Z) (evs : list (FsCall * bool)) : Prop :=
  (evs = [(ListFileSync dir, true)]
   /\ index = max_parsed_index prefix (Fs.names_in dir fl))
  \/ (evs = [(ListFileSync dir, false)] /\ index = 0).

(** What recovery computes when the faults are the fixed set [f]. *)
Definition ensured_dirs (f : FsCall -> bool) (c : InternalConfig)
  (ds : list string) (fl : list (string * File)) : list string :=
  let dir := logsDirectory c in
  if String.eqb dir "" then ds
  else if f (AccessSync dir) then ds
  else if Fs.is_file dir fl || Fs.is_dir dir ds then ds
  else if f (MkdirSync dir) then ds
  else (ds ++ [dir])%list.

Definition recovered_size (f : FsCall -> bool) (c : InternalConfig)
  (ds : list string) (fl : list (string * File)) : Z :=
  let live := live_path c in
  if f (AccessSync live) then 0
  else if Fs.is_file live fl || Fs.is_dir live ds then
    if f (StatSync live) then 0
    else match Fs.lookup live fl with Some x => f_size x | None => 0 end
  else 0.

Definition recovered_index (f : FsCall -> bool) (c : InternalConfig)
  (ds : list string) (fl : list (string * File)) : Z :=
  let dir := logsDirectory c in
  if f (ListFileSync dir) then 0
  else if Fs.is_dir dir ds
       then scan_indices (logPrefix c) (Fs.names_in dir fl) 0
       else 0.

(** ** The invariant behind the names of rotated files *)




(** ** Outcomes as predicates *)

Definition wp {A} (m : M A) (Q : A -> State -> Prop) (T : State -> Prop)
  (D : Prop) (s : State) : Prop :=
  match m s with
  | Returns a s' => Q a s'
  | Throws s' => T s'
  | Diverges => D
  end.

(** ** Concrete stores and runs *)

Module Examples.

Definition after {A} (m : M A) (s : State) : State :=
  match m s with
  | Returns _ s' => s'
  | Throws s' => s'
  | Diverges => s
  end.

Definition no_faults : nat -> FsCall -> bool := fun _ _ => false.

Definition rename_fails : nat -> FsCall -> bool :=
  fun _ c => match c with RenameSync _ _ => true | _ => false end.

(** Only the rename to [t-1.log] throws. *)
Definition first_rename_fails : nat -> FsCall -> bool :=
  fun _ c =>
    match c with
    | RenameSync _ b => String.eqb b "/logs/t-1.log"
    | _ => false
    end.

Definition day1 : Date := mkDate 2024 0 5 9 3 7 42.
Definition day2 : Date := mkDate 2024 0 6 9 3 7 42.

Definition options_t : ConfigureOptions :=
  mkOptions (Some false) (Some "/logs") (Some 50) (Some 2) (Some "t").

Definition config_t : InternalConfig := mkConfig false "/logs" 50 2 "t".

(** An existing, empty logs directory and a logger not yet configured. *)
Definition fresh (f : nat -> FsCall -> bool) : State :=
  mkState TurboLog_initial (mkStore ["/logs"] [] 0 f Z.of_nat []).

Definition ready f : State := after (configure options_t day1) (fresh f).
Definition one_entry f : State :=
  after (write Info "aaaaa" day1 day1) (ready f).
Definition two_entries f : State :=
  after (write Info "aaaaa" day1 day1) (one_entry f).
Definition four_entries f : State :=
  after (write Info "aaaaa" day1 day1)
    (after (write Info "aaaaa" day1 day1) (two_entries f)).

(** U+00E9, one UTF-16 code unit, two bytes in UTF-8. *)
Definition e_acute : string := String (ascii_of_nat 233) "".

(** A configured logger on an empty directory, and after one entry. *)
Definition empty_log : State := Eval vm_compute in ready no_faults.

(** A live file of 72 bytes under a limit of 50, and the same where every
    rename throws. *)
Definition full_log : State := Eval vm_compute in two_entries no_faults.
Definition jammed_log : State := Eval vm_compute in two_entries rename_fails.
Definition jammed_checked : State :=
  Eval vm_compute in after (checkAndRotate day1) jammed_log.

(** A third entry makes the live file rotate to [t-1.log]; then the logger
    is restarted. *)
Definition rotated_log : State :=
  Eval vm_compute in after (write Info "aaaaa" day1 day1) full_log.
Definition restarted_log : State :=
  Eval vm_compute in after (reconfigure day2) rotated_log.

Definition bytes_of (n : nat) : list Byte.byte := repeat Byte.x61 n.

(** The directory of [full_log] with a rotated file, a file and a live file
    of another prefix, and a file that is no log. *)
Definition crowded_log : State :=
  mkState (logger full_log)
    (mkStore ["/logs"]
       [("/logs/t-latest.log", mkFile (bytes_of 72) 9);
        ("/logs/t-1.log", mkFile (bytes_of 60) 3);
        ("/logs/other-7.log", mkFile (bytes_of 10) 1);
        ("/logs/other-latest.log", mkFile (bytes_of 10) 0);
        ("/logs/notes.txt", mkFile (bytes_of 5) 2)]
       0 no_faults Z.of_nat []).

End Examples.

Import Examples.

(** ** Dates of the calendar *)

(** The ranges of the getters of a [Date] from year 0 on. *)
Definition valid_date (d : Date) : Prop :=
  0 <= getFullYear d /\ 0 <= getMonth d <= 11 /\ 1 <= getDate d <= 31.

Definition valid_time (d : Date) : Prop :=
  0 <= getHours d <= 23 /\ 0 <= getMinutes d <= 59
  /\ 0 <= getSeconds d <= 59 /\ 0 <= getMilliseconds d <= 999.

Definition same_day (a b : Date) : Prop :=
  getFullYear a = getFullYear b /\ getMonth a = getMonth b
  /\ getDate a = getDate b.

(** What a file holds; nothing when there is no such file. *)
Definition data_at (p : string) (fl : list (string * File)) : list Byte.byte :=
  match Fs.lookup p fl with
  | Some f => f_data f
  | None => []
  end.

(** A logger with daily rolling, configured on the empty directory. *)
Definition daily_config : InternalConfig := mkConfig true "/logs" 50 2 "t".

Definition daily_log : State :=
  Eval vm_compute in
    Examples.after (configure (as_options daily_config) Examples.day1)
      (Examples.fresh Examples.no_faults).

(** A logger whose [maximumNumberOfFiles] is 0. *)
Definition no_budget_config : InternalConfig := mkConfig false "/logs" 50 0 "t".

Definition no_budget_log : State :=
  Eval vm_compute in
    Examples.after (configure (as_options no_budget_config) Examples.day1)
      (Examples.fresh Examples.no_faults).

(** The crowded directory after [deleteLogFiles]. *)
Definition emptied_log : State :=
  Eval vm_compute in
    Examples.after (deleteLogFiles Examples.day2) Examples.crowded_log.

(** ** The bridge module [TurboLogModule] *)

Module TurboLogModule.

(** The options as they arrive from JavaScript; a field that is missing is
    [None]. *)
Record JSConfigureOptions := mkJSOptions {
  js_dailyRolling : option bool;
  js_maximumFileSize : option Z;
  js_maximumNumberOfFiles : option Z;
  js_logsDirectory : option string
}.

(** [cacheDir] is what reading [this.ctx.uiAbilityContext.cacheDir] gives,
    [None] when it throws. *)
Definition configure (options : JSConfigureOptions) (cacheDir : option string)
  (now : Date) : M unit :=
  let fromContext :=
    match cacheDir with
    | Some d => d
    | None => "/data/storage/el2/base/cache"
    end in
  let logsDirectory :=
    match js_logsDirectory options with
    | Some d => if String.eqb d "" then fromContext else d
    | None => fromContext
    end in
  configure
    (mkOptions (js_dailyRolling options) (Some logsDirectory)
               (js_maximumFileSize options) (js_maximumNumberOfFiles options)
               (Some "turbo-log"))
    now.

End TurboLogModule.

(** Padding to width [w] gives [w] characters that read back as [k]. *)
Definition pads_to (w : nat) (k : Z) : bool :=
  Nat.eqb (String.length (Str.padStart (Str.of_number k) w "0")) w
  && match Str.parseInt (Str.padStart (Str.of_number k) w "0") with
     | Some v => v =? k
     | None => false
     end.

(** Evaluation that leaves the operations of the file store folded. *)
Ltac fs_step :=
  cbn -[Fs.is_file Fs.is_dir Fs.parent_exists Fs.append_to Fs.lookup
        Fs.remove Fs.rename_in Fs.names_in].

(** * Proofs *)

(** ** Rules for [wp] *)

Lemma wp_ret {A} (a : A) Q T D s : Q a s -> wp (ret a) Q T D s.
Proof. exact (fun H => H). Qed.

Lemma wp_bind {A B} (m : M A) (k : A -> M B) Q T D s :
  wp m (fun a s' => wp (k a) Q T D s') T D s -> wp (bind m k) Q T D s.
Proof. unfold wp, bind. destruct (m s); auto. Qed.

Lemma wp_try {A} (m h : M A) Q T D s :
  wp m Q (fun s' => wp h Q T D s') D s -> wp (try_catch m h) Q T D s.
Proof. unfold wp, try_catch. destruct (m s); auto. Qed.

Lemma wp_get {A} (f : TurboLog -> A) Q T D s :
  Q (f (logger s)) s -> wp (get f) Q T D s.
Proof. exact (fun H => H). Qed.

Lemma wp_modify f Q T D s :
  Q tt (mkState (f (logger s)) (store s)) -> wp (modify f) Q T D s.
Proof. exact (fun H => H). Qed.

Lemma wp_mono {A} (m : M A) (Q Q' : A -> State -> Prop)
  (T T' : State -> Prop) (D D' : Prop) s :
  wp m Q T D s ->
  (forall a s', Q a s' -> Q' a s') ->
  (forall s', T s' -> T' s') ->
  (D -> D') ->
  wp m Q' T' D' s.
Proof. unfold wp. destruct (m s); auto. Qed.

Lemma wp_fs_call {A} c (eff : FileStore -> option (A * _ * _)) Q T D s :
  (forall a ds fl,
      faults (store s) (ticks (store s)) c = false ->
      eff (store s) = Some (a, ds, fl) ->
      Q a (mkState (logger s) (Fs.commit c ds fl (store s)))) ->
  T (mkState (logger s) (Fs.record c false (store s))) ->
  wp (fs_call c eff) Q T D s.
Proof.
  intros HQ HT. unfold wp, fs_call.
  destruct (faults (store s) (ticks (store s)) c) eqn:Ef; [exact HT|].
  destruct (eff (store s)) as [[[a ds] fl]|] eqn:Ee; [|exact HT].
  apply HQ; reflexivity.
Qed.

(** ** Frames *)

Lemma frame_refl s : frame s s [].
Proof. unfold frame, same_env, events. now rewrite app_nil_r. Qed.

Lemma frame_trans s s1 s2 e1 e2 :
  frame s s1 e1 -> frame s1 s2 e2 -> frame s s2 (e1 ++ e2).
Proof.
  unfold frame, same_env, events.
  intros (L1 & (F1 & C1) & E1) (L2 & (F2 & C2) & E2).
  rewrite L2, L1, F2, F1, C2, C1, E2, E1, app_assoc. auto.
Qed.

Lemma same_disk_refl s : same_disk s s.
Proof. split; reflexivity. Qed.

Lemma same_disk_trans s s1 s2 :
  same_disk s s1 -> same_disk s1 s2 -> same_disk s s2.
Proof. unfold same_disk. intros [A B] [C D]. rewrite C, D. auto. Qed.

Lemma frame_commit s c ds fl :
  frame s (mkState (logger s) (Fs.commit c ds fl (store s))) [(c, true)].
Proof. repeat split. Qed.

Lemma frame_record s c ok :
  frame s (mkState (logger s) (Fs.record c ok (store s))) [(c, ok)].
Proof. repeat split. Qed.

(** ** The loops of retention

    [getLogFiles] makes one or two calls and returns the [.log] entries of
    the listing, or nothing when the directory is absent or a call
    throws. *)
Lemma getLogFiles_spec s c :
  config (logger s) = Some c ->
  wp getLogFiles
    (fun paths s' =>
       exists evs, frame s s' evs /\ same_disk s s'
         /\ ((paths = [] /\ ((exists ok, evs = [(AccessSync (logsDirectory c), ok)])
                            \/ evs = [(AccessSync (logsDirectory c), true);
                                      (ListFileSync (logsDirectory c), false)]))
             \/ (paths = push_log_files (logsDirectory c)
                           (Fs.names_in (logsDirectory c) (files (store s)))
                 /\ evs = [(AccessSync (logsDirectory c), true);
                           (ListFileSync (logsDirectory c), true)])))
    (fun _ => False) False s.
Proof.
  intros Hc. unfold getLogFiles. apply wp_bind, wp_get. rewrite Hc.
  apply wp_try, wp_bind. unfold accessSync. apply wp_fs_call.
  - intros a ds fl _ E. inversion E; subst; clear E.
    destruct (Fs.is_file _ _ || Fs.is_dir _ _) eqn:Ex; simpl.
    + apply wp_bind. unfold listFileSync. apply wp_fs_call.
      * intros a ds fl _ E. simpl in E.
        destruct (Fs.is_dir _ _); inversion E; subst; clear E.
        apply wp_ret. eexists. split; [|split].
        -- eapply frame_trans; [apply frame_commit|].
           apply (frame_commit (mkState _ _)).
        -- split; reflexivity.
        -- right. split; reflexivity.
      * apply wp_ret. eexists. split; [|split].
        -- eapply frame_trans; [apply frame_commit|].
           apply (frame_record (mkState _ _)).
        -- split; reflexivity.
        -- left. split; [reflexivity|]. right. reflexivity.
    + apply wp_ret. eexists. split; [|split].
      * apply frame_commit.
      * split; reflexivity.
      * left. split; [reflexivity|]. left. exists true. reflexivity.
  - apply wp_ret. eexists. split; [|split].
    + apply frame_record.
    + split; reflexivity.
    + left. split; [reflexivity|]. left. exists false. reflexivity.
Qed.

(** The first loop keeps, in order, the paths that do not end in
    [-latest.log] and whose [stat] returned. *)
Lemma collect_stats_spec fl : forall acc s,
  wp (collect_stats fl acc)
    (fun stats s' =>
       exists evs new, frame s s' evs /\ same_disk s s'
         /\ stats = (acc ++ new)%list
         /\ (forall p m, In (p, m) new ->
               In p fl /\ Str.endsWith p "-latest.log" = false
               /\ In (StatSync p, true) evs
               /\ exists f, Fs.lookup p (files (store s)) = Some f
                            /\ m = f_mtime f)
         /\ (forall p, In p fl -> Str.endsWith p "-latest.log" = false ->
               In (StatSync p, true) evs -> In p (map fst new))
         /\ (forall e, In e evs ->
               exists p, fst e = StatSync p /\ In p fl
                         /\ Str.endsWith p "-latest.log" = false)
         /\ (forall p, In p fl -> Str.endsWith p "-latest.log" = false ->
               exists ok, In (StatSync p, ok) evs))
    (fun _ => False) False s.
Proof.
  induction fl as [|file rest IH]; intros acc s; simpl.
  - apply wp_ret. exists [], []. rewrite app_nil_r.
    split; [apply frame_refl|]. split; [apply same_disk_refl|].
    split; [reflexivity|]. repeat split; intros; try contradiction.
  - destruct (Str.endsWith file "-latest.log") eqn:El; simpl.
    + eapply wp_mono; [apply IH| |easy|easy].
      intros stats s' (evs & new & Hf & Hd & Hs & H1 & H2 & H3 & H4).
      exists evs, new. repeat (split; [assumption|]).
      split; [|split; [|split]].
      * intros p m Hin. destruct (H1 p m Hin) as (A & B). auto.
      * intros p [->|Hin] Hl Hev; [congruence|]. auto.
      * intros e He. destruct (H3 e He) as (p & A & B & C). exists p. auto.
      * intros p [->|Hin] Hl; [congruence|]. auto.
    + apply wp_bind, wp_try, wp_bind. unfold statSync. apply wp_fs_call.
      * intros [sz mt] ds fl' _ E.
        destruct (Fs.lookup file (files (store s))) as [f|] eqn:Ef;
          inversion E; subst; clear E.
        apply wp_ret. simpl.
        eapply wp_mono; [apply IH| |easy|easy].
        intros stats s' (evs & new & Hf & Hd & Hs & H1 & H2 & H3 & H4).
        exists ((StatSync file, true) :: evs), ((file, f_mtime f) :: new).
        split; [exact (frame_trans _ _ _ _ _ (frame_commit _ _ _ _) Hf)|].
        split; [exact (same_disk_trans _ _ _ (conj eq_refl eq_refl) Hd)|].
        split; [rewrite Hs, <- app_assoc; reflexivity|].
        split; [|split; [|split]].
        -- intros p m [Hin|Hin].
           ++ inversion Hin; subst.
              split; [left; reflexivity|]. split; [assumption|].
              split; [left; reflexivity|]. eauto.
           ++ destruct (H1 p m Hin) as (A & B & C & D).
              split; [right; assumption|]. split; [assumption|].
              split; [right; assumption|]. exact D.
        -- intros p [->|Hin] Hl Hev; [left; reflexivity|].
           destruct Hev as [Hev|Hev]; [inversion Hev; left; reflexivity|].
           right. auto.
        -- intros e [<-|He]; [exists file; auto|].
           destruct (H3 e He) as (p & A & B & C). exists p. auto.
        -- intros p [->|Hin] Hl; [exists true; left; reflexivity|].
           destruct (H4 p Hin Hl) as [ok Hok]. exists ok. right. exact Hok.
      * apply wp_ret.
        eapply wp_mono; [apply IH| |easy|easy].
        intros stats s' (evs & new & Hf & Hd & Hs & H1 & H2 & H3 & H4).
        exists ((StatSync file, false) :: evs), new.
        split; [exact (frame_trans _ _ _ _ _ (frame_record _ _ _) Hf)|].
        split; [exact (same_disk_trans _ _ _ (conj eq_refl eq_refl) Hd)|].
        split; [exact Hs|].
        split; [|split; [|split]].
        -- intros p m Hin. destruct (H1 p m Hin) as (A & B & C & D).
           split; [right; assumption|]. split; [assumption|].
           split; [right; assumption|]. exact D.
        -- intros p Hin' Hl [Hev|Hev]; [inversion Hev|].
           destruct Hin' as [->|Hin'].
           ++ (* duplicate entry of the listing *)
              destruct (H3 _ Hev) as (q & A & B & C). simpl in A.
              inversion A; subst. auto.
           ++ auto.
        -- intros e [<-|He]; [exists file; auto|].
           destruct (H3 e He) as (p & A & B & C). exists p. auto.
        -- intros p [->|Hin] Hl; [exists false; left; reflexivity|].
           destruct (H4 p Hin Hl) as [ok Hok]. exists ok. right. exact Hok.
Qed.

Lemma in_paths_remove p x fl :
  In p (map fst (Fs.remove x fl)) <-> In p (map fst fl) /\ p <> x.
Proof.
  unfold Fs.remove. rewrite !in_map_iff. split.
  - intros ((q, f) & <- & Hin). apply filter_In in Hin as [Hin Hne].
    simpl in *. split; [exists (q, f); auto|].
    intros ->. rewrite String.eqb_refl in Hne. discriminate.
  - intros (((q, f) & <- & Hin) & Hne). exists (q, f). split; [reflexivity|].
    apply filter_In. split; [assumption|]. simpl in *.
    apply negb_true_iff, String.eqb_neq. exact Hne.
Qed.

Lemma incl_remove x fl : incl (Fs.remove x fl) fl.
Proof. intros e He. apply filter_In in He. tauto. Qed.

(** The second loop tries to unlink the first [victim_count] entries, goes
    on after an unlink that threw, and ends exactly when [maxFiles] is
    positive. *)
Lemma delete_oldest_spec maxFiles l : forall s,
  wp (delete_oldest maxFiles l)
    (fun _ s' =>
       exists evs, frame s s' evs
         /\ dirs (store s') = dirs (store s)
         /\ map fst evs =
            map (fun x => UnlinkSync (fst x))
                (firstn (victim_count maxFiles (length l)) l)
         /\ (forall p, In p (paths_of s') <->
                       In p (paths_of s) /\ ~ In (UnlinkSync p, true) evs)
         /\ incl (files (store s')) (files (store s))
         /\ 1 <= maxFiles)
    (fun _ => False) (maxFiles <= 0) s.
Proof.
  induction l as [|oldest rest IH]; intros s.
  - simpl. destruct (0 >=? maxFiles) eqn:E.
    + unfold wp, loops_forever. lia.
    + apply wp_ret. exists []. split; [apply frame_refl|].
      split; [reflexivity|]. split.
      { unfold victim_count. now rewrite firstn_nil. }
      split; [intros p; simpl; tauto|].
      split; [apply incl_refl|]. lia.
  - cbn [delete_oldest].
    destruct (Z.of_nat (length (oldest :: rest)) >=? maxFiles) eqn:E.
    + assert (Hv : victim_count maxFiles (length (oldest :: rest))
                   = S (victim_count maxFiles (length rest))).
      { unfold victim_count. cbn [length] in *.
        rewrite <- Z2Nat.inj_succ by lia. f_equal. lia. }
      rewrite Hv. cbn [firstn map].
      apply wp_bind, wp_try. unfold unlinkSync. apply wp_fs_call.
      * intros [] ds fl _ Ee.
        destruct (Fs.is_file (fst oldest) (files (store s))) eqn:Ef;
          inversion Ee; subst; clear Ee.
        eapply wp_mono; [apply IH| |easy|easy].
        intros _ s' (evs & Hf & Hd & Hm & Hp & Hi & Hn).
        exists ((UnlinkSync (fst oldest), true) :: evs).
        split; [exact (frame_trans _ _ _ _ _ (frame_commit _ _ _ _) Hf)|].
        split; [exact Hd|].
        split; [simpl; now rewrite Hm|].
        split; [|split; [|exact Hn]].
        -- intros p. rewrite Hp. unfold paths_of at 1. simpl.
           rewrite in_paths_remove. unfold paths_of. split.
           ++ intros ((A & B) & C). split; [assumption|].
              intros [Heq|Hin]; [inversion Heq; congruence|contradiction].
           ++ intros (A & B). split; [split; [assumption|]|].
              ** intros ->. apply B. left. reflexivity.
              ** intros Hin. apply B. right. assumption.
        -- eapply incl_tran; [exact Hi|]. simpl. apply incl_remove.
      * apply wp_ret.
        eapply wp_mono; [apply IH| |easy|easy].
        intros _ s' (evs & Hf & Hd & Hm & Hp & Hi & Hn).
        exists ((UnlinkSync (fst oldest), false) :: evs).
        split; [exact (frame_trans _ _ _ _ _ (frame_record _ _ _) Hf)|].
        split; [exact Hd|].
        split; [simpl; now rewrite Hm|].
        split; [|split; [exact Hi|exact Hn]].
        intros p. rewrite Hp. unfold paths_of. simpl. split.
        -- intros (A & B). split; [assumption|].
           intros [Heq|Hin]; [inversion Heq|contradiction].
        -- intros (A & B). split; [assumption|]. intros Hin. apply B. now right.
    + apply wp_ret. exists []. split; [apply frame_refl|].
      split; [reflexivity|]. split.
      { unfold victim_count. cbn [length] in *.
        replace (Z.to_nat _) with 0%nat by lia. reflexivity. }
      split; [intros p; simpl; tauto|].
      split; [apply incl_refl|]. cbn [length] in E. lia.
Qed.

(** The sort is a sort. *)
Lemma insert_by_mtime_perm x l : Permutation (x :: l) (insert_by_mtime x l).
Proof.
  induction l as [|y l IH]; simpl; [apply Permutation_refl|].
  destruct (snd x <=? snd y); [apply Permutation_refl|].
  eapply perm_trans; [apply perm_swap|]. now apply perm_skip.
Qed.

Lemma sort_by_mtime_perm l : Permutation l (sort_by_mtime l).
Proof.
  induction l as [|x l IH]; simpl; [constructor|].
  eapply perm_trans; [apply perm_skip, IH|]. apply insert_by_mtime_perm.
Qed.



Lemma in_push_log_files dir names p :
  In p (push_log_files dir names) <->
  exists name, p = dir ++ "/" ++ name /\ In name names
               /\ Str.endsWith name ".log" = true.
Proof.
  induction names as [|n names IH]; simpl.
  - split; [contradiction|]. intros (name & _ & [] & _).
  - destruct (Str.endsWith n ".log") eqn:E; simpl; rewrite IH; split.
    + intros [<-|(name & A & B & C)]; [exists n; auto|exists name; auto].
    + intros (name & A & [->|B] & C); [left; now subst|right; exists name; auto].
    + intros (name & A & B & C). exists name; auto.
    + intros (name & A & [->|B] & C); [congruence|exists name; auto].
Qed.

Lemma cleanup_spec s c :
  config (logger s) = Some c ->
  wp cleanupOldLogFiles
    (fun _ s' =>
       exists evs0 stats evs1,
         frame s s' (evs0 ++ evs1)
         /\ dirs (store s') = dirs (store s)
         /\ collects_only evs0
         /\ (forall p m, In (p, m) stats ->
               exists name f,
                 p = logsDirectory c ++ "/" ++ name
                 /\ In name (Fs.names_in (logsDirectory c) (files (store s)))
                 /\ Str.endsWith name ".log" = true
                 /\ Str.endsWith p "-latest.log" = false
                 /\ In (StatSync p, true) evs0
                 /\ Fs.lookup p (files (store s)) = Some f /\ m = f_mtime f)
         /\ (forall name,
               In name (Fs.names_in (logsDirectory c) (files (store s))) ->
               Str.endsWith name ".log" = true ->
               Str.endsWith (logsDirectory c ++ "/" ++ name) "-latest.log"
                 = false ->
               In (ListFileSync (logsDirectory c), true) evs0 ->
               In (StatSync (logsDirectory c ++ "/" ++ name), true) evs0 ->
               In (logsDirectory c ++ "/" ++ name) (map fst stats))
         /\ map fst evs1 =
            map (fun x => UnlinkSync (fst x))
                (firstn (victim_count (maximumNumberOfFiles c) (length stats))
                        (sort_by_mtime stats))
         /\ (forall p, In p (paths_of s') <->
                       In p (paths_of s) /\ ~ In (UnlinkSync p, true) evs1)
         /\ incl (files (store s')) (files (store s))
         /\ 1 <= maximumNumberOfFiles c)
    (fun _ => False) (maximumNumberOfFiles c <= 0) s.
Proof.
  intros Hc. unfold cleanupOldLogFiles. apply wp_bind, wp_get. rewrite Hc.
  apply wp_bind.
  eapply wp_mono; [apply (getLogFiles_spec s c Hc)| |easy|easy].
  intros paths s1 (evsL & HfL & HdL & Hpaths). cbv beta.
  apply wp_bind.
  eapply wp_mono; [apply collect_stats_spec| |easy|easy].
  intros stats0 s2 (evsS & stats & HfS & HdS & -> & H1 & H2 & H3 & H4).
  cbv beta. simpl app.
  eapply wp_mono; [apply delete_oldest_spec| |easy|easy].
  intros _ s' (evs1 & HfD & HdD & Hm & Hp & Hi & Hn).
  assert (Hfiles : files (store s2) = files (store s)).
  { destruct HdL as [_ A], HdS as [_ B]. now rewrite B, A. }
  assert (Hdirs : dirs (store s2) = dirs (store s)).
  { destruct HdL as [A _], HdS as [B _]. now rewrite B, A. }
  exists (evsL ++ evsS)%list, stats, evs1.
  split; [exact (frame_trans _ _ _ _ _ (frame_trans _ _ _ _ _ HfL HfS) HfD)|].
  split; [now rewrite HdD|].
  split.
  { intros e He. apply in_app_or in He as [He|He].
    - destruct Hpaths as [(_ & [[ok ->]| ->])|(_ & ->)]; simpl in He;
        repeat (destruct He as [<-|He]; [reflexivity|]); contradiction.
    - destruct (H3 e He) as (p & A & _). unfold is_query.
      rewrite A. reflexivity. }
  split.
  { intros p m Hin. destruct (H1 p m Hin) as (A & B & C & f & D & E).
    destruct Hpaths as [(-> & _)|(-> & _)]; [contradiction|].
    apply in_push_log_files in A as (name & -> & A1 & A2).
    exists name, f. destruct HdL as [_ HL]. rewrite HL in D.
    split; [reflexivity|]. split; [exact A1|]. split; [exact A2|].
    split; [exact B|]. split; [apply in_or_app; now right|].
    split; [exact D|exact E]. }
  split.
  { intros name Hin El Hl HL HS.
    assert (Hpp : paths = push_log_files (logsDirectory c)
                    (Fs.names_in (logsDirectory c) (files (store s)))).
    { destruct Hpaths as [(_ & [[ok ->]| ->])|(-> & _)]; [| |reflexivity];
        exfalso; apply in_app_or in HL as [HL|HL]; simpl in HL;
        repeat (destruct HL as [HL|HL]; [discriminate HL|]); try contradiction;
        destruct (H3 _ HL) as (p & A & _); discriminate A. }
    assert (Hpin : In (logsDirectory c ++ "/" ++ name) paths).
    { rewrite Hpp. apply in_push_log_files. exists name. auto. }
    apply H2; auto.
    apply in_app_or in HS as [HS|HS]; [|exact HS]. exfalso.
    destruct Hpaths as [(_ & [[ok ->]| ->])|(_ & ->)]; simpl in HS;
      repeat (destruct HS as [HS|HS]; [discriminate HS|]); contradiction. }
  split.
  { rewrite Hm. f_equal. f_equal. unfold victim_count. f_equal.
    now rewrite <- (Permutation_length (sort_by_mtime_perm stats)). }
  split.
  { intros p. rewrite Hp. unfold paths_of. now rewrite Hfiles. }
  split; [now rewrite <- Hfiles|exact Hn].
Qed.

(** ** Rotation and the write path *)

Lemma rotate_spec s c :
  config (logger s) = Some c ->
  wp rotateLogFile (fun _ s' => rotate_post c s s')
     (fun _ => False) (maximumNumberOfFiles c <= 0) s.
Proof.
  intros Hc. unfold rotateLogFile. apply wp_bind, wp_get. rewrite Hc.
  apply wp_try. apply wp_bind, wp_get. apply wp_bind, wp_modify.
  apply wp_bind, wp_get. apply wp_bind, wp_get. apply wp_bind, wp_get.
  cbn [logger store currentDate currentFileIndex currentLogFile
       with_currentFileIndex].
  assert (Hnew : (if dailyRolling c
     then logsDirectory c ++ "/" ++ logPrefix c ++ "-" ++
          currentDate (logger s) ++ "." ++
          Str.of_number (currentFileIndex (logger s) + 1) ++ ".log"
     else logsDirectory c ++ "/" ++ logPrefix c ++ "-" ++
          Str.of_number (currentFileIndex (logger s) + 1) ++ ".log")
    = rotated_path c (logger s)).
  { unfold rotated_path, rotatedFileName. now destruct (dailyRolling c). }
  rewrite Hnew. clear Hnew.
  apply wp_bind. unfold accessSync. apply wp_fs_call.
  - intros ex ds fl _ E. inversion E; subst; clear E.
    destruct (Fs.is_file _ _ || Fs.is_dir _ _) eqn:Ex.
    + apply wp_bind. unfold renameSync. apply wp_fs_call.
      * intros [] ds fl _ E. cbn [store Fs.commit files dirs] in E.
        destruct (Fs.is_file (currentLogFile (logger s)) (files (store s)))
          eqn:Ef; [|discriminate E].
        cbn [andb] in E.
        match type of E with
        | (if ?b then _ else _) = _ => destruct b; [|discriminate E]
        end.
        inversion E; subst; clear E.
        apply wp_bind, wp_modify.
        eapply wp_mono; [apply (cleanup_spec _ c); exact Hc| |easy|easy].
        intros u s' Hpost. right.
        eexists. eexists. split; [|split; [|split; [|split; [|split]]]].
        6: exact Hpost.
        -- reflexivity.
        -- split; reflexivity.
        -- reflexivity.
        -- unfold events. cbn. rewrite <- app_assoc. reflexivity.
        -- right. split; [reflexivity|]. split; [exact Ef|]. reflexivity.
      * unfold wp, ret. left. split; [reflexivity|].
        split; [split; reflexivity|]. split; [split; reflexivity|].
        right. unfold events. cbn. now rewrite <- app_assoc.
    + apply wp_bind, wp_ret. apply wp_bind, wp_modify.
      eapply wp_mono; [apply (cleanup_spec _ c); exact Hc| |easy|easy].
      intros u s' Hpost. right.
      eexists. eexists. split; [|split; [|split; [|split; [|split]]]].
      6: exact Hpost.
      * reflexivity.
      * split; reflexivity.
      * reflexivity.
      * unfold events. cbn. reflexivity.
      * left. split; reflexivity.
  - unfold wp, ret. left. split; [reflexivity|].
    split; [split; reflexivity|]. split; [split; reflexivity|].
    left. reflexivity.
Qed.

Lemma state_eta s : mkState (logger s) (store s) = s.
Proof. now destruct s. Qed.

(** The rotation check is [rotateLogFile], run once on the state with the
    date brought up to today, when the decision of the specification says
    so, and nothing otherwise. *)
Lemma checkAndRotate_eq s c now :
  config (logger s) = Some c ->
  checkAndRotate now s =
  if rotation_needed c (logger s) (formatDate now)
  then rotateLogFile (mkState (dated (formatDate now) c (logger s)) (store s))
  else Returns tt s.
Proof.
  intros Hc. unfold checkAndRotate, rotation_needed, dated, bind, get.
  rewrite Hc.
  destruct (dailyRolling c && negb (formatDate now =? currentDate (logger s))%string)
    eqn:Ed; cbn.
  - reflexivity.
  - rewrite Z.gtb_ltb, Z.geb_leb.
    destruct ((0 <? maximumFileSize c)
              && (maximumFileSize c <=? currentFileSize (logger s))); cbn.
    + now rewrite state_eta.
    + reflexivity.
Qed.

Lemma paths_append_to p d m fl :
  map fst (Fs.append_to p d m fl) = map fst fl.
Proof.
  induction fl as [|[q f] fl IH]; simpl; [reflexivity|].
  destruct (String.eqb q p) eqn:E; simpl; [|now rewrite IH].
  reflexivity.
Qed.

Lemma writeToFile_spec content s c :
  config (logger s) = Some c ->
  currentLogFile (logger s) <> "" ->
  wp (writeToFile content) (fun _ s' => append_post content s s')
     (fun _ => False) False s.
Proof.
  intros Hc Hcur. unfold writeToFile.
  apply wp_bind, wp_get. apply wp_bind, wp_get. rewrite Hc.
  apply String.eqb_neq in Hcur. rewrite Hcur.
  apply wp_try, wp_bind. unfold openSync. apply wp_fs_call.
  - intros fd ds fl _ E.
    assert (Hfd : fd = currentLogFile (logger s)
                  /\ ds = dirs (store s)
                  /\ (forall p, In p (map fst fl) ->
                        In p (paths_of s) \/ p = currentLogFile (logger s))
                  /\ (forall p, In p (paths_of s) -> In p (map fst fl))).
    { destruct (Fs.is_file _ _).
      - inversion E; subst. repeat split; auto.
      - destruct (Fs.is_dir _ _); [discriminate|].
        destruct (Fs.parent_exists _ _); inversion E; subst.
        repeat split; auto; intros p; rewrite map_app, in_app_iff; simpl;
          unfold paths_of; intuition. }
    destruct Hfd as (-> & -> & Hp1 & Hp2). clear E.
    apply wp_bind. unfold writeSync. apply wp_fs_call.
    + intros [] ds fl' _ E. cbn [store Fs.commit files dirs] in E.
      destruct (Fs.is_file _ fl); inversion E; subst; clear E.
      apply wp_bind. unfold closeSync. apply wp_fs_call.
      * intros [] ds fl' _ E. inversion E; subst; clear E.
        apply wp_bind, wp_get. apply wp_modify.
        split; [split; reflexivity|]. split; [reflexivity|].
        split; [|split].
        -- intros p. unfold paths_of. cbn. rewrite paths_append_to. auto.
        -- intros p. unfold paths_of at 2. cbn. rewrite paths_append_to. auto.
        -- left. split; [|reflexivity]. unfold events. cbn.
           now rewrite <- !app_assoc.
      * apply wp_ret.
        split; [split; reflexivity|]. split; [reflexivity|].
        split; [|split].
        -- intros p. unfold paths_of. cbn. rewrite paths_append_to. auto.
        -- intros p. unfold paths_of at 2. cbn. rewrite paths_append_to. auto.
        -- right. split; [reflexivity|]. right. right. unfold events. cbn.
           now rewrite <- !app_assoc.
    + apply wp_ret.
      split; [split; reflexivity|]. split; [reflexivity|].
      split; [|split].
      * intros p. unfold paths_of. cbn. auto.
      * intros p. unfold paths_of at 2. cbn. auto.
      * right. split; [reflexivity|]. right. left. unfold events. cbn.
        now rewrite <- !app_assoc.
  - apply wp_ret.
    split; [split; reflexivity|]. split; [reflexivity|].
    split; [|split]; auto.
    right. split; [reflexivity|]. left. reflexivity.
Qed.

Lemma filter_none {A} (f : A -> bool) l :
  (forall x, In x l -> f x = false) -> filter f l = [].
Proof.
  induction l as [|x l IH]; intros H; simpl; [reflexivity|].
  rewrite (H x (or_introl eq_refl)). apply IH. intros y Hy. apply H. now right.
Qed.

Lemma unlinks_only (evs : list (FsCall * bool)) (l : list (string * Z)) :
  map fst evs = map (fun x => UnlinkSync (fst x)) l ->
  forall e, In e evs -> exists p, fst e = UnlinkSync p.
Proof.
  intros Hm e He. apply (in_map fst) in He. rewrite Hm in He.
  apply in_map_iff in He as (x & Hx & _). eauto.
Qed.

Lemma events_inj s s' e1 e2 : events s s' e1 -> events s s' e2 -> e1 = e2.
Proof. unfold events. intros H1 H2. rewrite H1 in H2. now apply app_inv_head in H2. Qed.

Lemma events_trans s s1 s2 e1 e2 :
  events s s1 e1 -> events s1 s2 e2 -> events s s2 (e1 ++ e2).
Proof. unfold events. intros H1 H2. rewrite H2, H1. now rewrite app_assoc. Qed.

Lemma rotate_post_events c s s' evs :
  rotate_post c s s' -> events s s' evs ->
  rotation_events (currentLogFile (logger s)) (rotated_path c (logger s)) evs.
Proof.
  intros [(Hl & Hd & He & Hev)|(s1 & pre & Hl & He & Hd & Hpre & Hcase & Hpost)]
         Hevs.
  - exists evs, []. rewrite app_nil_r. split; [reflexivity|].
    split; [|intros e []].
    destruct Hev as [Hev|Hev]; rewrite (events_inj _ _ _ _ Hevs Hev);
      [left; reflexivity|right; right; exists false; reflexivity].
  - destruct Hpost as (e0 & st & e1 & (_ & _ & Hc) & _ & Hq & _ & _ & Hm & _).
    exists pre, (e0 ++ e1)%list.
    split; [exact (events_inj _ _ _ _ Hevs (events_trans _ _ _ _ _ Hpre Hc))|].
    split.
    + destruct Hcase as [(-> & _)|(-> & _)];
        [right; left; reflexivity|right; right; exists true; reflexivity].
    + intros e Hin. apply in_app_or in Hin as [Hin|Hin].
      * left. now apply Hq.
      * right. eapply unlinks_only; eassumption.
Qed.

Lemma rotation_events_renames cur new evs :
  rotation_events cur new evs -> (length (filter is_rename evs) <= 1)%nat.
Proof.
  intros (pre & rest & -> & Hpre & Hrest). rewrite filter_app, length_app.
  rewrite (filter_none is_rename rest).
  - destruct Hpre as [->|[->|[ok ->]]]; simpl; lia.
  - intros e He. destruct (Hrest e He) as [Hq|[p Hp]];
      unfold is_rename, is_query in *; destruct (fst e); congruence.
Qed.

Lemma rotation_events_no_append cur new p evs :
  rotation_events cur new evs ->
  Forall (fun e => is_append_call p e = false) evs.
Proof.
  intros (pre & rest & -> & Hpre & Hrest). apply Forall_app. split.
  - destruct Hpre as [->|[->|[ok ->]]]; repeat constructor.
  - apply Forall_forall. intros e He. destruct (Hrest e He) as [Hq|[q Hq]];
      unfold is_append_call, is_query in *; destruct (fst e); congruence.
Qed.

Lemma append_post_events content s s' evs :
  append_post content s s' -> events s s' evs ->
  Forall (fun e => is_append_call (currentLogFile (logger s)) e = true) evs.
Proof.
  intros (_ & _ & _ & _ & Hcase) Hevs.
  assert (Hr : is_append_call (currentLogFile (logger s))
                 (OpenSync (currentLogFile (logger s)), true) = true)
    by (unfold is_append_call; simpl; apply String.eqb_refl).
  destruct Hcase as [(He & _)|(_ & [He|[He|He]])];
    rewrite (events_inj _ _ _ _ Hevs He); repeat constructor;
    unfold is_append_call; simpl; apply String.eqb_refl.
Qed.



(** After a rename that threw, the next rotation uses the next index: the
    directory ends up with [t-2.log] and no [t-1.log]. *)
Example index_skips_after_failed_rename :
  paths_of (four_entries first_rename_fails)
  = ["/logs/t-2.log"; "/logs/t-latest.log"]
  /\ currentFileIndex (logger (four_entries first_rename_fails)) = 2.
Proof. split; vm_compute; reflexivity. Qed.

(** C1.  On a configured logger the rotation check of [write] runs
    [rotateLogFile] exactly when daily rolling is on and the date has
    changed (the stored date is then set to today first) or a positive size
    limit has been reached, and it runs it once: the index grows by one in
    that case and by nothing otherwise, at most one rename is issued, and
    the calls of the rotation all come before the calls that append the
    entry to the live file.  [write] never throws; it runs forever only
    when a rotation was due and [maximumNumberOfFiles] is not positive. *)
Theorem write_rotates_when_needed (s : State) (c : InternalConfig)
  (level : LogLevel) (message : string) (now stamp : Date) :
  configured c s ->
  checkAndRotate now s =
    (if rotation_needed c (logger s) (formatDate now)
     then rotateLogFile
            (mkState (dated (formatDate now) c (logger s)) (store s))
     else Returns tt s)
  /\ match write level message now stamp s with
     | Returns _ s' =>
         exists s1 evsR evsW,
           checkAndRotate now s = Returns tt s1
           /\ writeToFile (logEntry level message stamp) s1 = Returns tt s'
           /\ events s s1 evsR /\ events s1 s' evsW
           /\ currentFileIndex (logger s1) =
              currentFileIndex (logger s)
              + (if rotation_needed c (logger s) (formatDate now)
                 then 1 else 0)
           /\ currentDate (logger s1) =
              currentDate (dated (formatDate now) c (logger s))
           /\ (rotation_needed c (logger s) (formatDate now) = false ->
               s1 = s)
           /\ (length (filter is_rename evsR) <= 1)%nat
           /\ Forall (fun e => is_append_call (live_path c) e = false) evsR
           /\ Forall (fun e => is_append_call (live_path c) e = true) evsW
     | Throws _ => False
     | Diverges =>
         rotation_needed c (logger s) (formatDate now) = true
         /\ maximumNumberOfFiles c <= 0
     end.
Proof.
  intros [Hc Hcur].
  set (today := formatDate now).
  set (needed := rotation_needed c (logger s) today).
  pose proof (checkAndRotate_eq s c now Hc) as Heq. fold today needed in Heq.
  split; [exact Heq|].
  unfold write, bind at 1, get. rewrite Hc. unfold bind. rewrite Heq.
  assert (Hlive : live_path c <> "").
  { unfold live_path. destruct (logsDirectory c); discriminate. }
  destruct needed eqn:En.
  - set (s0 := mkState (dated today c (logger s)) (store s)).
    assert (Hc0 : config (logger s0) = Some c).
    { unfold s0, dated. cbn. now destruct (_ && _). }
    assert (Hcur0 : currentLogFile (logger s0) = live_path c).
    { unfold s0, dated. cbn. now destruct (_ && _). }
    assert (Hi0 : currentFileIndex (logger s0) = currentFileIndex (logger s)).
    { unfold s0, dated. cbn. now destruct (_ && _). }
    assert (Hl0 : logger s0 = dated today c (logger s)) by reflexivity.
    assert (Hs0 : store s0 = store s) by reflexivity.
    clearbody s0.
    pose proof (rotate_spec s0 c Hc0) as Hr. unfold wp in Hr.
    destruct (rotateLogFile s0) as [[] s1| |]; [|exact Hr|split; auto].
    assert (Hev : exists evsR, events s s1 evsR
                   /\ rotation_events (live_path c) (rotated_path c (logger s0)) evsR).
    { assert (He : exists evs, events s0 s1 evs).
      { destruct Hr as [(_ & _ & _ & [H|H])|(s2 & pre & _ & _ & _ & Hp & _ & Hpost)];
          eauto.
        destruct Hpost as (e0 & st & e1 & (_ & _ & He) & _).
        eexists. eapply events_trans; eassumption. }
      destruct He as [evs He]. exists evs.
      split; [unfold events in *; now rewrite <- Hs0|].
      rewrite <- Hcur0. eapply rotate_post_events; eassumption. }
    destruct Hev as (evsR & HevR & Hrot).
    assert (Hl1 : config (logger s1) = Some c
                  /\ currentLogFile (logger s1) = live_path c
                  /\ currentFileIndex (logger s1) = currentFileIndex (logger s) + 1
                  /\ currentDate (logger s1) = currentDate (logger s0)).
    { destruct Hr as [(Hl & _)|(s2 & pre & Hl & _ & _ & _ & _ & Hpost)].
      - rewrite Hl. cbn. rewrite Hi0. auto.
      - destruct Hpost as (e0 & st & e1 & (Hl' & _) & _). rewrite Hl', Hl. cbn.
        rewrite Hi0. auto. }
    destruct Hl1 as (Hc1 & Hcur1 & Hi1 & Hd1).
    assert (Hne1 : currentLogFile (logger s1) <> "") by now rewrite Hcur1.
    pose proof (writeToFile_spec (logEntry level message stamp) s1 c Hc1 Hne1)
      as Hw. unfold wp in Hw.
    destruct (writeToFile _ s1) as [[] s'| |] eqn:Ew; [|exact Hw|destruct Hw].
    assert (HevW : exists evsW, events s1 s' evsW).
    { destruct Hw as (_ & _ & _ & _ & [(H & _)|(_ & [H|[H|H]])]); eauto. }
    destruct HevW as [evsW HevW].
    exists s1, evsR, evsW. split; [reflexivity|]. split; [exact Ew|].
    split; [exact HevR|]. split; [exact HevW|]. split; [exact Hi1|].
    split; [now rewrite Hd1, Hl0|]. split; [discriminate|].
    split; [eapply rotation_events_renames; eassumption|].
    split; [eapply rotation_events_no_append; eassumption|].
    rewrite <- Hcur1. eapply append_post_events; eassumption.
  - assert (Hne : currentLogFile (logger s) <> "") by now rewrite Hcur.
    pose proof (writeToFile_spec (logEntry level message stamp) s c Hc Hne)
      as Hw. unfold wp in Hw.
    destruct (writeToFile _ s) as [[] s'| |] eqn:Ew; [|exact Hw|destruct Hw].
    assert (HevW : exists evsW, events s s' evsW).
    { destruct Hw as (_ & _ & _ & _ & [(H & _)|(_ & [H|[H|H]])]); eauto. }
    destruct HevW as [evsW HevW].
    exists s, [], evsW. split; [reflexivity|]. split; [exact Ew|].
    split; [unfold events; now rewrite app_nil_r|]. split; [exact HevW|].
    split; [lia|]. split.
    { unfold dated. unfold needed, rotation_needed in En.
      apply orb_false_iff in En as [-> _]. reflexivity. }
    split; [reflexivity|]. split; [simpl; lia|]. split; [constructor|].
    rewrite <- Hcur. eapply append_post_events; eassumption.
Qed.

Lemma events_nil s : events s s [].
Proof. unfold events. now rewrite app_nil_r. Qed.

Lemma no_failed_rename_after_cleanup c s1 s' pre cur new a b evs :
  cleanup_post c s1 s' ->
  (pre = [(AccessSync cur, true)]
   \/ pre = [(AccessSync cur, true); (RenameSync cur new, true)]) ->
  events s1 s' evs ->
  ~ In (RenameSync a b, false) (pre ++ evs).
Proof.
  intros (e0 & st & e1 & (_ & _ & Hc) & _ & Hq & _ & _ & Hm & _) Hpre Hev Hin.
  rewrite (events_inj _ _ _ _ Hev Hc) in Hin.
  apply in_app_or in Hin as [Hin|Hin].
  - destruct Hpre as [->| ->]; simpl in Hin;
      repeat (destruct Hin as [Hin|Hin]; [discriminate Hin|]); contradiction.
  - apply in_app_or in Hin as [Hin|Hin].
    + specialize (Hq _ Hin). discriminate Hq.
    + destruct (unlinks_only _ _ Hm _ Hin) as [p Hp]. discriminate Hp.
Qed.

(** C6, as amended.  When the rotation check of a write issues a rename and
    the rename throws, nothing else of the rotation happens: the size
    counter keeps its value (it is not reset), the index has grown by one,
    the files are as they were and retention is not run.  The write goes
    on: it returns, and the calls it makes next are the calls of the append
    on the live path. *)
Theorem failed_rename_keeps_size (s s1 : State) (c : InternalConfig)
  (level : LogLevel) (message : string) (now stamp : Date)
  (evsR : list (FsCall * bool)) (a b : string) :
  configured c s ->
  checkAndRotate now s = Returns tt s1 ->
  events s s1 evsR ->
  In (RenameSync a b, false) evsR ->
  a = live_path c
  /\ b = rotated_path c (dated (formatDate now) c (logger s))
  /\ evsR = [(AccessSync a, true); (RenameSync a b, false)]
  /\ currentFileSize (logger s1) = currentFileSize (logger s)
  /\ currentFileIndex (logger s1) = currentFileIndex (logger s) + 1
  /\ files (store s1) = files (store s)
  /\ exists s' evsW,
       write level message now stamp s = Returns tt s'
       /\ events s1 s' evsW
       /\ evsW <> []
       /\ Forall (fun e => is_append_call (live_path c) e = true) evsW.
Proof.
  intros [Hc Hcur] Hrun Hev Hin.
  pose proof (checkAndRotate_eq s c now Hc) as Heq. rewrite Hrun in Heq.
  destruct (rotation_needed c (logger s) (formatDate now)) eqn:En.
  2:{ inversion Heq as [Hs]. rewrite Hs in Hev.
      rewrite (events_inj _ _ _ _ Hev (events_nil s)) in Hin. contradiction. }
  set (s0 := mkState (dated (formatDate now) c (logger s)) (store s)) in *.
  assert (Hc0 : config (logger s0) = Some c).
  { unfold s0, dated. cbn. now destruct (_ && _). }
  assert (Hcur0 : currentLogFile (logger s0) = live_path c).
  { unfold s0, dated. cbn. now destruct (_ && _). }
  assert (Hi0 : currentFileIndex (logger s0) = currentFileIndex (logger s)).
  { unfold s0, dated. cbn. now destruct (_ && _). }
  assert (Hz0 : currentFileSize (logger s0) = currentFileSize (logger s)).
  { unfold s0, dated. cbn. now destruct (_ && _). }
  assert (Hl0 : logger s0 = dated (formatDate now) c (logger s)) by reflexivity.
  assert (Hs0 : store s0 = store s) by reflexivity.
  clearbody s0.
  assert (Hev0 : events s0 s1 evsR) by (unfold events in *; now rewrite Hs0).
  pose proof (rotate_spec s0 c Hc0) as Hr. unfold wp in Hr.
  rewrite <- Heq in Hr.
  destruct Hr as [(Hl & Hd & He & Hcase)|(s2 & pre & Hl & _ & _ & Hp & Hcase & Hpost)].
  - destruct Hcase as [H|H]; rewrite (events_inj _ _ _ _ Hev0 H) in Hin |- *;
      simpl in Hin.
    + destruct Hin as [Hin|[]]. discriminate Hin.
    + destruct Hin as [Hin|[Hin|[]]]; [discriminate Hin|].
      inversion Hin; subst a b. clear Hin.
      assert (Hc1 : config (logger s1) = Some c) by now rewrite Hl.
      assert (Hcur1 : currentLogFile (logger s1) = live_path c)
        by now rewrite Hl.
      split; [exact Hcur0|]. split; [now rewrite Hl0|].
      split; [reflexivity|].
      split; [now rewrite Hl|]. split; [rewrite Hl; cbn; now rewrite Hi0|].
      split; [destruct Hd as [_ Hd]; now rewrite Hd, Hs0|].
      assert (Hne1 : currentLogFile (logger s1) <> "").
      { rewrite Hcur1. unfold live_path. destruct (logsDirectory c); discriminate. }
      pose proof (writeToFile_spec (logEntry level message stamp) s1 c Hc1 Hne1)
        as Hw. unfold wp in Hw.
      unfold write, bind at 1, get. rewrite Hc. unfold bind. rewrite Hrun.
      destruct (writeToFile _ s1) as [[] s'| |] eqn:Ew; [|destruct Hw|destruct Hw].
      assert (HevW : exists evsW, events s1 s' evsW /\ evsW <> []).
      { destruct Hw as (_ & _ & _ & _ & [(H' & _)|(_ & [H'|[H'|H']])]);
          eexists; (split; [exact H'|discriminate]). }
      destruct HevW as (evsW & HevW & Hnil).
      exists s', evsW. split; [reflexivity|]. split; [exact HevW|].
      split; [exact Hnil|].
      rewrite <- Hcur1. eapply append_post_events; eassumption.
  - exfalso.
    assert (He2 : exists evs, events s2 s1 evs).
    { destruct Hpost as (e0 & st & e1 & (_ & _ & He) & _). eauto. }
    destruct He2 as [evs He2].
    rewrite (events_inj _ _ _ _ Hev0 (events_trans _ _ _ _ _ Hp He2)) in Hin.
    eapply no_failed_rename_after_cleanup; [exact Hpost| |exact He2|exact Hin].
    destruct Hcase as [(-> & _)|(-> & _)]; [left|right]; reflexivity.
Qed.

Lemma failed_rename_keeps_size_witness :
  (configured config_t jammed_log
   /\ checkAndRotate day1 jammed_log = Returns tt jammed_checked
   /\ events jammed_log jammed_checked
        [(AccessSync "/logs/t-latest.log", true);
         (RenameSync "/logs/t-latest.log" "/logs/t-1.log", false)]
   /\ In (RenameSync "/logs/t-latest.log" "/logs/t-1.log", false)
        [(AccessSync "/logs/t-latest.log", true);
         (RenameSync "/logs/t-latest.log" "/logs/t-1.log", false)])
  /\ currentFileSize (logger jammed_checked)
     = currentFileSize (logger jammed_log).
Proof.
  assert (H1 : configured config_t jammed_log)
    by (split; vm_compute; reflexivity).
  assert (H2 : checkAndRotate day1 jammed_log = Returns tt jammed_checked)
    by (vm_compute; reflexivity).
  assert (H3 : events jammed_log jammed_checked
        [(AccessSync "/logs/t-latest.log", true);
         (RenameSync "/logs/t-latest.log" "/logs/t-1.log", false)])
    by (vm_compute; reflexivity).
  assert (H4 : In (RenameSync "/logs/t-latest.log" "/logs/t-1.log", false)
        [(AccessSync "/logs/t-latest.log", true);
         (RenameSync "/logs/t-latest.log" "/logs/t-1.log", false)])
    by (right; left; reflexivity).
  split; [exact (conj H1 (conj H2 (conj H3 H4)))|].
  pose proof (failed_rename_keeps_size _ _ _ Info "b" day1 day1 _ _ _
                H1 H2 H3 H4) as P.
  destruct P as (_ & _ & _ & P & _). exact P.
Defined.

(** C6 as stated fails.  A live file of 72 bytes under a limit of 50 and a
    rename that throws: after the rotation check the size counter is still
    72, not 0. *)
Lemma failed_rename_resets_size_counterexample :
  exists s1,
    checkAndRotate day1 jammed_log = Returns tt s1
    /\ In (RenameSync "/logs/t-latest.log" "/logs/t-1.log", false)
          (trace (store s1))
    /\ currentFileSize (logger s1) = 72
    /\ currentFileSize (logger s1) <> 0.
Proof.
  exists jammed_checked.
  split; [vm_compute; reflexivity|].
  split; [vm_compute; tauto|]. split; [vm_compute; reflexivity|].
  vm_compute. discriminate.
Qed.

(** The size counter grows by the number of code units of the entry; the
    file grows by the number of bytes.  The two agree on ASCII. *)
Lemma encodeInto_length_ascii s :
  Str.is_ascii s = true ->
  length (Str.TextEncoder_encodeInto s) = String.length s.
Proof.
  induction s as [|c s IH]; intros H; [reflexivity|].
  simpl in H. apply andb_true_iff in H as [Hc Hs].
  cbn [Str.TextEncoder_encodeInto String.length]. unfold Str.utf8_of_unit.
  rewrite Hc. simpl. now rewrite IH.
Qed.

Lemma encodeInto_length_ge s :
  (String.length s <= length (Str.TextEncoder_encodeInto s))%nat.
Proof.
  induction s as [|c s IH]; [reflexivity|].
  cbn [Str.TextEncoder_encodeInto String.length]. unfold Str.utf8_of_unit.
  destruct (N_of_ascii c <? 128)%N; simpl; lia.
Qed.

(** C5 at a message with one character outside ASCII: the entry has 32
    code units and 33 bytes.  The append succeeds and the live file holds
    the 33 bytes, but the size counter has grown from 0 to 32. *)
Theorem size_counts_code_units_not_bytes :
  exists s' f,
    write Info e_acute day1 day1 empty_log = Returns tt s'
    /\ Fs.lookup "/logs/t-latest.log" (files (store s')) = Some f
    /\ f_data f = Str.TextEncoder_encodeInto (logEntry Info e_acute day1)
    /\ f_size f = 33
    /\ currentFileSize (logger s') = 32.
Proof.
  exists (after (write Info e_acute day1 day1) empty_log).
  exists (mkFile (Str.TextEncoder_encodeInto (logEntry Info e_acute day1)) 4).
  repeat split; vm_compute; reflexivity.
Qed.

Lemma write_rotates_when_needed_witness :
  configured config_t full_log
  /\ checkAndRotate day1 full_log =
     (if rotation_needed config_t (logger full_log) (formatDate day1)
      then rotateLogFile
             (mkState (dated (formatDate day1) config_t (logger full_log))
                      (store full_log))
      else Returns tt full_log).
Proof.
  assert (H : configured config_t full_log)
    by (split; vm_compute; reflexivity).
  split; [exact H|].
  pose proof (write_rotates_when_needed full_log config_t Info "b"
                day1 day1 H) as P.
  destruct P as [P _]. exact P.
Defined.

(** ** Recovery *)

(** The loop of [findCurrentFileIndex] computes the largest parsed index. *)
Lemma scan_indices_max prefix fl : forall m,
  0 <= m ->
  scan_indices prefix fl m = Z.max m (max_parsed_index prefix fl).
Proof.
  induction fl as [|file rest IH]; intros m Hm; simpl; [lia|].
  unfold parseIndex, liveFileName.
  destruct (Str.startsWith file prefix && Str.endsWith file ".log"
            && negb (file =? prefix ++ "-latest.log")%string).
  - destruct (match_index file) as [d|]; [|now apply IH].
    destruct (Str.parseInt d) as [i|]; [|now apply IH].
    destruct (i >? m) eqn:E; rewrite IH by lia; lia.
  - now apply IH.
Qed.

Lemma max_parsed_index_nonneg prefix fl : 0 <= max_parsed_index prefix fl.
Proof.
  induction fl as [|file rest IH]; simpl; [lia|].
  destruct (parseIndex prefix file); lia.
Qed.

Lemma scan_indices_spec prefix fl :
  scan_indices prefix fl 0 = max_parsed_index prefix fl.
Proof.
  rewrite scan_indices_max by lia.
  pose proof (max_parsed_index_nonneg prefix fl). lia.
Qed.

Lemma ensure_spec s c :
  config (logger s) = Some c ->
  wp ensureLogsDirectory
     (fun _ s' => logger s' = logger s /\ same_env s s'
                  /\ files (store s') = files (store s)
                  /\ exists evs, events s s' evs
                                 /\ ensure_events (logsDirectory c) evs)
     (fun _ => False) False s.
Proof.
  intros Hc. unfold ensureLogsDirectory. apply wp_bind, wp_get. rewrite Hc.
  destruct (logsDirectory c =? "")%string.
  { apply wp_ret. repeat split. exists []. split; [apply events_nil|].
    left. reflexivity. }
  apply wp_try, wp_bind. unfold accessSync. apply wp_fs_call.
  - intros ex ds fl _ E. inversion E; subst; clear E.
    destruct (Fs.is_file _ _ || Fs.is_dir _ _); cbn [negb].
    + apply wp_ret. repeat split. eexists. split; [reflexivity|].
      right. left. exists true. reflexivity.
    + unfold mkdirSync. apply wp_fs_call.
      * intros [] ds fl _ E. cbn [store Fs.commit files dirs] in E.
        destruct (Fs.is_file _ _ || Fs.is_dir _ _); inversion E; subst.
        repeat split. eexists. split.
        -- unfold events. cbn. rewrite <- app_assoc. reflexivity.
        -- right. right. exists true. reflexivity.
      * apply wp_ret. repeat split. eexists. split.
        -- unfold events. cbn. rewrite <- app_assoc. reflexivity.
        -- right. right. exists false. reflexivity.
  - apply wp_ret. repeat split. eexists. split; [reflexivity|].
    right. left. exists false. reflexivity.
Qed.

Lemma find_index_spec s c :
  config (logger s) = Some c ->
  wp findCurrentFileIndex
     (fun _ s' =>
        exists index evs,
          logger s' = with_currentFileIndex index (logger s)
          /\ same_env s s' /\ files (store s') = files (store s)
          /\ events s s' evs
          /\ index_events (logsDirectory c) (logPrefix c) (files (store s))
                          index evs)
     (fun _ => False) False s.
Proof.
  intros Hc. unfold findCurrentFileIndex. apply wp_bind, wp_get. rewrite Hc.
  apply wp_bind, wp_try, wp_bind. unfold listFileSync. apply wp_fs_call.
  - intros fl ds fl' _ E. destruct (Fs.is_dir _ _); inversion E; subst; clear E.
    apply wp_ret, wp_modify. eexists. eexists.
    split; [reflexivity|]. split; [split; reflexivity|].
    split; [reflexivity|]. split; [reflexivity|].
    left. split; [reflexivity|]. apply scan_indices_spec.
  - apply wp_ret, wp_modify. eexists. eexists.
    split; [reflexivity|]. split; [split; reflexivity|].
    split; [reflexivity|]. split; [reflexivity|].
    right. split; reflexivity.
Qed.

Lemma init_spec s c :
  config (logger s) = Some c ->
  wp initCurrentLogFile
     (fun _ s' =>
        exists size index evs1 evs2,
          logger s' =
            with_currentFileIndex index
              (with_currentFileSize size
                 (with_currentLogFile (live_path c) (logger s)))
          /\ same_env s s' /\ files (store s') = files (store s)
          /\ events s s' (evs1 ++ evs2)
          /\ size_events (live_path c) (files (store s)) size evs1
          /\ index_events (logsDirectory c) (logPrefix c) (files (store s))
                          index evs2)
     (fun _ => False) False s.
Proof.
  intros Hc. unfold initCurrentLogFile. apply wp_bind, wp_get. rewrite Hc.
  apply wp_bind, wp_modify. apply wp_bind, wp_get.
  cbn [logger currentLogFile with_currentLogFile].
  change (logsDirectory c ++ "/" ++ logPrefix c ++ "-latest.log")
    with (live_path c).
  assert (Hfin : forall s1 size evs1,
    logger s1 = with_currentFileSize size
                  (with_currentLogFile (live_path c) (logger s)) ->
    same_env s s1 -> files (store s1) = files (store s) ->
    events s s1 evs1 ->
    size_events (live_path c) (files (store s)) size evs1 ->
    wp findCurrentFileIndex
      (fun _ s' =>
        exists size index evs1 evs2,
          logger s' =
            with_currentFileIndex index
              (with_currentFileSize size
                 (with_currentLogFile (live_path c) (logger s)))
          /\ same_env s s' /\ files (store s') = files (store s)
          /\ events s s' (evs1 ++ evs2)
          /\ size_events (live_path c) (files (store s)) size evs1
          /\ index_events (logsDirectory c) (logPrefix c) (files (store s))
                          index evs2)
      (fun _ => False) False s1).
  { intros s1 size evs1 Hl He Hf Hev Hsz.
    eapply wp_mono; [apply (find_index_spec s1 c); now rewrite Hl| |easy|easy].
    intros u s' (index & evs2 & Hl' & He' & Hf' & Hev' & Hix).
    exists size, index, evs1, evs2.
    split; [now rewrite Hl', Hl|].
    split.
    { destruct He as [A B], He' as [A' B']. split; congruence. }
    split; [congruence|].
    split; [eapply events_trans; eassumption|].
    split; [exact Hsz|]. now rewrite <- Hf. }
  apply wp_bind, wp_try, wp_bind. unfold accessSync. apply wp_fs_call.
  - intros ex ds fl _ E. inversion E; subst; clear E.
    destruct (Fs.is_file _ _ || Fs.is_dir _ _).
    + apply wp_bind. unfold statSync. apply wp_fs_call.
      * intros [sz mt] ds fl _ E. cbn [store Fs.commit files dirs] in E.
        destruct (Fs.lookup (live_path c) (files (store s))) as [f|] eqn:Ef;
          inversion E; subst; clear E.
        apply wp_modify. cbn [fst].
        eapply Hfin; [reflexivity|split; reflexivity|reflexivity| |].
        -- unfold events. cbn. rewrite <- app_assoc. reflexivity.
        -- left. exists f. auto.
      * apply wp_modify.
        eapply Hfin; [reflexivity|split; reflexivity|reflexivity| |].
        -- unfold events. cbn. rewrite <- app_assoc. reflexivity.
        -- right. split; [reflexivity|]. right. reflexivity.
    + apply wp_modify.
      eapply Hfin; [reflexivity|split; reflexivity|reflexivity| |].
      * reflexivity.
      * right. split; [reflexivity|]. left. exists true. reflexivity.
  - apply wp_modify.
    eapply Hfin; [reflexivity|split; reflexivity|reflexivity| |].
    + reflexivity.
    + right. split; [reflexivity|]. left. exists false. reflexivity.
Qed.

Lemma configure_spec (options : ConfigureOptions) (now : Date) (s : State) :
  exists s' size index evs0 evs1 evs2,
    configure options now s = Returns tt s'
    /\ logger s' =
       mkTurboLog (Some (resolve options)) (live_path (resolve options))
                  (formatDate now) size index
    /\ same_env s s'
    /\ files (store s') = files (store s)
    /\ events s s' (evs0 ++ evs1 ++ evs2)
    /\ ensure_events (logsDirectory (resolve options)) evs0
    /\ size_events (live_path (resolve options)) (files (store s)) size evs1
    /\ index_events (logsDirectory (resolve options))
         (logPrefix (resolve options)) (files (store s)) index evs2.
Proof.
  set (c := resolve options).
  unfold configure. fold c.
  set (s0 := mkState
               (with_currentFileSize 0
                  (with_currentFileIndex 0
                     (with_currentDate (formatDate now)
                        (with_config (Some c) (logger s)))))
               (store s)).
  assert (Hrun : forall Q,
    wp (ensureLogsDirectory ;; initCurrentLogFile) Q (fun _ => False) False s0 ->
    wp (set_config (Some c) ;; set_currentDate (formatDate now) ;;
        set_currentFileIndex 0 ;; set_currentFileSize 0 ;;
        ensureLogsDirectory ;; initCurrentLogFile) Q (fun _ => False) False s).
  { intros Q H. apply wp_bind, wp_modify. apply wp_bind, wp_modify.
    apply wp_bind, wp_modify. apply wp_bind, wp_modify. exact H. }
  assert (Hc0 : config (logger s0) = Some c) by reflexivity.
  pose proof (ensure_spec s0 c Hc0) as He.
  assert (H : wp (ensureLogsDirectory ;; initCurrentLogFile)
    (fun _ s' => exists size index evs0 evs1 evs2,
       logger s' = mkTurboLog (Some c) (live_path c) (formatDate now) size index
       /\ same_env s s'
       /\ files (store s') = files (store s)
       /\ events s s' (evs0 ++ evs1 ++ evs2)
       /\ ensure_events (logsDirectory c) evs0
       /\ size_events (live_path c) (files (store s)) size evs1
       /\ index_events (logsDirectory c) (logPrefix c) (files (store s))
                       index evs2)
    (fun _ => False) False s0).
  { apply wp_bind. eapply wp_mono; [exact He| |easy|easy].
    intros u s1 (Hl & Hen & Hf & evs0 & Hev0 & Hsh0). cbv beta.
    eapply wp_mono; [apply (init_spec s1 c); now rewrite Hl| |easy|easy].
    intros u' s' (size & index & evs1 & evs2 & Hl' & Hen' & Hf' & Hev' & Hs & Hi).
    exists size, index, evs0, evs1, evs2.
    split; [rewrite Hl', Hl; reflexivity|].
    split.
    { destruct Hen as [A B], Hen' as [A' B']. split; [rewrite A', A|rewrite B', B];
        reflexivity. }
    split; [rewrite Hf', Hf; reflexivity|].
    split; [exact (events_trans _ _ _ _ _ Hev0 Hev')|].
    split; [exact Hsh0|]. rewrite Hf in Hs, Hi. split; assumption. }
  apply Hrun in H. unfold wp in H.
  destruct ((set_config (Some c);; _) s) as [[] s'| |]; [|destruct H|destruct H].
  destruct H as (size & index & evs0 & evs1 & evs2 & H).
  exists s', size, index, evs0, evs1, evs2. split; [reflexivity|exact H].
Qed.

(** With fixed faults [f], what recovery finds is a function of the
    directories and the files. *)
Lemma configure_steady f options now s :
  (forall t c, faults (store s) t c = f c) ->
  exists s',
    configure options now s = Returns tt s'
    /\ logger s' =
       mkTurboLog (Some (resolve options)) (live_path (resolve options))
         (formatDate now)
         (recovered_size f (resolve options)
            (ensured_dirs f (resolve options) (dirs (store s)) (files (store s)))
            (files (store s)))
         (recovered_index f (resolve options)
            (ensured_dirs f (resolve options) (dirs (store s)) (files (store s)))
            (files (store s)))
    /\ dirs (store s') =
       ensured_dirs f (resolve options) (dirs (store s)) (files (store s))
    /\ files (store s') = files (store s)
    /\ faults (store s') = faults (store s).
Proof.
  intros Hf. set (c := resolve options).
  unfold configure, ensureLogsDirectory, initCurrentLogFile,
    findCurrentFileIndex, accessSync, statSync, mkdirSync, listFileSync,
    set_config, set_currentDate, set_currentFileIndex, set_currentFileSize,
    set_currentLogFile, bind, try_catch, get, modify, ret, fs_call.
  fold c. cbv beta zeta.
  cbn [logger store config with_config with_currentDate with_currentFileIndex
       with_currentFileSize with_currentLogFile currentLogFile
       Fs.commit Fs.record dirs files ticks faults mclock trace fst snd negb].
  unfold ensured_dirs, recovered_size, recovered_index, live_path,
    liveFileName.
  repeat match goal with
  | _ => rewrite Hf
  | _ => progress cbv beta iota zeta
  | _ => progress cbn [logger store config with_config with_currentDate
       with_currentFileIndex with_currentFileSize with_currentLogFile
       currentLogFile Fs.commit Fs.record dirs files ticks faults mclock
       trace fst snd negb orb andb]
  | H : ?b = true |- context [?b] => rewrite H
  | H : ?b = false |- context [?b] => rewrite H
  | |- context [if ?b then _ else _] =>
      match b with
      | orb ?x _ => destruct x eqn:?
      | negb ?x => destruct x eqn:?
      | _ => destruct b eqn:?
      end
  | |- context [match Fs.lookup ?p ?l with _ => _ end] =>
      destruct (Fs.lookup p l) eqn:?
  end;
  try discriminate;
  try (eexists; repeat split; reflexivity).
Qed.

Lemma is_dir_app d ds : Fs.is_dir d (ds ++ [d]) = true.
Proof.
  unfold Fs.is_dir. rewrite existsb_app. simpl.
  rewrite String.eqb_refl. now rewrite orb_true_r.
Qed.

Lemma ensured_dirs_idem f c ds fl :
  ensured_dirs f c (ensured_dirs f c ds fl) fl = ensured_dirs f c ds fl.
Proof.
  unfold ensured_dirs.
  destruct (logsDirectory c =? "")%string; [reflexivity|].
  destruct (f (AccessSync (logsDirectory c))); [reflexivity|].
  destruct (Fs.is_file (logsDirectory c) fl || Fs.is_dir (logsDirectory c) ds)
    eqn:E3; [now rewrite E3|].
  destruct (f (MkdirSync (logsDirectory c))); [now rewrite E3|].
  rewrite is_dir_app. now rewrite orb_true_r.
Qed.

Lemma resolve_as_options c : resolve (as_options c) = c.
Proof. now destruct c. Qed.

Lemma lookup_is_file p fl f :
  Fs.lookup p fl = Some f -> Fs.is_file p fl = true.
Proof.
  unfold Fs.lookup, Fs.is_file. induction fl as [|e fl IH]; simpl;
    [discriminate|].
  destruct (String.eqb (fst e) p); [reflexivity|exact IH].
Qed.



(** C8.  With faults that do not change over time, [reconfigure] right
    after [configure] leaves the files alone and finds the same size and
    the same index again. *)
Theorem reconfigure_is_idempotent (options : ConfigureOptions)
  (now now' : Date) (s : State) :
  steady s ->
  exists s1 s2,
    configure options now s = Returns tt s1
    /\ reconfigure now' s1 = Returns tt s2
    /\ files (store s2) = files (store s1)
    /\ currentFileSize (logger s2) = currentFileSize (logger s1)
    /\ currentFileIndex (logger s2) = currentFileIndex (logger s1).
Proof.
  intros Hst.
  assert (Hf : forall t c, faults (store s) t c = faults (store s) 0%nat c)
    by (intros; apply Hst).
  destruct (configure_steady _ options now s Hf)
    as (s1 & Hrun1 & Hl1 & Hd1 & Hfl1 & Hfa1).
  assert (Hf1 : forall t c, faults (store s1) t c = faults (store s) 0%nat c)
    by (intros; rewrite Hfa1; apply Hst).
  destruct (configure_steady _ (as_options (resolve options)) now' s1 Hf1)
    as (s2 & Hrun2 & Hl2 & Hd2 & Hfl2 & Hfa2).
  exists s1, s2. split; [exact Hrun1|].
  split.
  { unfold reconfigure, bind, get. rewrite Hl1. cbn [config]. exact Hrun2. }
  split; [exact Hfl2|].
  rewrite Hl2, Hl1, resolve_as_options, Hd1, Hfl1, ensured_dirs_idem.
  split; reflexivity.
Qed.

(** ** Deleting all log files *)

Lemma unlink_each_spec ps : forall s,
  wp (unlink_each ps)
     (fun _ s' =>
        frame s s' (unlinked ps)
        /\ dirs (store s') = dirs (store s)
        /\ files (store s') = remove_all ps (files (store s)))
     (fun s' =>
        exists done failed rest,
          ps = (done ++ failed :: rest)%list
          /\ frame s s' (unlinked done ++ [(UnlinkSync failed, false)])
          /\ dirs (store s') = dirs (store s)
          /\ files (store s') = remove_all done (files (store s)))
     False s.
Proof.
  induction ps as [|p ps IH]; intros s; simpl.
  - apply wp_ret. split; [apply frame_refl|]. split; reflexivity.
  - apply wp_bind. unfold unlinkSync. apply wp_fs_call.
    + intros [] ds fl _ E.
      destruct (Fs.is_file p (files (store s))); inversion E; subst; clear E.
      eapply wp_mono; [apply IH| | |easy].
      * intros u s' (Hf & Hd & Hfl).
        split; [exact (frame_trans _ _ _ _ _ (frame_commit _ _ _ _) Hf)|].
        split; [exact Hd|exact Hfl].
      * intros s' (done & failed & rest & -> & Hf & Hd & Hfl).
        exists (p :: done), failed, rest. split; [reflexivity|].
        split; [exact (frame_trans _ _ _ _ _ (frame_commit _ _ _ _) Hf)|].
        split; [exact Hd|exact Hfl].
    + exists [], p, ps. split; [reflexivity|].
      split; [apply frame_record|]. split; reflexivity.
Qed.

Lemma in_paths_remove_all ps : forall fl p,
  In p (map fst (remove_all ps fl)) <-> In p (map fst fl) /\ ~ In p ps.
Proof.
  induction ps as [|q ps IH]; intros fl p; simpl.
  - tauto.
  - unfold remove_all in *. simpl. rewrite IH, in_paths_remove.
    split; [intros ((A & B) & C)|intros (A & B)]; repeat split; auto.
    intros [->|H]; auto.
Qed.

(** C7.  [deleteLogFiles] unlinks the paths of [getLogFiles] in order.
    When every unlink returns it runs [reconfigure] and returns [true], and
    none of the paths is left.  When an unlink throws it returns [false]
    without running [reconfigure]: the paths before the failing one are
    gone, every other file is still there, and no later path is tried. *)
Theorem deleteLogFiles_stops_at_first_failure (now : Date) (s : State) :
  exists paths s1,
    getLogFiles s = Returns paths s1
    /\ match deleteLogFiles now s with
       | Returns true s' =>
           exists s2,
             unlink_each paths s1 = Returns tt s2
             /\ events s1 s2 (unlinked paths)
             /\ reconfigure now s2 = Returns tt s'
             /\ files (store s') = remove_all paths (files (store s1))
             /\ (forall p, In p paths -> ~ In p (paths_of s'))
       | Returns false s' =>
           exists done failed rest,
             paths = (done ++ failed :: rest)%list
             /\ events s1 s' (unlinked done ++ [(UnlinkSync failed, false)])
             /\ logger s' = logger s
             /\ files (store s') = remove_all done (files (store s1))
             /\ (forall p, In p done -> ~ In p (paths_of s'))
             /\ (forall p, In p (paths_of s1) -> ~ In p done ->
                   In p (paths_of s'))
       | Throws _ => False
       | Diverges => False
       end.
Proof.
  assert (Hg : exists paths s1, getLogFiles s = Returns paths s1
                                /\ logger s1 = logger s).
  { destruct (config (logger s)) as [c|] eqn:Hc.
    - pose proof (getLogFiles_spec s c Hc) as H. unfold wp in H.
      destruct (getLogFiles s) as [paths s1| |]; [|destruct H|destruct H].
      destruct H as (evs & (Hl & _) & _). eauto.
    - unfold getLogFiles, bind, get. rewrite Hc. exists [], s. auto. }
  destruct Hg as (paths & s1 & Hg & Hl1). exists paths, s1.
  split; [exact Hg|].
  unfold deleteLogFiles, bind at 1. rewrite Hg. unfold try_catch, bind.
  pose proof (unlink_each_spec paths s1) as Hu. unfold wp in Hu.
  destruct (unlink_each paths s1) as [[] s2| s2 |] eqn:Eu; [| |destruct Hu].
  - destruct Hu as ((Hl2 & He2 & Hev2) & Hd2 & Hf2).
    assert (Hr : exists s', reconfigure now s2 = Returns tt s'
                            /\ files (store s') = files (store s2)).
    { unfold reconfigure, bind, get.
      destruct (config (logger s2)) as [c|]; [|exists s2; auto].
      destruct (configure_spec (as_options c) now s2)
        as (s' & sz & ix & e0 & e1 & e2 & Hrun & _ & _ & Hf & _).
      eauto. }
    destruct Hr as (s' & Hr & Hf'). rewrite Hr. cbn [ret].
    exists s2. split; [reflexivity|]. split; [exact Hev2|].
    split; [exact Hr|]. split; [now rewrite Hf', Hf2|].
    intros p Hin. unfold paths_of. rewrite Hf', Hf2, in_paths_remove_all.
    tauto.
  - destruct Hu as (done & failed & rest & Hp & (Hl2 & He2 & Hev2) & Hd2 & Hf2).
    cbn [ret]. exists done, failed, rest.
    split; [exact Hp|]. split; [exact Hev2|].
    split; [now rewrite Hl2|]. split; [exact Hf2|].
    unfold paths_of. rewrite Hf2. split.
    + intros p Hin. rewrite in_paths_remove_all. tauto.
    + intros p Hin Hn. rewrite in_paths_remove_all. tauto.
Qed.

(** ** Strings and paths *)

Lemma append_assoc (a b c : string) : (a ++ b) ++ c = a ++ (b ++ c).
Proof. induction a as [|x a IH]; simpl; [reflexivity|now rewrite IH]. Qed.

Lemma endsWith_refl s : Str.endsWith s s = true.
Proof. destruct s; simpl; now rewrite ?String.eqb_refl, ?Ascii.eqb_refl. Qed.

Lemma endsWith_app a s x :
  Str.endsWith s x = true -> Str.endsWith (a ++ s) x = true.
Proof.
  intros H. induction a as [|c a IH]; simpl; [exact H|].
  rewrite IH. apply orb_true_r.
Qed.

Lemma endsWith_suffix a x : Str.endsWith (a ++ x) x = true.
Proof. apply endsWith_app, endsWith_refl. Qed.

Lemma no_slash_app a b :
  Str.no_slash (a ++ b) = Str.no_slash a && Str.no_slash b.
Proof.
  induction a as [|c a IH]; simpl; [reflexivity|].
  now rewrite IH, andb_assoc.
Qed.

Lemma split_path_none n : Str.no_slash n = true -> Fs.split_path n = None.
Proof.
  induction n as [|c n IH]; simpl; [reflexivity|].
  intros H. apply andb_true_iff in H as [Hc Hn]. rewrite (IH Hn).
  apply negb_true_iff in Hc. now rewrite Hc.
Qed.

Lemma split_path_join d n :
  Str.no_slash n = true -> Fs.split_path (d ++ "/" ++ n) = Some (d, n).
Proof.
  intros Hn. cbn [append]. induction d as [|c d IH]; cbn [append].
  - cbn [Fs.split_path]. now rewrite (split_path_none n Hn).
  - cbn [Fs.split_path]. now rewrite IH.
Qed.

Lemma split_path_inv p : forall d n,
  Fs.split_path p = Some (d, n) ->
  Str.no_slash n = true /\ p = d ++ "/" ++ n.
Proof.
  induction p as [|c p IH]; simpl; intros d n H; [discriminate|].
  destruct (Fs.split_path p) as [[d' n']|] eqn:E.
  - inversion H; subst. destruct (IH d' n eq_refl) as [A B].
    split; [exact A|]. cbn [append] in *. now rewrite <- B.
  - destruct (Ascii.eqb c "/") eqn:Ec; [|discriminate].
    inversion H; subst. apply Ascii.eqb_eq in Ec. subst c. split; [|reflexivity].
    clear IH H. revert E. induction n as [|x n IHn]; simpl; [reflexivity|].
    destruct (Fs.split_path n) as [[? ?]|]; [discriminate|].
    destruct (Ascii.eqb x "/"); [discriminate|]. intros _. now rewrite IHn.
Qed.

Lemma eqb_slash_false a n x :
  Str.no_slash x = true -> String.eqb (a ++ String "/" n) x = false.
Proof.
  intros Hx. apply String.eqb_neq. intros <-.
  rewrite no_slash_app in Hx. simpl in Hx.
  now rewrite andb_false_r in Hx.
Qed.

Lemma endsWith_path d n x :
  Str.no_slash x = true ->
  Str.endsWith (d ++ "/" ++ n) x = Str.endsWith n x.
Proof.
  intros Hx. cbn [append]. induction d as [|c d IH].
  - pose proof (eqb_slash_false "" n x Hx) as E.
    cbn [append Str.endsWith] in *. now rewrite E.
  - pose proof (eqb_slash_false (String c d) n x Hx) as E.
    cbn [append Str.endsWith] in *. now rewrite E, IH.
Qed.

Lemma in_names_in d fl name :
  In name (Fs.names_in d fl) <->
  exists p, In p (map fst fl) /\ Fs.split_path p = Some (d, name).
Proof.
  induction fl as [|[q f] fl IH]; simpl.
  - split; [contradiction|]. intros (p & [] & _).
  - destruct (Fs.split_path q) as [[d' n]|] eqn:E.
    + destruct (String.eqb d' d) eqn:Ed.
      * apply String.eqb_eq in Ed. subst d'. simpl. rewrite IH. split.
        -- intros [<-|(p & A & B)]; [exists q; auto|exists p; auto].
        -- intros (p & [<-|A] & B); [left; congruence|right; eauto].
      * apply String.eqb_neq in Ed. rewrite IH. split.
        -- intros (p & A & B). eauto.
        -- intros (p & [<-|A] & B); [congruence|eauto].
    + rewrite IH. split.
      * intros (p & A & B). eauto.
      * intros (p & [<-|A] & B); [congruence|eauto].
Qed.

(** ** Retention *)

Lemma in_firstn {A} (x : A) n l : In x (firstn n l) -> In x l.
Proof.
  intros H. rewrite <- (firstn_skipn n l). apply in_or_app. now left.
Qed.


Lemma unlink_is_victim (evs : list (FsCall * bool)) (l : list (string * Z))
  p ok :
  map fst evs = map (fun x => UnlinkSync (fst x)) l ->
  In (UnlinkSync p, ok) evs -> In p (map fst l).
Proof.
  intros Hm Hin. apply (in_map fst) in Hin. rewrite Hm in Hin. simpl in Hin.
  apply in_map_iff in Hin as (x & Hx & Hl). inversion Hx; subst.
  now apply in_map.
Qed.


Lemma live_path_latest c : Str.endsWith (live_path c) "-latest.log" = true.
Proof.
  unfold live_path, liveFileName.
  rewrite <- !append_assoc. apply endsWith_suffix.
Qed.





(** A file of another prefix is the one that goes; the foreign
    [-latest.log], older still, stays. *)
Example retention_deletes_foreign_prefix :
  exists s',
    cleanupOldLogFiles crowded_log = Returns tt s'
    /\ paths_of s' =
       ["/logs/t-latest.log"; "/logs/t-1.log"; "/logs/other-latest.log";
        "/logs/notes.txt"].
Proof.
  exists (after cleanupOldLogFiles crowded_log).
  split; vm_compute; reflexivity.
Qed.

(** ** Names of rotated files *)

(** ** Numbers as strings *)

Lemma uint_string_digits d :
  Str.all_digits (NilEmpty.string_of_uint d) = true
  /\ Str.no_slash (NilEmpty.string_of_uint d) = true.
Proof. induction d; simpl; try tauto; destruct IHd; split; assumption. Qed.

Lemma of_number_decimal k :
  0 <= k ->
  Str.of_number k <> ""
  /\ Str.all_digits (Str.of_number k) = true
  /\ Str.parseInt (Str.of_number k) = Some k.
Proof.
  intros Hk. destruct k as [|p|p]; [repeat split; discriminate| |lia].
  unfold Str.of_number. cbn [Z.to_int NilZero.string_of_int].
  pose proof (Unsigned.to_uint_nonnil p) as Hn.
  assert (E : NilZero.string_of_uint (Pos.to_uint p)
              = NilEmpty.string_of_uint (Pos.to_uint p)).
  { unfold NilZero.string_of_uint. destruct (Pos.to_uint p); congruence. }
  rewrite E.
  assert (Hne : NilEmpty.string_of_uint (Pos.to_uint p) <> "").
  { destruct (Pos.to_uint p); congruence || discriminate. }
  split; [exact Hne|]. split; [apply uint_string_digits|].
  unfold Str.parseInt.
  destruct (NilEmpty.string_of_uint (Pos.to_uint p)) eqn:Es; [congruence|].
  rewrite <- Es, NilEmpty.usu. simpl. unfold Z.of_uint.
  now rewrite Unsigned.of_to.
Qed.





(** ** The two regular expressions *)

Lemma span_digits_tail p : forall c w a tl,
  Str.is_digit c = false ->
  Str.span_digits (p ++ String c w) = (a, tl) ->
  exists x, tl = x ++ String c w.
Proof.
  induction p as [|d p IH]; intros c w a tl Hc H; cbn [append] in H.
  - cbn [Str.span_digits] in H. rewrite Hc in H. inversion H; subst.
    exists "". reflexivity.
  - cbn [Str.span_digits] in H. destruct (Str.is_digit d).
    + destruct (Str.span_digits (p ++ String c w)) as [a' tl'] eqn:E.
      inversion H; subst. eapply IH; eassumption.
    + inversion H; subst. exists (String d p). reflexivity.
Qed.

Lemma length_append a b :
  String.length (a ++ b) = (String.length a + String.length b)%nat.
Proof. induction a; simpl; auto. Qed.

(** A match cannot start before a non-digit that is followed by more than
    [.log]: the search may skip whatever comes before it. *)
Lemma regex_index_skip sep p c w :
  Str.is_digit c = false -> (4 <= String.length w)%nat ->
  Str.regex_index sep (p ++ String c w) = Str.regex_index sep (String c w).
Proof.
  intros Hc Hw. induction p as [|d p IH]; [reflexivity|].
  cbn [append Str.regex_index]. rewrite IH.
  assert (Hm : Str.match_here sep (String d (p ++ String c w)) = None).
  { cbn [Str.match_here]. destruct (Ascii.eqb d sep); [|reflexivity].
    destruct (Str.span_digits (p ++ String c w)) as [a tl] eqn:E.
    destruct (span_digits_tail _ _ _ _ _ Hc E) as [x ->].
    destruct a; [reflexivity|].
    destruct (String.eqb (x ++ String c w) ".log") eqn:Eq; [|reflexivity].
    apply String.eqb_eq in Eq. apply (f_equal String.length) in Eq.
    rewrite length_append in Eq. simpl in Eq. lia. }
  now rewrite Hm.
Qed.

Lemma span_digits_all ds : forall c w,
  Str.all_digits ds = true -> Str.is_digit c = false ->
  Str.span_digits (ds ++ String c w) = (ds, String c w).
Proof.
  induction ds as [|d ds IH]; intros c w Hd Hc; cbn [append Str.span_digits].
  - now rewrite Hc.
  - simpl in Hd. apply andb_true_iff in Hd as [Hd1 Hd2].
    rewrite Hd1, (IH c w Hd2 Hc). reflexivity.
Qed.

Lemma match_here_digits sep ds :
  ds <> "" -> Str.all_digits ds = true ->
  Str.match_here sep (String sep (ds ++ ".log")) = Some ds.
Proof.
  intros Hne Hd. cbn [Str.match_here]. rewrite Ascii.eqb_refl.
  change (ds ++ ".log") with (ds ++ String "." "log").
  rewrite (span_digits_all ds "." "log" Hd eq_refl).
  destruct ds; [congruence|]. reflexivity.
Qed.

Lemma regex_dot_none_digits ds :
  Str.all_digits ds = true -> Str.regex_index "." (ds ++ ".log") = None.
Proof.
  induction ds as [|d ds IH]; intros Hd; [reflexivity|].
  simpl in Hd. apply andb_true_iff in Hd as [Hd1 Hd2].
  cbn [append Str.regex_index Str.match_here].
  destruct (Ascii.eqb d ".") eqn:E.
  - apply Ascii.eqb_eq in E. subst d. discriminate Hd1.
  - now apply IH.
Qed.

Lemma length_digits_log ds : (4 <= String.length (ds ++ ".log"))%nat.
Proof. rewrite length_append. simpl. lia. Qed.

Lemma match_index_rotated prefix k date daily :
  0 <= k ->
  match_index (rotatedFileName prefix k date daily) = Some (Str.of_number k).
Proof.
  intros Hk. destruct (of_number_decimal k Hk) as (Hne & Hd & _).
  unfold match_index, rotatedFileName. destruct daily.
  - replace (prefix ++ "-" ++ date ++ "." ++ Str.of_number k ++ ".log")
      with (((prefix ++ "-") ++ date) ++ String "." (Str.of_number k ++ ".log"))
      by (rewrite !append_assoc; reflexivity).
    rewrite regex_index_skip by (reflexivity || apply length_digits_log).
    cbn [Str.regex_index]. now rewrite match_here_digits.
  - replace (prefix ++ "-" ++ Str.of_number k ++ ".log")
      with (prefix ++ String "-" (Str.of_number k ++ ".log")) by reflexivity.
    rewrite !regex_index_skip by (reflexivity || apply length_digits_log).
    cbn [Str.regex_index]. rewrite (match_here_digits "-") by assumption.
    assert (Hn : Str.match_here "." (String "-" (Str.of_number k ++ ".log"))
                 = None) by reflexivity.
    rewrite Hn. now rewrite regex_dot_none_digits.
Qed.

Lemma match_index_live prefix : match_index (liveFileName prefix) = None.
Proof.
  unfold match_index, liveFileName.
  change "-latest.log" with (String "-" "latest.log").
  rewrite !regex_index_skip by (reflexivity || (simpl; lia)).
  reflexivity.
Qed.

Lemma startsWith_app p x : Str.startsWith (p ++ x) p = true.
Proof.
  induction p as [|c p IH]; simpl; [now destruct x|].
  now rewrite Ascii.eqb_refl, IH.
Qed.



Lemma append_inv_head (a x y : string) : a ++ x = a ++ y -> x = y.
Proof.
  induction a as [|c a IH]; simpl; intros H; [exact H|].
  inversion H. auto.
Qed.

Lemma max_parsed_index_ge prefix names name k :
  In name names -> parseIndex prefix name = Some k ->
  k <= max_parsed_index prefix names.
Proof.
  induction names as [|n names IH]; intros Hin Hp; [contradiction|].
  simpl. destruct Hin as [->|Hin].
  - rewrite Hp. lia.
  - specialize (IH Hin Hp). destruct (parseIndex prefix n); lia.
Qed.

(** ** Rotated names stay free *)

Lemma in_paths_rename_in a b fl p :
  In p (map fst (Fs.rename_in a b fl)) -> In p (map fst fl) \/ p = b.
Proof.
  induction fl as [|[q f] fl IH]; simpl; [tauto|].
  destruct (String.eqb q a); simpl; intuition.
Qed.

Lemma in_paths_renamed a b fl p :
  In p (map fst (renamed a b fl)) -> In p (map fst fl) \/ p = b.
Proof.
  unfold renamed. destruct (String.eqb a b); [auto|].
  intros H. apply in_paths_rename_in in H as [H|H]; [|auto].
  apply in_paths_remove in H. tauto.
Qed.



Lemma rotated_is_not_live c k date :
  0 <= k ->
  logsDirectory c ++ "/" ++
    rotatedFileName (logPrefix c) k date (dailyRolling c)
  <> live_path c.
Proof.
  intros Hk E. unfold live_path in E. apply append_inv_head in E.
  cbn [append] in E. inversion E as [E'].
  pose proof (match_index_rotated (logPrefix c) k date (dailyRolling c) Hk) as P.
  rewrite E', match_index_live in P. discriminate.
Qed.




Lemma live_path_nonempty c : live_path c <> "".
Proof. unfold live_path. destruct (logsDirectory c); discriminate. Qed.





(** After the restart the index is 1 again and the next rotated name is
    [t-2.log], while [t-1.log] is on disk. *)
Example restart_resumes_numbering :
  currentFileIndex (logger restarted_log) = 1
  /\ rotated_path config_t (logger restarted_log) = "/logs/t-2.log"
  /\ paths_of restarted_log = ["/logs/t-1.log"; "/logs/t-latest.log"].
Proof. repeat split; vm_compute; reflexivity. Qed.


Lemma reconfigure_is_idempotent_witness :
  steady full_log
  /\ exists s1 s2,
       configure options_t day1 full_log = Returns tt s1
       /\ reconfigure day2 s1 = Returns tt s2
       /\ files (store s2) = files (store s1)
       /\ currentFileSize (logger s2) = currentFileSize (logger s1)
       /\ currentFileIndex (logger s2) = currentFileIndex (logger s1).
Proof.
  assert (H : steady full_log) by (intros t t' c; reflexivity).
  split; [exact H|].
  exact (reconfigure_is_idempotent options_t day1 day2 full_log H).
Defined.

(** * Further properties

    ** The entry format *)

Lemma range_check (f : Z -> bool) (lo : Z) (n : nat) :
  forallb (fun i => f (lo + Z.of_nat i)) (seq 0 n) = true ->
  forall k, lo <= k < lo + Z.of_nat n -> f k = true.
Proof.
  intros H k Hk. rewrite forallb_forall in H.
  specialize (H (Z.to_nat (k - lo))).
  replace (lo + Z.of_nat (Z.to_nat (k - lo))) with k in H by lia.
  apply H, in_seq. lia.
Qed.

Lemma pads_to_spec w k :
  pads_to w k = true ->
  String.length (Str.padStart (Str.of_number k) w "0") = w
  /\ Str.parseInt (Str.padStart (Str.of_number k) w "0") = Some k.
Proof.
  unfold pads_to. intros H. apply andb_prop in H. destruct H as [H1 H2].
  apply Nat.eqb_eq in H1. split; [exact H1|].
  destruct (Str.parseInt _); [|discriminate].
  apply Z.eqb_eq in H2. now subst.
Qed.

Lemma pad2 k : 0 <= k <= 99 -> pads_to 2 k = true.
Proof.
  intros H. apply (range_check (pads_to 2) 0 100); [vm_compute; reflexivity|lia].
Qed.

Lemma pad3 k : 0 <= k <= 999 -> pads_to 3 k = true.
Proof.
  intros H. apply (range_check (pads_to 3) 0 1000); [vm_compute; reflexivity|lia].
Qed.

Lemma year_width k :
  1000 <= k <= 9999 -> String.length (Str.of_number k) = 4%nat.
Proof.
  intros H.
  apply Nat.eqb_eq.
  apply (range_check (fun k => Nat.eqb (String.length (Str.of_number k)) 4)
           1000 (Z.to_nat 9000)); [vm_compute; reflexivity|lia].
Qed.

Lemma uint_string_ascii d : Str.is_ascii (NilEmpty.string_of_uint d) = true.
Proof. induction d; simpl; auto. Qed.

Lemma of_number_ascii k : Str.is_ascii (Str.of_number k) = true.
Proof.
  unfold Str.of_number.
  assert (H : forall d, Str.is_ascii (NilZero.string_of_uint d) = true).
  { intros d. unfold NilZero.string_of_uint.
    destruct d; try reflexivity; apply (uint_string_ascii (_ _)). }
  destruct (Z.to_int k); simpl; apply H.
Qed.

Lemma is_ascii_app a b :
  Str.is_ascii (a ++ b) = Str.is_ascii a && Str.is_ascii b.
Proof.
  induction a as [|c a IH]; [reflexivity|].
  cbn [append Str.is_ascii]. rewrite IH. now rewrite andb_assoc.
Qed.

Lemma is_ascii_padStart s n :
  Str.is_ascii s = true -> Str.is_ascii (Str.padStart s n "0") = true.
Proof.
  intros H. unfold Str.padStart. rewrite is_ascii_app, H, andb_true_r.
  induction (n - String.length s)%nat; simpl; auto.
Qed.

Lemma formatTimestamp_ascii d : Str.is_ascii (formatTimestamp d) = true.
Proof.
  unfold formatTimestamp. rewrite !is_ascii_app.
  rewrite !is_ascii_padStart by apply of_number_ascii.
  now rewrite of_number_ascii.
Qed.

Lemma getLevelString_cases level :
  getLevelString level = "DEBUG" \/ getLevelString level = "INFO "
  \/ getLevelString level = "WARN " \/ getLevelString level = "ERROR".
Proof.
  unfold getLevelString.
  destruct level as [|p|p]; auto;
    destruct p as [[q|q|]|[q|q|]|]; auto.
Qed.

Lemma logEntry_ascii level message stamp :
  Str.is_ascii (logEntry level message stamp) = Str.is_ascii message.
Proof.
  unfold logEntry. rewrite !is_ascii_app, formatTimestamp_ascii.
  destruct (getLevelString_cases level) as [E|[E|[E|E]]]; rewrite E;
    cbn; now rewrite andb_true_r.
Qed.

(** X1.  For a message of ASCII characters the entry that [write] builds
    (time stamp, level, message, line feed) has as many UTF-8 bytes as it
    has code units, whatever the level and the date: the increment of the
    size counter is then the number of bytes appended. *)
Theorem ascii_entry_counts_bytes (level : LogLevel) (message : string)
  (stamp : Date) :
  Str.is_ascii message = true ->
  length (Str.TextEncoder_encodeInto (logEntry level message stamp))
  = String.length (logEntry level message stamp).
Proof.
  intros H. apply encodeInto_length_ascii. now rewrite logEntry_ascii.
Qed.

Lemma ascii_entry_counts_bytes_witness :
  Str.is_ascii "aaaaa" = true
  /\ length (Str.TextEncoder_encodeInto (logEntry Info "aaaaa" day1))
     = String.length (logEntry Info "aaaaa" day1).
Proof.
  split; [reflexivity|].
  apply (ascii_entry_counts_bytes Info "aaaaa" day1). reflexivity.
Defined.

(** X2.  For a date with a four-digit year the date stamp has 10
    characters and the time stamp 23; the level is a field of 5 characters
    for every number passed as level; the entry has 31 characters more than
    the message and ends in a line feed. *)
Theorem entry_has_fixed_width (level : LogLevel) (message : string)
  (stamp : Date) :
  valid_date stamp -> valid_time stamp ->
  1000 <= getFullYear stamp <= 9999 ->
  String.length (formatDate stamp) = 10%nat
  /\ String.length (formatTimestamp stamp) = 23%nat
  /\ String.length (getLevelString level) = 5%nat
  /\ String.length (logEntry level message stamp)
     = (31 + String.length message)%nat
  /\ exists body, logEntry level message stamp
                  = body ++ String (ascii_of_nat 10) "".
Proof.
  intros (Hy & Hm & Hd) (Hh & Hmi & Hs & Hms) Hy4.
  destruct (pads_to_spec _ _ (pad2 (getMonth stamp + 1) ltac:(lia))) as [Lm _].
  destruct (pads_to_spec _ _ (pad2 (getDate stamp) ltac:(lia))) as [Ld _].
  destruct (pads_to_spec _ _ (pad2 (getHours stamp) ltac:(lia))) as [Lh _].
  destruct (pads_to_spec _ _ (pad2 (getMinutes stamp) ltac:(lia))) as [Lmi _].
  destruct (pads_to_spec _ _ (pad2 (getSeconds stamp) ltac:(lia))) as [Ls _].
  destruct (pads_to_spec _ _ (pad3 (getMilliseconds stamp) ltac:(lia)))
    as [Lms _].
  pose proof (year_width _ Hy4) as Lw.
  assert (Ll : String.length (getLevelString level) = 5%nat)
    by (destruct (getLevelString_cases level) as [E|[E|[E|E]]];
        rewrite E; reflexivity).
  assert (Lt : String.length (formatTimestamp stamp) = 23%nat).
  { unfold formatTimestamp. rewrite !length_append.
    rewrite Lm, Ld, Lh, Lmi, Ls, Lms, Lw. reflexivity. }
  split.
  { unfold formatDate. rewrite !length_append. rewrite Lm, Ld, Lw.
    reflexivity. }
  split; [exact Lt|]. split; [exact Ll|]. split.
  - unfold logEntry. rewrite !length_append. rewrite Lt, Ll.
    cbn [String.length]. lia.
  - exists (formatTimestamp stamp ++ " " ++ getLevelString level ++ " "
            ++ message).
    unfold logEntry. now rewrite !append_assoc.
Qed.

Lemma entry_has_fixed_width_witness :
  (valid_date day1 /\ valid_time day1 /\ 1000 <= getFullYear day1 <= 9999)
  /\ String.length (logEntry Info "aaaaa" day1) = 36%nat.
Proof.
  assert (D : valid_date day1) by (unfold valid_date; cbn; lia).
  assert (T : valid_time day1) by (unfold valid_time; cbn; lia).
  assert (Y : 1000 <= getFullYear day1 <= 9999) by (cbn; lia).
  split; [auto|].
  pose proof (entry_has_fixed_width Info "aaaaa" day1 D T Y) as P.
  destruct P as (_ & _ & _ & P & _). exact P.
Defined.

(** ** The date stamp and daily rolling *)

Lemma append_inv_tail (a b x y : string) :
  a ++ x = b ++ y -> String.length x = String.length y -> a = b /\ x = y.
Proof.
  revert b. induction a as [|c a IH]; intros [|d b] H L; cbn [append] in H.
  - auto.
  - exfalso. subst x. cbn [String.length] in L. rewrite length_append in L.
    lia.
  - exfalso. subst y. cbn [String.length] in L. rewrite length_append in L.
    lia.
  - injection H as -> H. destruct (IH _ H L). subst. auto.
Qed.

Lemma formatDate_inj a b :
  valid_date a -> valid_date b -> formatDate a = formatDate b -> same_day a b.
Proof.
  intros (Hya & Hma & Hda) (Hyb & Hmb & Hdb) H.
  destruct (pads_to_spec _ _ (pad2 (getMonth a + 1) ltac:(lia))) as [Lma Pma].
  destruct (pads_to_spec _ _ (pad2 (getDate a) ltac:(lia))) as [Lda Pda].
  destruct (pads_to_spec _ _ (pad2 (getMonth b + 1) ltac:(lia))) as [Lmb Pmb].
  destruct (pads_to_spec _ _ (pad2 (getDate b) ltac:(lia))) as [Ldb Pdb].
  unfold formatDate in H. cbv zeta in H.
  apply append_inv_tail in H;
    [|rewrite !length_append, Lma, Lda, Lmb, Ldb; reflexivity].
  destruct H as [Hy H]. cbn [append] in H. injection H as H.
  apply append_inv_tail in H;
    [|cbn [String.length]; rewrite Lda, Ldb; reflexivity].
  destruct H as [Hm H]. injection H as Hd.
  destruct (of_number_decimal _ Hya) as (_ & _ & Pya).
  destruct (of_number_decimal _ Hyb) as (_ & _ & Pyb).
  rewrite Hy in Pya. rewrite Hm in Pma. rewrite Hd in Pda.
  unfold same_day. split; [congruence|]. split; [|congruence].
  assert (getMonth a + 1 = getMonth b + 1) by congruence. lia.
Qed.

Lemma formatDate_same_day a b : same_day a b -> formatDate a = formatDate b.
Proof. intros (Hy & Hm & Hd). unfold formatDate. now rewrite Hy, Hm, Hd. Qed.

(** X3.  With daily rolling and the size limit not reached, the rotation
    check does nothing when the clock shows the calendar day of the last
    check, and on any other day it stores the new date stamp and runs
    [rotateLogFile]: two dates have the same stamp exactly when year, month
    and day agree. *)
Theorem daily_rolling_follows_the_calendar (s : State) (c : InternalConfig)
  (last now : Date) :
  config (logger s) = Some c ->
  dailyRolling c = true ->
  currentDate (logger s) = formatDate last ->
  valid_date last -> valid_date now ->
  currentFileSize (logger s) < maximumFileSize c \/ maximumFileSize c <= 0 ->
  (same_day last now -> checkAndRotate now s = Returns tt s)
  /\ (~ same_day last now ->
      checkAndRotate now s =
      rotateLogFile
        (mkState (with_currentDate (formatDate now) (logger s)) (store s))).
Proof.
  intros Hc Hd Hcur Vl Vn Hsize.
  rewrite (checkAndRotate_eq s c now Hc).
  unfold rotation_needed, dated. rewrite Hd, Hcur. cbn [andb].
  assert (Hs : (0 <? maximumFileSize c)
               && (maximumFileSize c <=? currentFileSize (logger s)) = false)
    by lia.
  rewrite Hs, orb_false_r. split; intros H.
  - rewrite (formatDate_same_day last now H), String.eqb_refl. reflexivity.
  - destruct (String.eqb (formatDate now) (formatDate last)) eqn:E.
    + apply String.eqb_eq in E. exfalso. apply H.
      apply formatDate_inj; auto.
    + reflexivity.
Qed.

Lemma daily_rolling_follows_the_calendar_witness :
  (config (logger daily_log) = Some daily_config
   /\ dailyRolling daily_config = true
   /\ currentDate (logger daily_log) = formatDate day1
   /\ valid_date day1 /\ valid_date day2
   /\ (currentFileSize (logger daily_log) < maximumFileSize daily_config
       \/ maximumFileSize daily_config <= 0))
  /\ (same_day day1 day1 -> checkAndRotate day1 daily_log = Returns tt daily_log).
Proof.
  assert (H1 : config (logger daily_log) = Some daily_config) by reflexivity.
  assert (H2 : dailyRolling daily_config = true) by reflexivity.
  assert (H3 : currentDate (logger daily_log) = formatDate day1)
    by (vm_compute; reflexivity).
  assert (H4 : valid_date day1) by (unfold valid_date; cbn; lia).
  assert (H5 : valid_date day2) by (unfold valid_date; cbn; lia).
  assert (H6 : currentFileSize (logger daily_log) < maximumFileSize daily_config
               \/ maximumFileSize daily_config <= 0) by (left; cbn; lia).
  split; [auto 10|].
  pose proof (daily_rolling_follows_the_calendar daily_log daily_config
                day1 day1 H1 H2 H3 H4 H4 H6) as P.
  destruct P as [P _]. exact P.
Defined.

(** ** The index read back from the directory *)

Lemma max_parsed_index_perm prefix l l' :
  Permutation l l' ->
  max_parsed_index prefix l = max_parsed_index prefix l'.
Proof.
  induction 1; cbn [max_parsed_index];
    repeat match goal with
           | |- context [parseIndex ?p ?x] => destruct (parseIndex p x)
           end; lia.
Qed.

(** X4.  The index that [findCurrentFileIndex] computes from a listing
    does not depend on the order in which the directory is enumerated. *)
Theorem recovered_index_ignores_listing_order (prefix : string)
  (names names' : list string) :
  Permutation names names' ->
  scan_indices prefix names 0 = scan_indices prefix names' 0.
Proof.
  intros H. rewrite !scan_indices_spec. now apply max_parsed_index_perm.
Qed.

Lemma recovered_index_ignores_listing_order_witness :
  Permutation ["t-1.log"; "t-3.log"; "t-latest.log"]
              ["t-latest.log"; "t-3.log"; "t-1.log"]
  /\ scan_indices "t" ["t-1.log"; "t-3.log"; "t-latest.log"] 0
     = scan_indices "t" ["t-latest.log"; "t-3.log"; "t-1.log"] 0.
Proof.
  assert (P : Permutation ["t-1.log"; "t-3.log"; "t-latest.log"]
                          ["t-latest.log"; "t-3.log"; "t-1.log"]).
  { apply Permutation_rev. }
  split; [exact P|].
  exact (recovered_index_ignores_listing_order "t" _ _ P).
Defined.

Lemma parseIndex_longer_prefix prefix ext k date daily :
  0 <= k ->
  parseIndex prefix (rotatedFileName (prefix ++ ext) k date daily) = Some k.
Proof.
  intros Hk. unfold parseIndex.
  set (name := rotatedFileName (prefix ++ ext) k date daily).
  assert (Hs : Str.startsWith name prefix = true).
  { unfold name, rotatedFileName.
    destruct daily; rewrite append_assoc; apply startsWith_app. }
  assert (He : Str.endsWith name ".log" = true).
  { unfold name, rotatedFileName. destruct daily; rewrite <- !append_assoc;
      apply endsWith_suffix. }
  assert (Hl : String.eqb name (liveFileName prefix) = false).
  { apply String.eqb_neq. intros E.
    pose proof (match_index_rotated (prefix ++ ext) k date daily Hk) as H1.
    fold name in H1. rewrite E, match_index_live in H1. discriminate. }
  rewrite Hs, He, Hl. cbn [andb negb]. unfold name.
  rewrite match_index_rotated by exact Hk.
  apply of_number_decimal. exact Hk.
Qed.

(** X5.  The scan of [findCurrentFileIndex] tests [startsWith(prefix)]
    only: the rotated file of any logger whose prefix extends the configured
    one (the configured one included) is read as a rotated file, and its
    index is a lower bound of the recovered index. *)
Theorem recovery_counts_longer_prefixes (prefix ext : string) (k : Z)
  (date : string) (daily : bool) (names : list string) :
  0 <= k ->
  In (rotatedFileName (prefix ++ ext) k date daily) names ->
  k <= scan_indices prefix names 0.
Proof.
  intros Hk Hin. rewrite scan_indices_spec.
  eapply max_parsed_index_ge; [exact Hin|].
  now apply parseIndex_longer_prefix.
Qed.

Lemma recovery_counts_longer_prefixes_witness :
  (0 <= 7 /\ In (rotatedFileName ("app" ++ "2") 7 "" false)
                ["app-1.log"; "app2-7.log"])
  /\ 7 <= scan_indices "app" ["app-1.log"; "app2-7.log"] 0.
Proof.
  assert (H : In (rotatedFileName ("app" ++ "2") 7 "" false)
                 ["app-1.log"; "app2-7.log"]) by (right; left; reflexivity).
  split; [split; [lia|exact H]|].
  exact (recovery_counts_longer_prefixes "app" "2" 7 "" false _ ltac:(lia) H).
Defined.

(** ** Before the first [configure] *)

(** X6.  Before the first [configure] the public methods do nothing: a
    write, [reconfigure] and [getLogFiles] leave the state as it is and make
    no call of the file store, [getLogFiles] returns the empty list,
    [isConfigured] returns [false], and [deleteLogFiles] returns [true]. *)
Theorem unconfigured_logger_is_inert (s : State) (level : LogLevel)
  (message : string) (now stamp : Date) :
  config (logger s) = None ->
  write level message now stamp s = Returns tt s
  /\ reconfigure now s = Returns tt s
  /\ getLogFiles s = Returns [] s
  /\ deleteLogFiles now s = Returns true s
  /\ isConfigured s = Returns false s.
Proof.
  intros H.
  assert (G : getLogFiles s = Returns [] s)
    by (unfold getLogFiles, bind, get; now rewrite H).
  assert (R : reconfigure now s = Returns tt s)
    by (unfold reconfigure, bind, get; now rewrite H).
  split; [unfold write, bind, get; now rewrite H|].
  split; [exact R|]. split; [exact G|]. split.
  - unfold deleteLogFiles, bind at 1. rewrite G.
    unfold try_catch, bind. cbn [unlink_each ret]. now rewrite R.
  - unfold isConfigured, bind, get. now rewrite H.
Qed.

Lemma unconfigured_logger_is_inert_witness :
  config (logger (fresh no_faults)) = None
  /\ deleteLogFiles day1 (fresh no_faults) = Returns true (fresh no_faults).
Proof.
  split; [reflexivity|].
  pose proof (unconfigured_logger_is_inert (fresh no_faults) Info "" day1 day1
                eq_refl) as P.
  destruct P as (_ & _ & _ & P & _). exact P.
Defined.

(** ** The listing of the log files *)

Lemma endsWith_in_dir d n x :
  Str.endsWith n x = true -> Str.endsWith (d ++ "/" ++ n) x = true.
Proof. intros H. now do 2 apply endsWith_app. Qed.

(** X7.  [getLogFiles] never throws and only looks at the store.  Every
    path it returns is a file of the logs directory whose name ends in
    [.log]; when the listing returned, the result is the listing filtered
    by [.log], in order, and holds every such file; when it did not, the
    result is empty. *)
Theorem getLogFiles_lists_log_files (s : State) (c : InternalConfig) :
  config (logger s) = Some c ->
  exists paths s' evs,
    getLogFiles s = Returns paths s'
    /\ logger s' = logger s /\ same_disk s s'
    /\ events s s' evs /\ collects_only evs
    /\ (forall p, In p paths ->
          In p (paths_of s) /\ Str.endsWith p ".log" = true
          /\ exists name, Fs.split_path p = Some (logsDirectory c, name))
    /\ (In (ListFileSync (logsDirectory c), true) evs ->
        paths = push_log_files (logsDirectory c)
                  (Fs.names_in (logsDirectory c) (files (store s)))
        /\ forall p name,
             In p (paths_of s) ->
             Fs.split_path p = Some (logsDirectory c, name) ->
             Str.endsWith name ".log" = true ->
             In p paths)
    /\ (~ In (ListFileSync (logsDirectory c), true) evs -> paths = []).
Proof.
  intros Hc. pose proof (getLogFiles_spec s c Hc) as H. unfold wp in H.
  destruct (getLogFiles s) as [paths s'| |]; [|destruct H|destruct H].
  destruct H as (evs & (Hl & _ & Hev) & Hd & Hcase).
  exists paths, s', evs. split; [reflexivity|]. split; [exact Hl|].
  split; [exact Hd|]. split; [exact Hev|].
  assert (Hsound : forall p,
            In p (push_log_files (logsDirectory c)
                    (Fs.names_in (logsDirectory c) (files (store s)))) ->
            In p (paths_of s) /\ Str.endsWith p ".log" = true
            /\ exists name, Fs.split_path p = Some (logsDirectory c, name)).
  { intros p Hin. apply in_push_log_files in Hin as (name & -> & Hn & Hlog).
    apply in_names_in in Hn as (q & Hq & Hsp).
    destruct (split_path_inv _ _ _ Hsp) as [_ <-].
    split; [exact Hq|]. split; [|eauto].
    destruct (split_path_inv _ _ _ Hsp) as [_ ->].
    now apply endsWith_in_dir. }
  assert (Hcomplete : forall p name,
            In p (paths_of s) ->
            Fs.split_path p = Some (logsDirectory c, name) ->
            Str.endsWith name ".log" = true ->
            In p (push_log_files (logsDirectory c)
                    (Fs.names_in (logsDirectory c) (files (store s))))).
  { intros p name Hin Hsp Hlog. apply in_push_log_files. exists name.
    split; [now destruct (split_path_inv _ _ _ Hsp)|].
    split; [|exact Hlog]. apply in_names_in. eauto. }
  destruct Hcase as [(-> & Hevs)|(-> & ->)].
  - assert (Hno : ~ In (ListFileSync (logsDirectory c), true) evs).
    { destruct Hevs as [[ok ->]| ->]; simpl; intros [E|E];
        try discriminate E; try contradiction.
      destruct E as [E|[]]. discriminate E. }
    split.
    { destruct Hevs as [[ok ->]| ->]; intros e [<-|E]; try reflexivity;
        try contradiction. destruct E as [<-|[]]. reflexivity. }
    split; [intros p []|]. split; [intros E; contradiction|auto].
  - split.
    { intros e [<-|[<-|[]]]; reflexivity. }
    split; [exact Hsound|]. split; [auto|].
    intros Hno. exfalso. apply Hno. simpl. auto.
Qed.

Lemma getLogFiles_lists_log_files_witness :
  config (logger crowded_log) = Some config_t
  /\ exists s',
       getLogFiles crowded_log
       = Returns ["/logs/t-latest.log"; "/logs/t-1.log"; "/logs/other-7.log";
                  "/logs/other-latest.log"] s'.
Proof.
  split; [reflexivity|].
  pose proof (getLogFiles_lists_log_files crowded_log config_t eq_refl) as P.
  destruct P as (paths & s' & evs & P & _).
  exists s'. rewrite P. vm_compute in P. inversion P. reflexivity.
Defined.

(** When the directory exists and neither call is made to throw, the
    listing is what [getLogFiles] returns. *)
Lemma getLogFiles_listing s c :
  config (logger s) = Some c ->
  Fs.is_dir (logsDirectory c) (dirs (store s)) = true ->
  (forall t, faults (store s) t (AccessSync (logsDirectory c)) = false) ->
  (forall t, faults (store s) t (ListFileSync (logsDirectory c)) = false) ->
  exists s1,
    getLogFiles s
    = Returns (push_log_files (logsDirectory c)
                 (Fs.names_in (logsDirectory c) (files (store s)))) s1
    /\ frame s s1 [(AccessSync (logsDirectory c), true);
                   (ListFileSync (logsDirectory c), true)]
    /\ same_disk s s1.
Proof.
  intros Hc Hd Ha Hl.
  unfold getLogFiles, bind at 1, get. rewrite Hc.
  unfold try_catch, bind, accessSync, listFileSync, fs_call.
  rewrite Ha, Hd, orb_true_r. cbn. rewrite Hl.
  unfold Fs.is_dir in Hd. rewrite Hd. cbn.
  eexists. split; [reflexivity|]. split; [|split; reflexivity].
  unfold frame, same_env, events. cbn. rewrite <- app_assoc. auto.
Qed.

(** ** What an append leaves in the file *)

Lemma lookup_append_to_same p d m fl :
  Fs.lookup p (Fs.append_to p d m fl)
  = option_map (fun f => mkFile (f_data f ++ d) m) (Fs.lookup p fl).
Proof.
  unfold Fs.lookup. induction fl as [|[q f] fl IH]; [reflexivity|].
  cbn [Fs.append_to find fst]. destruct (String.eqb q p) eqn:E.
  - cbn [find fst]. rewrite E. reflexivity.
  - cbn [find fst]. rewrite E. exact IH.
Qed.

Lemma lookup_append_to_other p q d m fl :
  q <> p -> Fs.lookup q (Fs.append_to p d m fl) = Fs.lookup q fl.
Proof.
  intros Hne. unfold Fs.lookup. induction fl as [|[k f] fl IH]; [reflexivity|].
  cbn [Fs.append_to find fst]. destruct (String.eqb k p) eqn:E.
  - apply String.eqb_eq in E. subst k. cbn [find fst].
    assert (E' : String.eqb p q = false)
      by (apply String.eqb_neq; congruence).
    now rewrite E'.
  - cbn [find fst]. destruct (String.eqb k q); [reflexivity|exact IH].
Qed.

Lemma lookup_app_new p f fl :
  Fs.is_file p fl = false -> Fs.lookup p (fl ++ [(p, f)]) = Some f.
Proof.
  unfold Fs.lookup, Fs.is_file. induction fl as [|[k g] fl IH]; cbn.
  - now rewrite String.eqb_refl.
  - destruct (String.eqb k p); [discriminate|]. exact IH.
Qed.

Lemma lookup_app_other p q f fl :
  q <> p -> Fs.lookup q (fl ++ [(p, f)]) = Fs.lookup q fl.
Proof.
  intros Hne. unfold Fs.lookup. induction fl as [|[k g] fl IH]; cbn.
  - assert (E : String.eqb p q = false)
      by (apply String.eqb_neq; congruence).
    now rewrite E.
  - destruct (String.eqb k q); [reflexivity|exact IH].
Qed.

Lemma lookup_not_file p fl : Fs.is_file p fl = false -> Fs.lookup p fl = None.
Proof.
  unfold Fs.lookup, Fs.is_file. induction fl as [|[k g] fl IH]; cbn; auto.
  destruct (String.eqb k p); [discriminate|]. exact IH.
Qed.

Lemma is_file_lookup p fl :
  Fs.is_file p fl = true -> exists f, Fs.lookup p fl = Some f.
Proof.
  unfold Fs.lookup, Fs.is_file. induction fl as [|[k g] fl IH]; cbn;
    [discriminate|].
  destruct (String.eqb k p); cbn; eauto.
Qed.

Lemma is_file_app_new p f fl : Fs.is_file p (fl ++ [(p, f)]) = true.
Proof.
  unfold Fs.is_file. rewrite existsb_app. cbn.
  now rewrite String.eqb_refl, orb_true_r.
Qed.

(** The bytes of an append to [cur] and the counter: the file grows when
    the write returned, the counter when the close returned too. *)
Lemma writeToFile_contents (content : string) (s : State)
  (c : InternalConfig) (cur : string) :
  config (logger s) = Some c ->
  currentLogFile (logger s) = cur ->
  cur <> "" ->
  exists s' evs,
    writeToFile content s = Returns tt s'
    /\ events s s' evs
    /\ (forall p, p <> cur ->
          Fs.lookup p (files (store s')) = Fs.lookup p (files (store s)))
    /\ (In (WriteSync cur (Str.TextEncoder_encodeInto content), true)
           evs ->
        data_at cur (files (store s'))
        = (data_at cur (files (store s))
           ++ Str.TextEncoder_encodeInto content)%list)
    /\ (~ In (WriteSync cur (Str.TextEncoder_encodeInto content),
              true) evs ->
        data_at cur (files (store s'))
        = data_at cur (files (store s)))
    /\ (In (CloseSync cur, true) evs ->
        currentFileSize (logger s')
        = currentFileSize (logger s) + Z.of_nat (String.length content))
    /\ (~ In (CloseSync cur, true) evs ->
        currentFileSize (logger s') = currentFileSize (logger s)).
Proof.
  intros Hc Hcur Hn.
  assert (Hne : String.eqb cur "" = false) by now apply String.eqb_neq.
  unfold writeToFile, bind at 1, get. rewrite Hc. unfold bind at 1.
  rewrite Hcur, Hne.
  unfold try_catch, bind, openSync, writeSync, closeSync, fs_call, get,
    set_currentFileSize, modify, ret.
  destruct s as [lg [ds fl tk ft mc tr]]. cbn in Hc, Hcur; fs_step.
  unfold events, data_at. fs_step.
  set (bytes := Str.TextEncoder_encodeInto content).
  destruct (ft tk (OpenSync cur)) eqn:Fo.
  { fs_step. eexists _, [_]. split; [reflexivity|]. fs_step.
    split; [reflexivity|]. split; [auto|].
    split; [intros [E|[]]; discriminate E|]. split; [auto|].
    split; [intros [E|[]]; discriminate E|auto]. }
  destruct (Fs.is_file cur fl) eqn:Ef.
  - fs_step. destruct (ft (S tk) (WriteSync cur bytes)) eqn:Fw.
    { fs_step. eexists _, [_; _]. split; [reflexivity|]. fs_step.
      rewrite <- app_assoc. split; [reflexivity|]. split; [auto|].
      split; [intros [E|[E|[]]]; discriminate E|]. split; [auto|].
      split; [intros [E|[E|[]]]; discriminate E|auto]. }
    rewrite Ef. fs_step.
    destruct (ft (S (S tk)) (CloseSync cur)) eqn:Fc.
    + fs_step. eexists _, [_; _; _]. split; [reflexivity|]. fs_step.
      rewrite <- !app_assoc. split; [reflexivity|].
      split; [intros p Hp; now apply lookup_append_to_other|].
      destruct (is_file_lookup _ _ Ef) as [f Hf].
      split.
      { intros _. rewrite lookup_append_to_same, Hf. reflexivity. }
      split; [intros H; exfalso; apply H; auto|].
      split; [intros [E|[E|[E|[]]]]; discriminate E|auto].
    + fs_step. eexists _, [_; _; _]. split; [reflexivity|]. fs_step.
      rewrite <- !app_assoc. split; [reflexivity|].
      split; [intros p Hp; now apply lookup_append_to_other|].
      destruct (is_file_lookup _ _ Ef) as [f Hf].
      split.
      { intros _. rewrite lookup_append_to_same, Hf. reflexivity. }
      split; [intros H; exfalso; apply H; auto|].
      split; [auto|]. intros H; exfalso; apply H; auto.
  - destruct (Fs.is_dir cur ds) eqn:Ed.
    { fs_step. eexists _, [_]. split; [reflexivity|]. fs_step.
      split; [reflexivity|]. split; [auto|].
      split; [intros [E|[]]; discriminate E|]. split; [auto|].
      split; [intros [E|[]]; discriminate E|auto]. }
    destruct (Fs.parent_exists cur ds) eqn:Ep.
    2:{ fs_step. eexists _, [_]. split; [reflexivity|]. fs_step.
        split; [reflexivity|]. split; [auto|].
        split; [intros [E|[]]; discriminate E|]. split; [auto|].
        split; [intros [E|[]]; discriminate E|auto]. }
    fs_step. destruct (ft (S tk) (WriteSync cur bytes)) eqn:Fw.
    { fs_step. eexists _, [_; _]. split; [reflexivity|]. fs_step.
      rewrite <- app_assoc. split; [reflexivity|].
      split; [intros p Hp; now apply lookup_app_other|].
      split; [intros [E|[E|[]]]; discriminate E|].
      split.
      { intros _. rewrite lookup_app_new, lookup_not_file by exact Ef.
        reflexivity. }
      split; [intros [E|[E|[]]]; discriminate E|auto]. }
    rewrite is_file_app_new. fs_step.
    destruct (ft (S (S tk)) (CloseSync cur)) eqn:Fc.
    + fs_step. eexists _, [_; _; _]. split; [reflexivity|]. fs_step.
      rewrite <- !app_assoc. split; [reflexivity|].
      split.
      { intros p Hp. rewrite lookup_append_to_other by exact Hp.
        now apply lookup_app_other. }
      split.
      { intros _. rewrite lookup_append_to_same, lookup_app_new,
          lookup_not_file by exact Ef. reflexivity. }
      split; [intros H; exfalso; apply H; auto|].
      split; [intros [E|[E|[E|[]]]]; discriminate E|auto].
    + fs_step. eexists _, [_; _; _]. split; [reflexivity|]. fs_step.
      rewrite <- !app_assoc. split; [reflexivity|].
      split.
      { intros p Hp. rewrite lookup_append_to_other by exact Hp.
        now apply lookup_app_other. }
      split.
      { intros _. rewrite lookup_append_to_same, lookup_app_new,
          lookup_not_file by exact Ef. reflexivity. }
      split; [intros H; exfalso; apply H; auto|].
      split; [auto|]. intros H; exfalso; apply H; auto.
Qed.

(** X8.  [writeToFile] on a configured logger always returns and touches
    no file but the live one.  The live file grows by the UTF-8 bytes of the
    content exactly when the write call returned; the size counter grows by
    the length of the content exactly when the close call returned too.  So
    when the close throws the bytes are in the file and the counter has not
    moved.  No directory changes and no file disappears. *)
Theorem append_grows_live_file (content : string) (s : State)
  (c : InternalConfig) :
  configured c s ->
  exists s' evs,
    writeToFile content s = Returns tt s'
    /\ events s s' evs
    /\ dirs (store s') = dirs (store s)
    /\ (forall p, In p (paths_of s) -> In p (paths_of s'))
    /\ (forall p, p <> live_path c ->
          Fs.lookup p (files (store s')) = Fs.lookup p (files (store s)))
    /\ (In (WriteSync (live_path c) (Str.TextEncoder_encodeInto content), true)
           evs ->
        data_at (live_path c) (files (store s'))
        = (data_at (live_path c) (files (store s))
           ++ Str.TextEncoder_encodeInto content)%list)
    /\ (~ In (WriteSync (live_path c) (Str.TextEncoder_encodeInto content),
              true) evs ->
        data_at (live_path c) (files (store s'))
        = data_at (live_path c) (files (store s)))
    /\ (In (CloseSync (live_path c), true) evs ->
        currentFileSize (logger s')
        = currentFileSize (logger s) + Z.of_nat (String.length content))
    /\ (~ In (CloseSync (live_path c), true) evs ->
        currentFileSize (logger s') = currentFileSize (logger s)).
Proof.
  intros [Hc Hcur].
  destruct (writeToFile_contents content s c (live_path c) Hc Hcur
              (live_path_nonempty c))
    as (s' & evs & Hrun & Hev & Hrest).
  exists s', evs. split; [exact Hrun|]. split; [exact Hev|].
  assert (Hne : currentLogFile (logger s) <> "")
    by (rewrite Hcur; apply live_path_nonempty).
  pose proof (writeToFile_spec content s c Hc Hne) as Hw. unfold wp in Hw.
  rewrite Hrun in Hw. destruct Hw as (_ & Hd & _ & Hkeep & _).
  split; [exact Hd|]. split; [exact Hkeep|exact Hrest].
Qed.


Lemma append_grows_live_file_witness :
  configured config_t full_log
  /\ exists s', writeToFile "x" full_log = Returns tt s'.
Proof.
  assert (H : configured config_t full_log) by (split; reflexivity).
  split; [exact H|].
  pose proof (append_grows_live_file "x" full_log config_t H) as P.
  destruct P as (s' & evs & P & _). exists s'. exact P.
Defined.

(** ** A write as a whole *)

(** A write is the rotation check, with the outcome of [rotateLogFile] when
    a rotation is due, followed by the append. *)
Lemma write_spec c s level message now stamp :
  configured c s ->
  wp (write level message now stamp)
    (fun _ s' =>
       exists s1,
         ((rotation_needed c (logger s) (formatDate now) = false /\ s1 = s)
          \/ (rotation_needed c (logger s) (formatDate now) = true
              /\ rotate_post c
                   (mkState (dated (formatDate now) c (logger s)) (store s))
                   s1))
         /\ checkAndRotate now s = Returns tt s1
         /\ config (logger s1) = Some c
         /\ currentLogFile (logger s1) = live_path c
         /\ writeToFile (logEntry level message stamp) s1 = Returns tt s'
         /\ append_post (logEntry level message stamp) s1 s')
    (fun _ => False)
    (rotation_needed c (logger s) (formatDate now) = true
     /\ maximumNumberOfFiles c <= 0) s.
Proof.
  intros [Hc Hcur]. unfold wp.
  pose proof (checkAndRotate_eq s c now Hc) as Heq.
  unfold write, bind at 1, get. rewrite Hc. unfold bind. rewrite Heq.
  destruct (rotation_needed c (logger s) (formatDate now)) eqn:En.
  - set (s0 := mkState (dated (formatDate now) c (logger s)) (store s)).
    assert (Hc0 : config (logger s0) = Some c).
    { unfold s0, dated. cbn. now destruct (_ && _). }
    assert (Hcur0 : currentLogFile (logger s0) = live_path c).
    { unfold s0, dated. cbn. now destruct (_ && _). }
    pose proof (rotate_spec s0 c Hc0) as Hr. unfold wp in Hr.
    destruct (rotateLogFile s0) as [[] s1| |] eqn:Er; [|exact Hr|split; auto].
    assert (Hl1 : config (logger s1) = Some c
                  /\ currentLogFile (logger s1) = live_path c).
    { destruct Hr as [(Hl & _)|(s2 & pre & Hl & _ & _ & _ & _ & Hpost)].
      - rewrite Hl. cbn. auto.
      - destruct Hpost as (e0 & st & e1 & (Hl' & _) & _). rewrite Hl', Hl.
        cbn. auto. }
    destruct Hl1 as (Hc1 & Hcur1).
    assert (Hne1 : currentLogFile (logger s1) <> "")
      by (rewrite Hcur1; apply live_path_nonempty).
    pose proof (writeToFile_spec (logEntry level message stamp) s1 c Hc1 Hne1)
      as Hw. unfold wp in Hw.
    destruct (writeToFile _ s1) as [[] s'| |] eqn:Ew; [|exact Hw|destruct Hw].
    exists s1. split; [right; split; [reflexivity|exact Hr]|].
    split; [reflexivity|]. auto.
  - assert (Hne : currentLogFile (logger s) <> "")
      by (rewrite Hcur; apply live_path_nonempty).
    pose proof (writeToFile_spec (logEntry level message stamp) s c Hc Hne)
      as Hw. unfold wp in Hw.
    destruct (writeToFile _ s) as [[] s'| |] eqn:Ew; [|exact Hw|destruct Hw].
    exists s. split; [left; auto|]. split; [reflexivity|]. auto.
Qed.

Lemma append_post_size content s s' :
  append_post content s s' ->
  currentFileSize (logger s') <=
  currentFileSize (logger s) + Z.of_nat (String.length content)
  /\ exists evs, events s s' evs.
Proof.
  intros (_ & _ & _ & _ & [(He & Hl)|(Hl & He)]).
  - rewrite Hl. cbn. split; [lia|eauto].
  - rewrite Hl. split; [lia|]. destruct He as [He|[He|He]]; eauto.
Qed.

Lemma dated_size today c t :
  currentFileSize (dated today c t) = currentFileSize t.
Proof. unfold dated. now destruct (_ && _). Qed.

Lemma dated_file today c t :
  currentLogFile (dated today c t) = currentLogFile t.
Proof. unfold dated. now destruct (_ && _). Qed.

(** X9.  With a positive size limit, after a write whose access check and
    rename of the live file did not throw, the size counter is below the
    limit plus the length of the entry just written. *)
Theorem write_bounds_size_counter (s s' : State) (c : InternalConfig)
  (level : LogLevel) (message : string) (now stamp : Date)
  (evs : list (FsCall * bool)) :
  configured c s ->
  0 < maximumFileSize c ->
  write level message now stamp s = Returns tt s' ->
  events s s' evs ->
  ~ In (AccessSync (live_path c), false) evs ->
  (forall b, ~ In (RenameSync (live_path c) b, false) evs) ->
  currentFileSize (logger s')
  < maximumFileSize c
    + Z.of_nat (String.length (logEntry level message stamp)).
Proof.
  intros Hcfg Hmax Hrun Hev Hacc Hren.
  pose proof (write_spec c s level message now stamp Hcfg) as H.
  unfold wp in H. rewrite Hrun in H.
  destruct H as (s1 & Hrot & _ & _ & _ & _ & Happ).
  destruct (append_post_size _ _ _ Happ) as [Hsz [evsW HevW]].
  destruct Hrot as [[En ->]|[En Hr]].
  - unfold rotation_needed in En. apply orb_false_iff in En as [_ En]. lia.
  - destruct Hcfg as [Hc Hcur].
    set (s0 := mkState (dated (formatDate now) c (logger s)) (store s)) in *.
    assert (Hcur0 : currentLogFile (logger s0) = live_path c)
      by (unfold s0; cbn; now rewrite dated_file).
    destruct Hr as [(Hl & _ & _ & Hcase)|(s2 & pre & Hl & _ & _ & _ & _ & Hpost)].
    + exfalso. rewrite Hcur0 in Hcase.
      assert (Hcase' :
                events s s1 [(AccessSync (live_path c), false)]
                \/ events s s1
                     [(AccessSync (live_path c), true);
                      (RenameSync (live_path c) (rotated_path c (logger s0)),
                       false)]) by exact Hcase.
      destruct Hcase' as [He|He];
        pose proof (events_inj _ _ _ _ Hev (events_trans _ _ _ _ _ He HevW))
          as ->.
      * apply Hacc. cbn. auto.
      * apply (Hren (rotated_path c (logger s0))). cbn. auto.
    + destruct Hpost as (e0 & st & e1 & (Hl' & _) & _).
      rewrite Hl', Hl in Hsz. cbn in Hsz. lia.
Qed.

Lemma write_bounds_size_counter_witness :
  (configured config_t full_log
   /\ 0 < maximumFileSize config_t
   /\ write Info "aaaaa" day1 day1 full_log = Returns tt rotated_log
   /\ events full_log rotated_log
        (skipn (length (trace (store full_log))) (trace (store rotated_log))))
  /\ currentFileSize (logger rotated_log) < 50 + 36.
Proof.
  assert (H1 : configured config_t full_log) by (split; reflexivity).
  assert (H2 : 0 < maximumFileSize config_t) by (cbn; lia).
  assert (H3 : write Info "aaaaa" day1 day1 full_log = Returns tt rotated_log)
    by (vm_compute; reflexivity).
  assert (H4 : events full_log rotated_log
                 (skipn (length (trace (store full_log)))
                    (trace (store rotated_log))))
    by (vm_compute; reflexivity).
  split; [auto|].
  pose proof (write_bounds_size_counter full_log rotated_log config_t Info
                "aaaaa" day1 day1 _ H1 H2 H3 H4) as P.
  assert (Ha : ~ In (AccessSync (live_path config_t), false)
                    (skipn (length (trace (store full_log)))
                       (trace (store rotated_log)))).
  { vm_compute. intuition discriminate. }
  assert (Hr : forall b, ~ In (RenameSync (live_path config_t) b, false)
                    (skipn (length (trace (store full_log)))
                       (trace (store rotated_log)))).
  { intros b. vm_compute. intuition discriminate. }
  specialize (P Ha Hr). vm_compute in P. vm_compute. exact P.
Defined.

(** ** What a write leaves alone *)

Lemma rotated_path_log c t : Str.endsWith (rotated_path c t) ".log" = true.
Proof.
  unfold rotated_path. apply endsWith_in_dir.
  unfold rotatedFileName. destruct (dailyRolling c); rewrite <- !append_assoc;
    apply endsWith_suffix.
Qed.

Lemma live_path_log c : Str.endsWith (live_path c) ".log" = true.
Proof.
  unfold live_path, liveFileName. apply endsWith_in_dir.
  change "-latest.log" with ("-latest" ++ ".log").
  rewrite <- append_assoc. apply endsWith_suffix.
Qed.

Lemma in_paths_rename_keep a b fl p :
  In p (map fst fl) -> p <> a -> In p (map fst (Fs.rename_in a b fl)).
Proof.
  intros Hin Hne. induction fl as [|[q f] fl IH]; [contradiction|].
  cbn [Fs.rename_in]. destruct (String.eqb q a) eqn:E.
  - apply String.eqb_eq in E. subst q. destruct Hin as [Hin|Hin].
    + cbn in Hin. congruence.
    + right. exact Hin.
  - destruct Hin as [Hin|Hin]; [left; exact Hin|right; auto].
Qed.

Lemma in_paths_renamed_keep a b fl p :
  In p (map fst fl) -> p <> a -> p <> b -> In p (map fst (renamed a b fl)).
Proof.
  intros Hin Ha Hb. unfold renamed. destruct (String.eqb a b); [exact Hin|].
  apply in_paths_rename_keep; [|exact Ha]. apply in_paths_remove. auto.
Qed.

Lemma cleanup_post_keeps c s s' p :
  cleanup_post c s s' ->
  In p (paths_of s) -> Str.endsWith p ".log" = false -> In p (paths_of s').
Proof.
  intros (evs0 & stats & evs1 & _ & _ & _ & Hst & _ & Hm & Hp & _) Hin Hlog.
  apply Hp. split; [exact Hin|]. intros Hun.
  pose proof (unlink_is_victim _ _ _ _ Hm Hun) as Hv.
  apply in_map_iff in Hv as ([q m] & Hq & Hl). cbn in Hq. subst q.
  apply in_firstn in Hl.
  apply (Permutation_in _ (Permutation_sym (sort_by_mtime_perm stats))) in Hl.
  destruct (Hst p m Hl) as (name & f & -> & _ & Hn & _).
  rewrite (endsWith_in_dir _ _ _ Hn) in Hlog. discriminate.
Qed.

Lemma cleanup_post_paths c s s' p :
  cleanup_post c s s' -> In p (paths_of s') -> In p (paths_of s).
Proof.
  intros (evs0 & stats & evs1 & _ & _ & _ & _ & _ & _ & Hp & _) Hin.
  now apply Hp in Hin.
Qed.

(** X10.  A write creates and removes no directory, leaves on disk every
    file whose path does not end in [.log], and adds no path other than the
    live file and the rotated file. *)
Theorem write_keeps_other_files (s s' : State) (c : InternalConfig)
  (level : LogLevel) (message : string) (now stamp : Date) :
  configured c s ->
  write level message now stamp s = Returns tt s' ->
  dirs (store s') = dirs (store s)
  /\ (forall p, In p (paths_of s) -> Str.endsWith p ".log" = false ->
        In p (paths_of s'))
  /\ (forall p, In p (paths_of s') ->
        In p (paths_of s) \/ p = live_path c
        \/ p = rotated_path c (dated (formatDate now) c (logger s))).
Proof.
  intros Hcfg Hrun.
  pose proof (write_spec c s level message now stamp Hcfg) as H.
  unfold wp in H. rewrite Hrun in H.
  destruct H as (s1 & Hrot & _ & _ & Hcur1 & _ & Happ).
  destruct Happ as (_ & Hd & Hnew & Hkeep & _). rewrite Hcur1 in Hnew.
  assert (Hmid : dirs (store s1) = dirs (store s)
                 /\ (forall p, In p (paths_of s) ->
                       Str.endsWith p ".log" = false -> In p (paths_of s1))
                 /\ (forall p, In p (paths_of s1) ->
                       In p (paths_of s)
                       \/ p = rotated_path c
                                (dated (formatDate now) c (logger s)))).
  { destruct Hrot as [[_ ->]|[_ Hr]]; [auto|].
    destruct Hcfg as [Hc Hcur].
    set (s0 := mkState (dated (formatDate now) c (logger s)) (store s)) in *.
    assert (Hcur0 : currentLogFile (logger s0) = live_path c)
      by (unfold s0; cbn; now rewrite dated_file).
    destruct Hr as [(_ & [Hds Hfs] & _)
                   |(s2 & pre & _ & _ & Hds & _ & Hfiles & Hpost)].
    - unfold paths_of. rewrite Hfs, Hds. cbn. auto.
    - assert (Hds' : dirs (store s1) = dirs (store s2))
        by (destruct Hpost as (e0 & st & e1 & _ & Hx & _); exact Hx).
      split; [rewrite Hds', Hds; reflexivity|]. split.
      + intros p Hin Hlog. eapply cleanup_post_keeps; [exact Hpost| |exact Hlog].
        unfold paths_of.
        destruct Hfiles as [(_ & ->)|(_ & _ & ->)]; [exact Hin|].
        apply in_paths_renamed_keep; [exact Hin| |].
        * intros ->. rewrite Hcur0, live_path_log in Hlog. discriminate.
        * intros ->. rewrite rotated_path_log in Hlog. discriminate.
      + intros p Hin. apply (cleanup_post_paths _ _ _ _ Hpost) in Hin.
        unfold paths_of in Hin.
        destruct Hfiles as [(_ & E)|(_ & _ & E)]; rewrite E in Hin;
          [left; exact Hin|].
        apply in_paths_renamed in Hin as [Hin|Hin]; [left; exact Hin|].
        right. exact Hin. }
  destruct Hmid as (Hd1 & Hk1 & Hn1).
  split; [now rewrite Hd, Hd1|]. split.
  - intros p Hin Hlog. apply Hkeep. now apply Hk1.
  - intros p Hin. destruct (Hnew p Hin) as [H1|H1]; [|auto].
    destruct (Hn1 p H1); auto.
Qed.

Lemma write_keeps_other_files_witness :
  (configured config_t crowded_log
   /\ exists s', write Info "aaaaa" day1 day1 crowded_log = Returns tt s')
  /\ exists s', write Info "aaaaa" day1 day1 crowded_log = Returns tt s'
                /\ In "/logs/notes.txt" (paths_of s').
Proof.
  assert (H1 : configured config_t crowded_log) by (split; reflexivity).
  assert (H2 : exists s', write Info "aaaaa" day1 day1 crowded_log
                          = Returns tt s').
  { destruct (write Info "aaaaa" day1 day1 crowded_log) as [[] s'| |] eqn:E;
      [exists s'; reflexivity|vm_compute in E; discriminate E
      |vm_compute in E; discriminate E]. }
  split; [auto|]. destruct H2 as [s' H2]. exists s'. split; [exact H2|].
  pose proof (write_keeps_other_files crowded_log s' config_t Info "aaaaa"
                day1 day1 H1 H2) as P.
  destruct P as (_ & P & _). apply P; [|reflexivity].
  cbn. auto 10.
Defined.

(** ** Retention without a budget *)

Lemma try_unlink_returns p s :
  exists s', try_catch (unlinkSync p) (ret tt) s = Returns tt s'.
Proof.
  unfold try_catch, unlinkSync, fs_call, ret.
  destruct (faults _ _ _); [eauto|].
  destruct (Fs.is_file _ _); eauto.
Qed.

Lemma delete_oldest_diverges maxFiles l :
  maxFiles <= 0 -> forall s, delete_oldest maxFiles l s = Diverges.
Proof.
  intros Hm. induction l as [|x l IH]; intros s; cbn [delete_oldest].
  - destruct (0 >=? maxFiles) eqn:E; [reflexivity|lia].
  - destruct (Z.of_nat (length (x :: l)) >=? maxFiles) eqn:E; [|lia].
    unfold bind. destruct (try_unlink_returns (fst x) s) as [s' ->].
    apply IH.
Qed.

(** X11.  With [maximumNumberOfFiles] at most 0 the loop of
    [cleanupOldLogFiles] never ends, whatever the directory holds; a
    rotation then returns only when its access check or its rename
    threw. *)
Theorem retention_never_ends_without_budget (s : State) (c : InternalConfig) :
  config (logger s) = Some c ->
  maximumNumberOfFiles c <= 0 ->
  cleanupOldLogFiles s = Diverges
  /\ match rotateLogFile s with
     | Returns _ s' =>
         events s s' [(AccessSync (currentLogFile (logger s)), false)]
         \/ events s s'
              [(AccessSync (currentLogFile (logger s)), true);
               (RenameSync (currentLogFile (logger s))
                           (rotated_path c (logger s)), false)]
     | Throws _ => False
     | Diverges => True
     end.
Proof.
  intros Hc Hm. split.
  - unfold cleanupOldLogFiles, bind at 1, get. rewrite Hc. unfold bind.
    pose proof (getLogFiles_spec s c Hc) as Hg. unfold wp in Hg.
    destruct (getLogFiles s) as [paths s1| |]; [|destruct Hg|destruct Hg].
    pose proof (collect_stats_spec paths [] s1) as Hs. unfold wp in Hs.
    destruct (collect_stats paths [] s1) as [stats s2| |];
      [|destruct Hs|destruct Hs].
    now apply delete_oldest_diverges.
  - pose proof (rotate_spec s c Hc) as Hr. unfold wp in Hr.
    destruct (rotateLogFile s) as [[] s'| |]; [|exact Hr|exact I].
    destruct Hr as [(_ & _ & _ & Hcase)|(s2 & pre & _ & _ & _ & _ & _ & Hpost)];
      [exact Hcase|].
    destruct Hpost as (e0 & st & e1 & _ & _ & _ & _ & _ & _ & _ & _ & Hn).
    lia.
Qed.

Lemma retention_never_ends_without_budget_witness :
  (config (logger no_budget_log) = Some no_budget_config
   /\ maximumNumberOfFiles no_budget_config <= 0)
  /\ cleanupOldLogFiles no_budget_log = Diverges.
Proof.
  assert (H1 : config (logger no_budget_log) = Some no_budget_config)
    by reflexivity.
  assert (H2 : maximumNumberOfFiles no_budget_config <= 0) by (cbn; lia).
  split; [auto|].
  pose proof (retention_never_ends_without_budget no_budget_log
                no_budget_config H1 H2) as P.
  destruct P as [P _]. exact P.
Defined.

(** ** Running recovery again *)

(** X12.  [reconfigure] on a configured logger returns and keeps the
    configuration field by field (a value that is 0, [false] or the empty
    string is not replaced by a default); the live path is the same, the
    date stamp is the one of the call, and no file changes. *)
Theorem reconfigure_keeps_configuration (s : State) (c : InternalConfig)
  (now : Date) :
  config (logger s) = Some c ->
  exists s',
    reconfigure now s = Returns tt s'
    /\ configured c s'
    /\ getConfig s' = Returns (Some c) s'
    /\ currentDate (logger s') = formatDate now
    /\ files (store s') = files (store s).
Proof.
  intros Hc. unfold reconfigure, bind, get. rewrite Hc.
  destruct (configure_spec (as_options c) now s)
    as (s' & size & index & e0 & e1 & e2 & Hrun & Hl & _ & Hf & _).
  rewrite resolve_as_options in Hl.
  exists s'. split; [exact Hrun|]. unfold configured, getConfig, get.
  rewrite Hl. cbn. auto.
Qed.

Lemma reconfigure_keeps_configuration_witness :
  config (logger full_log) = Some config_t
  /\ exists s', reconfigure day2 full_log = Returns tt s'
                /\ configured config_t s'.
Proof.
  split; [reflexivity|].
  pose proof (reconfigure_keeps_configuration full_log config_t day2 eq_refl)
    as P.
  destruct P as (s' & P & Q & _). exists s'. split; [exact P|exact Q].
Defined.

(** ** Deleting the log files *)

Lemma is_file_in p fl : Fs.is_file p fl = true -> In p (map fst fl).
Proof.
  unfold Fs.is_file. intros H. apply existsb_exists in H as ([q f] & Hin & E).
  apply String.eqb_eq in E. cbn in E. subst q.
  apply in_map_iff. exists (p, f). auto.
Qed.

Lemma max_parsed_index_none prefix names :
  (forall n, In n names -> parseIndex prefix n = None) ->
  max_parsed_index prefix names = 0.
Proof.
  induction names as [|n names IH]; intros H; [reflexivity|].
  cbn [max_parsed_index]. rewrite (H n (or_introl eq_refl)).
  apply IH. intros m Hm. apply H. now right.
Qed.

Lemma parseIndex_not_log prefix n :
  Str.endsWith n ".log" = false -> parseIndex prefix n = None.
Proof.
  intros H. unfold parseIndex. rewrite H, andb_false_r. reflexivity.
Qed.

Lemma live_name_no_slash prefix :
  Str.no_slash prefix = true -> Str.no_slash (liveFileName prefix) = true.
Proof. intros H. unfold liveFileName. now rewrite no_slash_app, H. Qed.

(** X13.  When the logs directory exists, its access check and listing are
    not made to throw, the prefix has no slash and [deleteLogFiles] returns
    [true], then no entry of the directory ends in [.log] any more, the size
    counter and the index are 0, the logger is still configured, and every
    file whose path does not end in [.log] is still there. *)
Theorem deleteLogFiles_resets_counters (s s' : State) (c : InternalConfig)
  (now : Date) :
  configured c s ->
  Str.no_slash (logPrefix c) = true ->
  Fs.is_dir (logsDirectory c) (dirs (store s)) = true ->
  (forall t, faults (store s) t (AccessSync (logsDirectory c)) = false) ->
  (forall t, faults (store s) t (ListFileSync (logsDirectory c)) = false) ->
  deleteLogFiles now s = Returns true s' ->
  configured c s'
  /\ currentFileSize (logger s') = 0
  /\ currentFileIndex (logger s') = 0
  /\ (forall name,
        In name (Fs.names_in (logsDirectory c) (files (store s'))) ->
        Str.endsWith name ".log" = false)
  /\ (forall p, In p (paths_of s) -> Str.endsWith p ".log" = false ->
        In p (paths_of s')).
Proof.
  intros [Hc Hcur] Hns Hd Ha Hl Hrun.
  destruct (getLogFiles_listing s c Hc Hd Ha Hl)
    as (s1 & Hg & (Hl1 & _ & _) & (_ & Hf1)).
  set (paths := push_log_files (logsDirectory c)
                  (Fs.names_in (logsDirectory c) (files (store s)))) in *.
  unfold deleteLogFiles, bind at 1 in Hrun. rewrite Hg in Hrun.
  unfold try_catch, bind in Hrun.
  pose proof (unlink_each_spec paths s1) as Hu. unfold wp in Hu.
  destruct (unlink_each paths s1) as [[] s2| |];
    [|discriminate Hrun|destruct Hu].
  destruct Hu as ((Hl2 & _ & _) & _ & Hf2).
  assert (Hc2 : config (logger s2) = Some c) by now rewrite Hl2, Hl1.
  unfold reconfigure, bind, get in Hrun. rewrite Hc2 in Hrun.
  destruct (configure_spec (as_options c) now s2)
    as (s3 & size & index & e0 & e1 & e2 & Hcf & Hl3 & _ & Hf3 & _ & _
        & Hsize & Hindex).
  rewrite Hcf in Hrun. unfold ret in Hrun. injection Hrun as <-.
  rewrite resolve_as_options in Hl3, Hsize, Hindex.
  rewrite Hf2, Hf1 in Hsize, Hindex, Hf3.
  assert (Hgone : forall p, In p (map fst (remove_all paths (files (store s)))) ->
                  Str.endsWith p ".log" = true ->
                  forall name, Fs.split_path p = Some (logsDirectory c, name) ->
                  False).
  { intros p Hin Hlog name Hsp. apply in_paths_remove_all in Hin as [Hin Hno].
    apply Hno. unfold paths. apply in_push_log_files. exists name.
    destruct (split_path_inv _ _ _ Hsp) as [Hnn Hp].
    split; [exact Hp|]. split; [apply in_names_in; eauto|].
    rewrite Hp in Hlog. now rewrite endsWith_path in Hlog. }
  assert (Hnames : forall name,
            In name (Fs.names_in (logsDirectory c)
                       (remove_all paths (files (store s)))) ->
            Str.endsWith name ".log" = false).
  { intros name Hin. destruct (Str.endsWith name ".log") eqn:E; [|reflexivity].
    exfalso. apply in_names_in in Hin as (q & Hq & Hsp).
    eapply Hgone; [exact Hq| |exact Hsp].
    destruct (split_path_inv _ _ _ Hsp) as [_ ->].
    now apply endsWith_in_dir. }
  split; [split; rewrite Hl3; reflexivity|].
  split.
  { rewrite Hl3. cbn.
    destruct Hsize as [(f & _ & Hlk & _)|[Hz _]]; [exfalso|exact Hz].
    apply lookup_is_file, is_file_in in Hlk.
    eapply Hgone; [exact Hlk|apply live_path_log|].
    unfold live_path. apply split_path_join. now apply live_name_no_slash. }
  split.
  { rewrite Hl3. cbn. destruct Hindex as [[_ ->]|[_ ->]]; [|reflexivity].
    apply max_parsed_index_none. intros n Hn.
    apply parseIndex_not_log. now apply Hnames. }
  split; [rewrite Hf3; exact Hnames|].
  intros p Hin Hlog. unfold paths_of. rewrite Hf3.
  apply in_paths_remove_all. split; [exact Hin|].
  intros Hp. unfold paths in Hp.
  apply in_push_log_files in Hp as (name & -> & _ & Hn).
  rewrite (endsWith_in_dir _ _ _ Hn) in Hlog. discriminate.
Qed.

Lemma deleteLogFiles_resets_counters_witness :
  (configured config_t crowded_log
   /\ Str.no_slash (logPrefix config_t) = true
   /\ Fs.is_dir (logsDirectory config_t) (dirs (store crowded_log)) = true
   /\ (forall t, faults (store crowded_log) t
                   (AccessSync (logsDirectory config_t)) = false)
   /\ (forall t, faults (store crowded_log) t
                   (ListFileSync (logsDirectory config_t)) = false)
   /\ deleteLogFiles day2 crowded_log = Returns true emptied_log)
  /\ currentFileSize (logger emptied_log) = 0
  /\ paths_of emptied_log = ["/logs/notes.txt"].
Proof.
  assert (H1 : configured config_t crowded_log) by (split; reflexivity).
  assert (H2 : Str.no_slash (logPrefix config_t) = true) by reflexivity.
  assert (H3 : Fs.is_dir (logsDirectory config_t) (dirs (store crowded_log))
               = true) by reflexivity.
  assert (H4 : forall t, faults (store crowded_log) t
                           (AccessSync (logsDirectory config_t)) = false)
    by reflexivity.
  assert (H5 : forall t, faults (store crowded_log) t
                           (ListFileSync (logsDirectory config_t)) = false)
    by reflexivity.
  assert (H6 : deleteLogFiles day2 crowded_log = Returns true emptied_log)
    by (vm_compute; reflexivity).
  split; [auto 10|].
  pose proof (deleteLogFiles_resets_counters crowded_log emptied_log config_t
                day2 H1 H2 H3 H4 H5 H6) as P.
  destruct P as (_ & P & _). split; [exact P|]. vm_compute. reflexivity.
Defined.

(** ** The bridge module *)

(** X14.  [TurboLogModule.configure] always configures the logger with
    the prefix [turbo-log]; a non-empty [logsDirectory] option is used as it
    is, otherwise the cache directory of the context, or the fixed path
    when reading it throws, so the directory is empty only when the cache
    directory is; the other three options pass through with the defaults of
    [configure]. *)
Theorem module_configure_fixes_prefix
  (options : TurboLogModule.JSConfigureOptions) (cacheDir : option string)
  (now : Date) (s : State) :
  exists s' c,
    TurboLogModule.configure options cacheDir now s = Returns tt s'
    /\ configured c s'
    /\ logPrefix c = "turbo-log"
    /\ Str.no_slash (logPrefix c) = true
    /\ currentLogFile (logger s') = logsDirectory c ++ "/turbo-log-latest.log"
    /\ (forall d, TurboLogModule.js_logsDirectory options = Some d ->
          d <> "" -> logsDirectory c = d)
    /\ (TurboLogModule.js_logsDirectory options = None
        \/ TurboLogModule.js_logsDirectory options = Some "" ->
        logsDirectory c
        = match cacheDir with
          | Some d => d
          | None => "/data/storage/el2/base/cache"
          end)
    /\ (cacheDir <> Some "" -> logsDirectory c <> "")
    /\ dailyRolling c = nullish (TurboLogModule.js_dailyRolling options) false
    /\ maximumFileSize c
       = nullish (TurboLogModule.js_maximumFileSize options) (1024 * 1024)
    /\ maximumNumberOfFiles c
       = nullish (TurboLogModule.js_maximumNumberOfFiles options) 5.
Proof.
  unfold TurboLogModule.configure.
  match goal with
  | |- context [configure ?o now s] =>
      destruct (configure_spec o now s)
        as (s' & size & index & e0 & e1 & e2 & Hrun & Hl & _);
      exists s', (resolve o)
  end.
  split; [exact Hrun|]. unfold configured. rewrite Hl. cbn.
  split; [auto|]. split; [reflexivity|]. split; [reflexivity|].
  split; [reflexivity|].
  split.
  { intros d -> Hd. apply String.eqb_neq in Hd. now rewrite Hd. }
  split.
  { intros [-> | ->]; reflexivity. }
  split; [|auto].
  intros Hcd.
  destruct (TurboLogModule.js_logsDirectory options) as [d|].
  - destruct (String.eqb d "") eqn:E.
    + destruct cacheDir as [[|]|]; congruence || discriminate.
    + now apply String.eqb_neq.
  - destruct cacheDir as [[|]|]; congruence || discriminate.
Qed.

(** ** Where the bytes are after a rotation *)

Lemma lookup_in p f fl : Fs.lookup p fl = Some f -> In (p, f) fl.
Proof.
  unfold Fs.lookup. induction fl as [|[q g] fl IH]; cbn; [discriminate|].
  destruct (String.eqb q p) eqn:E.
  - apply String.eqb_eq in E. subst q. cbn. intros H. injection H as ->. auto.
  - intros H. right. auto.
Qed.

Lemma lookup_none p fl : ~ In p (map fst fl) -> Fs.lookup p fl = None.
Proof.
  intros H. destruct (Fs.lookup p fl) as [f|] eqn:E; [|reflexivity].
  exfalso. apply H. now apply is_file_in, lookup_is_file with f.
Qed.

Lemma in_lookup p f fl :
  NoDup (map fst fl) -> In (p, f) fl -> Fs.lookup p fl = Some f.
Proof.
  unfold Fs.lookup. induction fl as [|[q g] fl IH]; cbn; [contradiction|].
  intros Hnd [Hin|Hin]; inversion Hnd as [|? ? Hq Hnd']; subst.
  - injection Hin as -> ->. now rewrite String.eqb_refl.
  - destruct (String.eqb q p) eqn:E; [|auto].
    apply String.eqb_eq in E. subst q. exfalso. apply Hq.
    apply in_map_iff. exists (p, f). auto.
Qed.

Lemma lookup_incl q fl fl' :
  NoDup (map fst fl) -> incl fl' fl -> In q (map fst fl') ->
  Fs.lookup q fl' = Fs.lookup q fl.
Proof.
  intros Hnd Hi Hin.
  destruct (Fs.lookup q fl') as [f|] eqn:E.
  - symmetry. apply in_lookup; [exact Hnd|]. apply Hi. now apply lookup_in.
  - exfalso. apply in_map_iff in Hin as ([k f] & Hk & Hin). cbn in Hk. subst k.
    assert (Hf : Fs.is_file q fl' = true).
    { unfold Fs.is_file. apply existsb_exists. exists (q, f).
      split; [exact Hin|]. apply String.eqb_refl. }
    destruct (is_file_lookup _ _ Hf) as [g Hg]. congruence.
Qed.

Lemma lookup_remove_other p q fl :
  q <> p -> Fs.lookup q (Fs.remove p fl) = Fs.lookup q fl.
Proof.
  intros Hne. unfold Fs.lookup, Fs.remove.
  induction fl as [|[k f] fl IH]; [reflexivity|].
  cbn [filter fst]. destruct (String.eqb k p) eqn:E; cbn [negb].
  - apply String.eqb_eq in E. subst k. cbn [find fst].
    assert (E' : String.eqb p q = false)
      by (apply String.eqb_neq; congruence).
    now rewrite E'.
  - cbn [find fst]. destruct (String.eqb k q); [reflexivity|exact IH].
Qed.

Lemma lookup_rename_in_new a b fl :
  ~ In b (map fst fl) ->
  Fs.lookup b (Fs.rename_in a b fl) = Fs.lookup a fl.
Proof.
  unfold Fs.lookup. induction fl as [|[q f] fl IH]; intros Hb; [reflexivity|].
  cbn [Fs.rename_in]. destruct (String.eqb q a) eqn:E.
  - cbn [find fst]. now rewrite String.eqb_refl, E.
  - cbn [find fst]. rewrite E.
    assert (E' : String.eqb q b = false).
    { apply String.eqb_neq. intros ->. apply Hb. now left. }
    rewrite E'. apply IH. intros H. apply Hb. now right.
Qed.

Lemma lookup_rename_in_other a b q fl :
  q <> a -> q <> b ->
  Fs.lookup q (Fs.rename_in a b fl) = Fs.lookup q fl.
Proof.
  intros Ha Hb. unfold Fs.lookup.
  induction fl as [|[k f] fl IH]; [reflexivity|].
  cbn [Fs.rename_in]. destruct (String.eqb k a) eqn:E.
  - apply String.eqb_eq in E. subst k. cbn [find fst].
    assert (E1 : String.eqb b q = false)
      by (apply String.eqb_neq; congruence).
    assert (E2 : String.eqb a q = false)
      by (apply String.eqb_neq; congruence).
    now rewrite E1, E2.
  - cbn [find fst]. destruct (String.eqb k q); [reflexivity|exact IH].
Qed.

Lemma not_in_remove b fl : ~ In b (map fst (Fs.remove b fl)).
Proof. intros H. apply in_paths_remove in H. tauto. Qed.

Lemma nodup_remove b fl :
  NoDup (map fst fl) -> NoDup (map fst (Fs.remove b fl)).
Proof.
  unfold Fs.remove. induction fl as [|[q f] fl IH]; intros H; [exact H|].
  inversion H as [|? ? Hq Hnd]; subst. cbn [filter fst].
  destruct (negb (String.eqb q b)); [|auto].
  cbn. constructor; [|auto].
  intros Hin. apply Hq. apply (in_paths_remove q b fl) in Hin. tauto.
Qed.

Lemma nodup_rename_in a b fl :
  NoDup (map fst fl) -> ~ In b (map fst fl) ->
  NoDup (map fst (Fs.rename_in a b fl)).
Proof.
  induction fl as [|[q f] fl IH]; intros H Hb; [exact H|].
  inversion H as [|? ? Hq Hnd]; subst. cbn [Fs.rename_in].
  destruct (String.eqb q a) eqn:E.
  - cbn. constructor; [|exact Hnd]. intros Hin. apply Hb. now right.
  - cbn. constructor.
    + intros Hin. apply in_paths_rename_in in Hin as [Hin| ->].
      * now apply Hq.
      * apply Hb. now left.
    + apply IH; [exact Hnd|]. intros Hin. apply Hb. now right.
Qed.

Lemma not_in_rename_in a b fl :
  NoDup (map fst fl) -> a <> b -> ~ In a (map fst (Fs.rename_in a b fl)).
Proof.
  induction fl as [|[q f] fl IH]; intros H Hab; [intros []|].
  inversion H as [|? ? Hq Hnd]; subst. cbn [Fs.rename_in].
  destruct (String.eqb q a) eqn:E.
  - apply String.eqb_eq in E. subst q. cbn. intros [Hin|Hin]; auto.
  - cbn. intros [Hin|Hin].
    + apply String.eqb_neq in E. auto.
    + revert Hin. now apply IH.
Qed.

Lemma nodup_renamed a b fl :
  NoDup (map fst fl) -> NoDup (map fst (renamed a b fl)).
Proof.
  intros H. unfold renamed. destruct (String.eqb a b); [exact H|].
  apply nodup_rename_in; [now apply nodup_remove|apply not_in_remove].
Qed.

Lemma lookup_renamed_new a b fl :
  Fs.lookup b (renamed a b fl) = Fs.lookup a fl.
Proof.
  unfold renamed. destruct (String.eqb a b) eqn:E.
  - apply String.eqb_eq in E. now subst.
  - apply String.eqb_neq in E.
    rewrite lookup_rename_in_new by apply not_in_remove.
    now apply lookup_remove_other.
Qed.

Lemma lookup_renamed_old a b fl :
  NoDup (map fst fl) -> a <> b -> Fs.lookup a (renamed a b fl) = None.
Proof.
  intros H Hab. apply lookup_none. unfold renamed.
  assert (E : String.eqb a b = false) by now apply String.eqb_neq.
  rewrite E. apply not_in_rename_in; [now apply nodup_remove|exact Hab].
Qed.

Lemma lookup_renamed_other a b q fl :
  q <> a -> q <> b -> Fs.lookup q (renamed a b fl) = Fs.lookup q fl.
Proof.
  intros Ha Hb. unfold renamed. destruct (String.eqb a b); [reflexivity|].
  rewrite lookup_rename_in_other by assumption.
  now apply lookup_remove_other.
Qed.

(** Retention never unlinks a path that ends in [-latest.log]. *)
Lemma cleanup_post_keeps_latest c s s' p :
  cleanup_post c s s' ->
  In p (paths_of s) -> Str.endsWith p "-latest.log" = true ->
  In p (paths_of s').
Proof.
  intros (evs0 & stats & evs1 & _ & _ & _ & Hst & _ & Hm & Hp & _) Hin Hlat.
  apply Hp. split; [exact Hin|]. intros Hun.
  pose proof (unlink_is_victim _ _ _ _ Hm Hun) as Hv.
  apply in_map_iff in Hv as ([q m] & Hq & Hl). cbn in Hq. subst q.
  apply in_firstn in Hl.
  apply (Permutation_in _ (Permutation_sym (sort_by_mtime_perm stats))) in Hl.
  destruct (Hst p m Hl) as (name & f & _ & _ & _ & Hn & _). congruence.
Qed.

(** The files after retention, seen from a store without duplicate
    paths: what is still there is as it was. *)
Lemma cleanup_post_lookup c s s' q :
  cleanup_post c s s' -> NoDup (paths_of s) ->
  (In q (paths_of s') ->
   Fs.lookup q (files (store s')) = Fs.lookup q (files (store s)))
  /\ (~ In q (paths_of s) -> Fs.lookup q (files (store s')) = None).
Proof.
  intros Hpost Hnd. split.
  - intros Hin.
    destruct Hpost as (evs0 & stats & evs1 & _ & _ & _ & _ & _ & _ & _ & Hi & _).
    now apply lookup_incl.
  - intros Hno. apply lookup_none. intros Hin. apply Hno.
    eapply cleanup_post_paths; eassumption.
Qed.

Lemma cleanup_events_no_rename c s s' evs a b ok :
  cleanup_post c s s' -> events s s' evs -> ~ In (RenameSync a b, ok) evs.
Proof.
  intros (e0 & st & e1 & (_ & _ & Hc) & _ & Hq & _ & _ & Hm & _) Hev Hin.
  rewrite (events_inj _ _ _ _ Hev Hc) in Hin.
  apply in_app_or in Hin as [Hin|Hin].
  - specialize (Hq _ Hin). discriminate Hq.
  - destruct (unlinks_only _ _ Hm _ Hin) as [p Hp]. discriminate Hp.
Qed.

Lemma cleanup_post_events c s s' :
  cleanup_post c s s' -> exists evs, events s s' evs.
Proof. intros (e0 & st & e1 & (_ & _ & He) & _). eauto. Qed.

(** The store between the rotation check of a write and its append. *)
Lemma rotation_contents c s s1 now :
  configured c s ->
  NoDup (paths_of s) ->
  0 <= currentFileIndex (logger s) ->
  (rotation_needed c (logger s) (formatDate now) = false /\ s1 = s)
  \/ (rotation_needed c (logger s) (formatDate now) = true
      /\ rotate_post c
           (mkState (dated (formatDate now) c (logger s)) (store s)) s1) ->
  exists evsR,
    events s s1 evsR
    /\ Forall (fun e => is_append_call (live_path c) e = false) evsR
    /\ (forall q, In q (paths_of s1) -> q <> live_path c ->
          q <> rotated_path c (dated (formatDate now) c (logger s)) ->
          Fs.lookup q (files (store s1)) = Fs.lookup q (files (store s)))
    /\ ((In (RenameSync (live_path c)
               (rotated_path c (dated (formatDate now) c (logger s))), true)
            evsR
         /\ (In (rotated_path c (dated (formatDate now) c (logger s)))
                (paths_of s1) ->
             Fs.lookup (rotated_path c (dated (formatDate now) c (logger s)))
                       (files (store s1))
             = Fs.lookup (live_path c) (files (store s)))
         /\ Fs.lookup (live_path c) (files (store s1)) = None)
        \/ (~ In (RenameSync (live_path c)
                    (rotated_path c (dated (formatDate now) c (logger s))),
                  true) evsR
            /\ Fs.lookup (live_path c) (files (store s1))
               = Fs.lookup (live_path c) (files (store s)))).
Proof.
  intros [Hc Hcur] Hnd Hidx [[_ ->]|[_ Hr]].
  { exists []. split; [apply events_nil|]. split; [constructor|].
    split; [auto|]. right. split; [intros []|reflexivity]. }
  set (new := rotated_path c (dated (formatDate now) c (logger s))) in *.
  set (s0 := mkState (dated (formatDate now) c (logger s)) (store s)) in *.
  assert (Hcur0 : currentLogFile (logger s0) = live_path c)
    by (unfold s0; cbn; now rewrite dated_file).
  assert (Hnew0 : rotated_path c (logger s0) = new) by reflexivity.
  assert (Hne : new <> live_path c).
  { unfold new, rotated_path. apply rotated_is_not_live.
    unfold dated. destruct (_ && _); cbn; lia. }
  assert (Hev : exists evsR, events s s1 evsR).
  { destruct Hr as [(_ & _ & _ & [H|H])|(s2 & pre & _ & _ & _ & Hp & _ & Hpost)];
      [exists [(AccessSync (currentLogFile (logger s0)), false)]; exact H
      |eexists; exact H|].
    destruct (cleanup_post_events _ _ _ Hpost) as [e He].
    exists (pre ++ e)%list. exact (events_trans _ _ _ _ _ Hp He). }
  destruct Hev as [evsR Hev]. exists evsR. split; [exact Hev|].
  split.
  { rewrite <- Hcur0. eapply rotation_events_no_append.
    eapply rotate_post_events; [exact Hr|exact Hev]. }
  destruct Hr as [(_ & [_ Hfs] & _ & Hcase)
                 |(s2 & pre & _ & _ & _ & Hp & Hfiles & Hpost)].
  - assert (Hfs' : files (store s1) = files (store s)) by exact Hfs.
    split; [intros q _ _ _; now rewrite Hfs'|].
    right. split; [|now rewrite Hfs'].
    rewrite Hcur0, Hnew0 in Hcase.
    assert (Hcase' : events s s1 [(AccessSync (live_path c), false)]
                     \/ events s s1 [(AccessSync (live_path c), true);
                                     (RenameSync (live_path c) new, false)])
      by exact Hcase.
    destruct Hcase' as [He|He]; rewrite (events_inj _ _ _ _ Hev He); cbn;
      intuition discriminate.
  - destruct (cleanup_post_events _ _ _ Hpost) as [e He].
    assert (Hp' : events s s2 pre) by exact Hp.
    pose proof (events_inj _ _ _ _ Hev (events_trans _ _ _ _ _ Hp' He)) as ->.
    assert (Hnorename : forall a b ok, ~ In (RenameSync a b, ok) e)
      by (intros a b ok; eapply cleanup_events_no_rename; eassumption).
    rewrite Hcur0, Hnew0 in Hfiles.
    assert (Hfiles' :
              (pre = [(AccessSync (live_path c), true)]
               /\ files (store s2) = files (store s))
              \/ (pre = [(AccessSync (live_path c), true);
                         (RenameSync (live_path c) new, true)]
                  /\ Fs.is_file (live_path c) (files (store s)) = true
                  /\ files (store s2) = renamed (live_path c) new
                                          (files (store s))))
      by exact Hfiles.
    clear Hfiles. destruct Hfiles' as [(-> & Hf2)|(-> & _ & Hf2)].
    + assert (Hnd2 : NoDup (paths_of s2)) by (unfold paths_of; now rewrite Hf2).
      split.
      { intros q Hin _ _.
        destruct (cleanup_post_lookup _ _ _ q Hpost Hnd2) as [H1 _].
        now rewrite H1, Hf2. }
      right. split.
      { intros Hin. apply in_app_or in Hin as [[Hin|[]]|Hin];
          [discriminate Hin|]. eapply Hnorename; exact Hin. }
      destruct (cleanup_post_lookup _ _ _ (live_path c) Hpost Hnd2)
        as [H1 H2].
      destruct (in_dec string_dec (live_path c) (paths_of s2)) as [Hin|Hno].
      * rewrite H1, Hf2; [reflexivity|].
        eapply cleanup_post_keeps_latest;
          [exact Hpost|exact Hin|apply live_path_latest].
      * rewrite (H2 Hno). symmetry. apply lookup_none.
        unfold paths_of in Hno. now rewrite Hf2 in Hno.
    + assert (Hnd2 : NoDup (paths_of s2)).
      { unfold paths_of. rewrite Hf2. now apply nodup_renamed. }
      split.
      { intros q Hin Hq1 Hq2.
        destruct (cleanup_post_lookup _ _ _ q Hpost Hnd2) as [H1 _].
        rewrite H1, Hf2 by exact Hin. now apply lookup_renamed_other. }
      left. split; [cbn; auto|]. split.
      * intros Hin.
        destruct (cleanup_post_lookup _ _ _ new Hpost Hnd2) as [H1 _].
        rewrite H1, Hf2 by exact Hin. apply lookup_renamed_new.
      * destruct (cleanup_post_lookup _ _ _ (live_path c) Hpost Hnd2)
          as [_ H2].
        apply H2. unfold paths_of. rewrite Hf2. unfold renamed.
        assert (E : String.eqb (live_path c) new = false)
          by (apply String.eqb_neq; congruence).
        rewrite E. apply not_in_rename_in; [now apply nodup_remove|congruence].
Qed.

(** X15.  Where the bytes are after a write, for a store without duplicate
    paths.  Every other file that is still on disk is as it was.  When the
    rename of the rotation returned, the rotated file (unless retention
    has removed it) is the old live file, content and modification time,
    and the live file holds the new entry only.  When there was no such
    rename, the live file is the old one followed by the new entry.  In
    both cases the entry is missing when the write call did not return. *)
Theorem rotation_moves_the_content (s s' : State) (c : InternalConfig)
  (level : LogLevel) (message : string) (now stamp : Date)
  (evs : list (FsCall * bool)) :
  configured c s ->
  NoDup (paths_of s) ->
  0 <= currentFileIndex (logger s) ->
  write level message now stamp s = Returns tt s' ->
  events s s' evs ->
  (forall q, In q (paths_of s') -> q <> live_path c ->
     q <> rotated_path c (dated (formatDate now) c (logger s)) ->
     Fs.lookup q (files (store s')) = Fs.lookup q (files (store s)))
  /\ (In (RenameSync (live_path c)
            (rotated_path c (dated (formatDate now) c (logger s))), true)
         evs ->
      (In (rotated_path c (dated (formatDate now) c (logger s)))
          (paths_of s') ->
       Fs.lookup (rotated_path c (dated (formatDate now) c (logger s)))
                 (files (store s'))
       = Fs.lookup (live_path c) (files (store s)))
      /\ (In (WriteSync (live_path c)
                (Str.TextEncoder_encodeInto (logEntry level message stamp)),
              true) evs ->
          data_at (live_path c) (files (store s'))
          = Str.TextEncoder_encodeInto (logEntry level message stamp))
      /\ (~ In (WriteSync (live_path c)
                  (Str.TextEncoder_encodeInto (logEntry level message stamp)),
                true) evs ->
          data_at (live_path c) (files (store s')) = []))
  /\ (~ In (RenameSync (live_path c)
              (rotated_path c (dated (formatDate now) c (logger s))), true)
           evs ->
      (In (WriteSync (live_path c)
             (Str.TextEncoder_encodeInto (logEntry level message stamp)),
           true) evs ->
       data_at (live_path c) (files (store s'))
       = (data_at (live_path c) (files (store s))
          ++ Str.TextEncoder_encodeInto (logEntry level message stamp))%list)
      /\ (~ In (WriteSync (live_path c)
                  (Str.TextEncoder_encodeInto (logEntry level message stamp)),
                true) evs ->
          data_at (live_path c) (files (store s'))
          = data_at (live_path c) (files (store s)))).
Proof.
  intros Hcfg Hnd Hidx Hrun Hev.
  pose proof (write_spec c s level message now stamp Hcfg) as H.
  unfold wp in H. rewrite Hrun in H.
  destruct H as (s1 & Hrot & _ & Hc1 & Hcur1 & Hw & Happ).
  destruct (rotation_contents c s s1 now Hcfg Hnd Hidx Hrot)
    as (evsR & HevR & HnoA & Hother & Hcase).
  set (new := rotated_path c (dated (formatDate now) c (logger s))) in *.
  set (bytes := Str.TextEncoder_encodeInto (logEntry level message stamp)) in *.
  destruct (writeToFile_contents (logEntry level message stamp) s1 c
              (live_path c) Hc1 Hcur1 (live_path_nonempty c))
    as (s'' & evsW & Hw' & HevW & Hwo & Hw1 & Hw0 & _).
  rewrite Hw in Hw'. injection Hw' as <-. fold bytes in Hw1, Hw0.
  pose proof (events_inj _ _ _ _ Hev (events_trans _ _ _ _ _ HevR HevW)) as ->.
  assert (HallW : Forall (fun e => is_append_call (live_path c) e = true) evsW).
  { rewrite <- Hcur1. eapply append_post_events; eassumption. }
  assert (Hren : forall b ok, In (RenameSync (live_path c) b, ok)
                                 (evsR ++ evsW) ->
                              In (RenameSync (live_path c) b, ok) evsR).
  { intros b ok Hin. apply in_app_or in Hin as [Hin|Hin]; [exact Hin|].
    rewrite Forall_forall in HallW. specialize (HallW _ Hin).
    discriminate HallW. }
  assert (Hwr : In (WriteSync (live_path c) bytes, true) (evsR ++ evsW) <->
                In (WriteSync (live_path c) bytes, true) evsW).
  { split; [|intros Hin; apply in_or_app; now right].
    intros Hin. apply in_app_or in Hin as [Hin|Hin]; [|exact Hin].
    rewrite Forall_forall in HnoA. specialize (HnoA _ Hin).
    cbn in HnoA. now rewrite String.eqb_refl in HnoA. }
  assert (Hin1 : forall q, In q (paths_of s') -> q <> live_path c ->
                           In q (paths_of s1)).
  { intros q Hin Hq. destruct Happ as (_ & _ & Hnew & _).
    destruct (Hnew q Hin) as [H1|H1]; [exact H1|]. congruence. }
  split.
  { intros q Hin Hq1 Hq2. rewrite Hwo by exact Hq1. auto. }
  assert (Hne : new <> live_path c).
  { unfold new, rotated_path. apply rotated_is_not_live.
    unfold dated. destruct (_ && _); cbn; lia. }
  unfold data_at in *.
  destruct Hcase as [(HinR & Hnew1 & Hlive1)|(HnoR & Hlive1)].
  - split.
    + intros _. split.
      { intros Hin. rewrite Hwo by exact Hne. auto. }
      rewrite Hlive1 in Hw1, Hw0. rewrite Hwr. split; assumption.
    + intros Hno. exfalso. apply Hno. apply in_or_app. now left.
  - split.
    + intros Hin. exfalso. apply HnoR. now apply Hren.
    + intros _. rewrite Hlive1 in Hw1, Hw0. rewrite Hwr. split; assumption.
Qed.

Lemma rotation_moves_the_content_witness :
  (configured config_t full_log
   /\ NoDup (paths_of full_log)
   /\ 0 <= currentFileIndex (logger full_log)
   /\ write Info "aaaaa" day1 day1 full_log = Returns tt rotated_log
   /\ events full_log rotated_log
        (skipn (length (trace (store full_log))) (trace (store rotated_log))))
  /\ Fs.lookup "/logs/t-1.log" (files (store rotated_log))
     = Fs.lookup "/logs/t-latest.log" (files (store full_log)).
Proof.
  assert (H1 : configured config_t full_log) by (split; reflexivity).
  assert (H2 : NoDup (paths_of full_log)).
  { vm_compute. constructor; [intros []|constructor]. }
  assert (H3 : 0 <= currentFileIndex (logger full_log)) by (vm_compute; discriminate).
  assert (H4 : write Info "aaaaa" day1 day1 full_log = Returns tt rotated_log)
    by (vm_compute; reflexivity).
  assert (H5 : events full_log rotated_log
                 (skipn (length (trace (store full_log)))
                    (trace (store rotated_log))))
    by (vm_compute; reflexivity).
  split; [auto 10|].
  pose proof (rotation_moves_the_content full_log rotated_log config_t Info
                "aaaaa" day1 day1 _ H1 H2 H3 H4 H5) as P.
  destruct P as (_ & P & _).
  assert (Hr : In (RenameSync (live_path config_t)
                     (rotated_path config_t
                        (dated (formatDate day1) config_t (logger full_log))),
                   true)
                  (skipn (length (trace (store full_log)))
                     (trace (store rotated_log)))).
  { vm_compute. auto 10. }
  destruct (P Hr) as (P1 & _).
  assert (Hn : In (rotated_path config_t
                     (dated (formatDate day1) config_t (logger full_log)))
                  (paths_of rotated_log)).
  { vm_compute. auto. }
  specialize (P1 Hn). vm_compute in P1. vm_compute. exact P1.
Defined.

(** ** The size counter and the size of the live file *)

(** A rotation that finds the live file either fails at the access check
    or issues the rename. *)
Lemma rotate_renames_a_file s c :
  config (logger s) = Some c ->
  Fs.is_file (currentLogFile (logger s)) (files (store s)) = true ->
  wp rotateLogFile
    (fun _ s' =>
       exists evs,
         events s s' evs
         /\ (hd_error evs = Some (AccessSync (currentLogFile (logger s)), false)
             \/ exists ok,
                  In (RenameSync (currentLogFile (logger s))
                                 (rotated_path c (logger s)), ok) evs))
    (fun _ => False) True s.
Proof.
  intros Hc Hf. unfold rotateLogFile. apply wp_bind, wp_get. rewrite Hc.
  apply wp_try. apply wp_bind, wp_get. apply wp_bind, wp_modify.
  apply wp_bind, wp_get. apply wp_bind, wp_get. apply wp_bind, wp_get.
  cbn [logger store currentDate currentFileIndex currentLogFile
       with_currentFileIndex].
  assert (Hnew : (if dailyRolling c
     then logsDirectory c ++ "/" ++ logPrefix c ++ "-" ++
          currentDate (logger s) ++ "." ++
          Str.of_number (currentFileIndex (logger s) + 1) ++ ".log"
     else logsDirectory c ++ "/" ++ logPrefix c ++ "-" ++
          Str.of_number (currentFileIndex (logger s) + 1) ++ ".log")
    = rotated_path c (logger s)).
  { unfold rotated_path, rotatedFileName. now destruct (dailyRolling c). }
  rewrite Hnew. clear Hnew.
  apply wp_bind. unfold accessSync. apply wp_fs_call.
  - intros ex ds fl _ E. inversion E; subst; clear E.
    rewrite Hf. cbn [orb].
    apply wp_bind. unfold renameSync. apply wp_fs_call.
    + intros [] ds fl _ E. apply wp_bind, wp_modify.
      eapply wp_mono; [apply (cleanup_spec _ c); exact Hc| |easy|easy].
      intros u s' Hpost.
      destruct (cleanup_post_events _ _ _ Hpost) as [e He].
      exists ([(AccessSync (currentLogFile (logger s)), true);
               (RenameSync (currentLogFile (logger s))
                           (rotated_path c (logger s)), true)] ++ e)%list.
      split.
      * unfold events in *. rewrite He. cbn. now rewrite <- !app_assoc.
      * right. exists true. cbn. auto.
    + unfold wp, ret.
      exists [(AccessSync (currentLogFile (logger s)), true);
              (RenameSync (currentLogFile (logger s))
                          (rotated_path c (logger s)), false)].
      split.
      * unfold events. cbn. now rewrite <- app_assoc.
      * right. exists false. cbn. auto.
  - unfold wp, ret.
    exists [(AccessSync (currentLogFile (logger s)), false)].
    split; [reflexivity|]. left. reflexivity.
Qed.

(** The counter and the live file once the rotation check of a write has
    run. *)
Lemma rotation_keeps_counter_in_sync c s s1 now :
  configured c s ->
  NoDup (paths_of s) ->
  0 <= currentFileIndex (logger s) ->
  currentFileSize (logger s)
  = Z.of_nat (length (data_at (live_path c) (files (store s)))) ->
  checkAndRotate now s = Returns tt s1 ->
  currentFileSize (logger s1)
  = Z.of_nat (length (data_at (live_path c) (files (store s1)))).
Proof.
  intros Hcfg Hnd Hidx Hsync Hrun.
  pose proof Hcfg as [Hc Hcur].
  pose proof (checkAndRotate_eq s c now Hc) as Heq. rewrite Hrun in Heq.
  destruct (rotation_needed c (logger s) (formatDate now)) eqn:En.
  2:{ injection Heq as ->. exact Hsync. }
  set (s0 := mkState (dated (formatDate now) c (logger s)) (store s)) in *.
  assert (Hc0 : config (logger s0) = Some c).
  { unfold s0, dated. cbn. now destruct (_ && _). }
  assert (Hcur0 : currentLogFile (logger s0) = live_path c)
    by (unfold s0; cbn; now rewrite dated_file).
  assert (Hz0 : currentFileSize (logger s0) = currentFileSize (logger s))
    by (unfold s0; cbn; now rewrite dated_size).
  pose proof (rotate_spec s0 c Hc0) as Hr. unfold wp in Hr.
  rewrite <- Heq in Hr.
  destruct (rotation_contents c s s1 now Hcfg Hnd Hidx
              (or_intror (conj En Hr)))
    as (evsR & HevR & _ & _ & Hcase).
  unfold data_at in *.
  destruct Hr as [(Hl & [_ Hfs] & _)
                 |(s2 & pre & Hl & _ & _ & Hp & Hfiles & Hpost)].
  - assert (Hz1 : currentFileSize (logger s1) = currentFileSize (logger s))
      by (rewrite Hl; cbn; apply dated_size).
    assert (Hfs' : files (store s1) = files (store s)) by exact Hfs.
    now rewrite Hz1, Hfs'.
  - assert (Hl1 : currentFileSize (logger s1) = 0).
    { destruct Hpost as (e0 & st & e1 & (Hl' & _) & _). now rewrite Hl', Hl. }
    rewrite Hl1.
    destruct Hcase as [(_ & _ & ->)|(HnoR & ->)]; [reflexivity|].
    destruct (Fs.is_file (live_path c) (files (store s))) eqn:Ef;
      [|now rewrite (lookup_not_file _ _ Ef)].
    exfalso.
    assert (Hf0 : Fs.is_file (currentLogFile (logger s0)) (files (store s0))
                  = true) by (rewrite Hcur0; exact Ef).
    pose proof (rotate_renames_a_file s0 c Hc0 Hf0) as Ha. unfold wp in Ha.
    rewrite <- Heq in Ha. destruct Ha as (evs & Hev & Hhd).
    assert (Hev' : events s s1 evs) by exact Hev.
    pose proof (events_inj _ _ _ _ HevR Hev') as ->.
    rewrite Hcur0 in Hhd, Hfiles.
    destruct (cleanup_post_events _ _ _ Hpost) as [e He].
    assert (Hp' : events s s2 pre) by exact Hp.
    pose proof (events_inj _ _ _ _ Hev' (events_trans _ _ _ _ _ Hp' He)) as E.
    destruct Hhd as [Hhd|[ok Hin]].
    + rewrite E in Hhd.
      destruct Hfiles as [(-> & _)|(-> & _)]; discriminate Hhd.
    + destruct ok.
      * apply HnoR. exact Hin.
      * rewrite E in Hin. apply in_app_or in Hin as [Hin|Hin].
        -- destruct Hfiles as [(-> & _)|(-> & _)]; cbn in Hin;
             intuition discriminate.
        -- eapply cleanup_events_no_rename; eassumption.
Qed.

(** X16.  For a message of ASCII characters a write keeps the size counter
    equal to the size of the live file (0 when there is none), provided the
    close call does not throw; rotation, a failed rotation and a failed
    open or write included. *)
Theorem ascii_write_keeps_counter_in_sync (s s' : State) (c : InternalConfig)
  (level : LogLevel) (message : string) (now stamp : Date)
  (evs : list (FsCall * bool)) :
  configured c s ->
  NoDup (paths_of s) ->
  0 <= currentFileIndex (logger s) ->
  Str.is_ascii message = true ->
  currentFileSize (logger s)
  = Z.of_nat (length (data_at (live_path c) (files (store s)))) ->
  write level message now stamp s = Returns tt s' ->
  events s s' evs ->
  ~ In (CloseSync (live_path c), false) evs ->
  currentFileSize (logger s')
  = Z.of_nat (length (data_at (live_path c) (files (store s')))).
Proof.
  intros Hcfg Hnd Hidx Hascii Hsync Hrun Hev Hclose.
  pose proof (write_spec c s level message now stamp Hcfg) as H.
  unfold wp in H. rewrite Hrun in H.
  destruct H as (s1 & Hrot & Hchk & Hc1 & Hcur1 & Hw & Happ).
  pose proof (rotation_keeps_counter_in_sync c s s1 now Hcfg Hnd Hidx Hsync
                Hchk) as Hsync1.
  destruct (rotation_contents c s s1 now Hcfg Hnd Hidx Hrot)
    as (evsR & HevR & _).
  set (entry := logEntry level message stamp) in *.
  destruct (writeToFile_contents entry s1 c (live_path c) Hc1 Hcur1
              (live_path_nonempty c))
    as (s'' & evsW & Hw' & HevW & _ & Hw1 & Hw0 & Hz1 & Hz0).
  rewrite Hw in Hw'. injection Hw' as <-.
  pose proof (events_inj _ _ _ _ Hev (events_trans _ _ _ _ _ HevR HevW)) as ->.
  assert (Hlen : length (Str.TextEncoder_encodeInto entry)
                 = String.length entry).
  { apply encodeInto_length_ascii. unfold entry.
    now rewrite logEntry_ascii. }
  destruct Happ as (_ & _ & _ & _ & Hcases). rewrite Hcur1 in Hcases.
  destruct Hcases as [(He & _)|(_ & [He|[He|He]])];
    pose proof (events_inj _ _ _ _ HevW He) as E; rewrite E in *.
  - rewrite Hz1, Hw1 by (cbn; auto). rewrite length_app, Hlen, Hsync1. lia.
  - rewrite Hz0, Hw0 by (cbn; intuition discriminate). exact Hsync1.
  - rewrite Hz0, Hw0 by (cbn; intuition discriminate). exact Hsync1.
  - exfalso. apply Hclose. apply in_or_app. right. cbn. auto.
Qed.

Lemma ascii_write_keeps_counter_in_sync_witness :
  (configured config_t full_log
   /\ NoDup (paths_of full_log)
   /\ 0 <= currentFileIndex (logger full_log)
   /\ Str.is_ascii "aaaaa" = true
   /\ currentFileSize (logger full_log)
      = Z.of_nat (length (data_at (live_path config_t)
                                  (files (store full_log))))
   /\ write Info "aaaaa" day1 day1 full_log = Returns tt rotated_log
   /\ events full_log rotated_log
        (skipn (length (trace (store full_log))) (trace (store rotated_log)))
   /\ ~ In (CloseSync (live_path config_t), false)
           (skipn (length (trace (store full_log)))
                  (trace (store rotated_log))))
  /\ currentFileSize (logger rotated_log) = 36.
Proof.
  assert (H1 : configured config_t full_log) by (split; reflexivity).
  assert (H2 : NoDup (paths_of full_log)).
  { vm_compute. constructor; [intros []|constructor]. }
  assert (H3 : 0 <= currentFileIndex (logger full_log))
    by (vm_compute; discriminate).
  assert (H4 : Str.is_ascii "aaaaa" = true) by reflexivity.
  assert (H5 : currentFileSize (logger full_log)
               = Z.of_nat (length (data_at (live_path config_t)
                                           (files (store full_log)))))
    by (vm_compute; reflexivity).
  assert (H6 : write Info "aaaaa" day1 day1 full_log = Returns tt rotated_log)
    by (vm_compute; reflexivity).
  assert (H7 : events full_log rotated_log
                 (skipn (length (trace (store full_log)))
                    (trace (store rotated_log))))
    by (vm_compute; reflexivity).
  assert (H8 : ~ In (CloseSync (live_path config_t), false)
                    (skipn (length (trace (store full_log)))
                       (trace (store rotated_log)))).
  { vm_compute. intuition discriminate. }
  split; [auto 12|].
  pose proof (ascii_write_keeps_counter_in_sync full_log rotated_log config_t
                Info "aaaaa" day1 day1 _ H1 H2 H3 H4 H5 H6 H7 H8) as P.
  rewrite P. vm_compute. reflexivity.
Defined.

(** ** Configuring without a directory *)

Lemma ensure_skips_empty s c :
  config (logger s) = Some c -> logsDirectory c = "" ->
  ensureLogsDirectory s = Returns tt s.
Proof.
  intros Hc Hd. unfold ensureLogsDirectory, bind, get. now rewrite Hc, Hd.
Qed.

(** X17.  When the [logsDirectory] option is missing or empty, [configure]
    makes no call for the directory: nothing is created, the first call is
    the access check of the live file, and the live file is
    [/<prefix>-latest.log], at the root of the file system. *)
Theorem configure_without_directory (options : ConfigureOptions) (now : Date)
  (s : State) :
  nullish (opt_logsDirectory options) "" = "" ->
  exists s' evs,
    configure options now s = Returns tt s'
    /\ events s s' evs
    /\ currentLogFile (logger s')
       = "/" ++ nullish (opt_logPrefix options) "app" ++ "-latest.log"
    /\ (forall p ok, ~ In (MkdirSync p, ok) evs)
    /\ (exists ok rest,
          evs = (AccessSync (currentLogFile (logger s')), ok) :: rest)
    /\ files (store s') = files (store s).
Proof.
  intros Hd.
  set (c := resolve options).
  assert (Hdir : logsDirectory c = "") by exact Hd.
  unfold configure, bind at 1 2 3 4, set_config, set_currentDate,
    set_currentFileIndex, set_currentFileSize, modify.
  cbn [logger store config currentLogFile currentDate currentFileSize
       currentFileIndex with_config with_currentDate with_currentFileIndex
       with_currentFileSize].
  fold c.
  match goal with
  | |- context [bind ensureLogsDirectory _ ?st] => set (s4 := st)
  end.
  assert (Hc4 : config (logger s4) = Some c) by reflexivity.
  unfold bind. rewrite (ensure_skips_empty s4 c Hc4 Hdir).
  pose proof (init_spec s4 c Hc4) as Hi. unfold wp in Hi.
  destruct (initCurrentLogFile s4) as [[] s'| |]; [|destruct Hi|destruct Hi].
  destruct Hi as (size & index & e1 & e2 & Hl & _ & Hf & Hev & Hsz & Hix).
  exists s', (e1 ++ e2)%list. split; [reflexivity|]. split; [exact Hev|].
  assert (Hlive : currentLogFile (logger s') = live_path c)
    by (rewrite Hl; reflexivity).
  split.
  { rewrite Hlive. unfold live_path, liveFileName. rewrite Hdir.
    reflexivity. }
  split.
  { intros p ok Hin. apply in_app_or in Hin as [Hin|Hin].
    - destruct Hsz as [(f & -> & _)|(_ & [[k ->]| ->])]; cbn in Hin;
        intuition discriminate.
    - destruct Hix as [(-> & _)|(-> & _)]; cbn in Hin; intuition discriminate. }
  split; [|exact Hf].
  rewrite Hlive.
  destruct Hsz as [(f & -> & _)|(_ & [[k ->]| ->])]; cbn; eauto.
Qed.

Lemma configure_without_directory_witness :
  nullish (opt_logsDirectory (mkOptions None None None None None)) "" = ""
  /\ exists s',
       configure (mkOptions None None None None None) day1 (fresh no_faults)
       = Returns tt s'
       /\ currentLogFile (logger s') = "/app-latest.log".
Proof.
  split; [reflexivity|].
  pose proof (configure_without_directory (mkOptions None None None None None)
                day1 (fresh no_faults) eq_refl) as P.
  destruct P as (s' & evs & P & _ & Q & _).
  exists s'. split; [exact P|exact Q].
Defined.
